(** * DynamicStateService: named state slots with per-name observable streams

    A shallow embedding of [src/dynamic-state.service.ts].  The service owns
    a [Map<string, DT>] and one rxjs [Subject<string>]; every stream handed
    out by [stateValue$] is the pipeline
    [filter / startWith / filter / map / shareReplay] over that subject.

    The state of the service is the map, the subject, and the streams
    handed out so far, each with the state of its [shareReplay] and with
    the subscribers created on it.  Every method is a function on that
    state; a history is a list of calls.

    The rxjs operators are library code; they are modelled after their
    rxjs 7 behaviour ([Subject], [ReplaySubject], [share] with
    [resetOnRefCountZero: true] and [resetOnComplete: false],
    [distinctUntilChanged], [pipe]).  Subscribers only record what they are
    sent: a subscriber never calls back into the service while it is being
    notified. *)

From Stdlib Require Import ZArith.
From stdpp Require Import base strings gmap list.

Open Scope Z_scope.
Open Scope nat_scope.

(** ** JavaScript values *)

(** The values a slot can hold.  Numbers are the integers together with
    [NaN] and [-0]; an object is a reference together with its own
    enumerable properties. *)
#[warnings="-register-all"]
Inductive JsVal : Type :=
  | JUndefined
  | JNull
  | JBool (b : bool)
  | JNum (n : Z)
  | JNaN
  | JNegZero
  | JStr (s : string)
  | JObj (ref : nat) (fields : list (string * JsVal)).

(** [value === undefined] *)
Definition is_undefined (v : JsVal) : bool :=
  match v with JUndefined => true | _ => false end.

(** [Object.is(a, b)]: same-value equality.  Primitives are compared by
    value ([NaN] is itself, [0] is not [-0]), objects by reference. *)
Definition Object_is (a b : JsVal) : bool :=
  match a, b with
  | JUndefined, JUndefined => true
  | JNull, JNull => true
  | JBool x, JBool y => Bool.eqb x y
  | JNum x, JNum y => Z.eqb x y
  | JNaN, JNaN => true
  | JNegZero, JNegZero => true
  | JStr x, JStr y => String.eqb x y
  | JObj r _, JObj r' _ => Nat.eqb r r'
  | _, _ => false
  end.

(** A caller-written comparison by content, ignoring object identity; an
    example of what a caller may pass as [distinctFn]. *)
Fixpoint sameContent (a b : JsVal) {struct a} : bool :=
  match a, b with
  | JObj _ fa, JObj _ fb =>
      (fix go (l1 l2 : list (string * JsVal)) {struct l1} : bool :=
         match l1, l2 with
         | [], [] => true
         | (k1, v1) :: t1, (k2, v2) :: t2 =>
             String.eqb k1 k2 && sameContent v1 v2 && go t1 t2
         | _, _ => false
         end) fa fb
  | JObj _ _, _ => false
  | _, JObj _ _ => false
  | _, _ => Object_is a b
  end.

(** ** rxjs: subscribers *)

Inductive Notification : Type :=
  | Next (v : JsVal)
  | Complete.

Definition Comparator : Type := JsVal → JsVal → bool.

(** The subscriber created by one [subscribe] call on a derived stream.
    [comparator] is present when the stream was wrapped in
    [distinctUntilChanged]; [previousKey] is that operator's memory
    ([None] while its [first] flag is still set).  [received] is what the
    caller's observer has been sent so far. *)
Record Subscriber : Type := mkSubscriber {
  closed : bool;
  comparator : option Comparator;
  previousKey : option JsVal;
  received : list Notification
}.

Definition Subscriber_new (cmp : option Comparator) : Subscriber :=
  mkSubscriber false cmp None [].

Definition Subscriber_emit (v : JsVal) (sub : Subscriber) : Subscriber :=
  mkSubscriber (closed sub) (comparator sub) (Some v) (received sub ++ [Next v]).

(** [subscriber.next(v)], through [distinctUntilChanged] when present:
    [if (first || !comparator(previousKey, currentKey)) { ... next(value) }] *)
Definition Subscriber_next (v : JsVal) (sub : Subscriber) : Subscriber :=
  if closed sub then sub
  else match comparator sub, previousKey sub with
       | Some cmp, Some prev => if cmp prev v then sub else Subscriber_emit v sub
       | _, _ => Subscriber_emit v sub
       end.

(** [subscriber.complete()]: deliver, then unsubscribe. *)
Definition Subscriber_complete (sub : Subscriber) : Subscriber :=
  if closed sub then sub
  else mkSubscriber true (comparator sub) (previousKey sub) (received sub ++ [Complete]).

Definition Subscriber_close (sub : Subscriber) : Subscriber :=
  mkSubscriber true (comparator sub) (previousKey sub) (received sub).

(** ** rxjs: ReplaySubject and shareReplay *)

(** [observers] holds indices into the subscriber table of the stream the
    subject belongs to.  The subject's [_bufferSize] never changes; it is
    kept with the stream ([Shared_bufferSize] below). *)
Record ReplaySubject : Type := mkReplaySubject {
  rs_buffer : list JsVal;
  rs_isStopped : bool;
  rs_observers : list nat
}.

(** [new ReplaySubject(bufferSize)] *)
Definition ReplaySubject_new : ReplaySubject := mkReplaySubject [] false [].

(** [_trimBuffer]: keep the newest [size] entries. *)
Definition trimBuffer (size : Z) (buf : list JsVal) : list JsVal :=
  drop (length buf - Z.to_nat size) buf.

(** [for (const observer of observers) observer.next(v)] *)
Definition deliver (v : JsVal) (obs : list nat) (subs : list Subscriber)
  : list Subscriber :=
  foldl (λ acc k, alter (Subscriber_next v) k acc) subs obs.

Definition deliver_complete (obs : list nat) (subs : list Subscriber)
  : list Subscriber :=
  foldl (λ acc k, alter Subscriber_complete k acc) subs obs.

(** [arrRemove(arr, item)]: drop the first occurrence. *)
Fixpoint arrRemove (x : nat) (l : list nat) : list nat :=
  match l with
  | [] => []
  | y :: l' => if decide (x = y) then l' else y :: arrRemove x l'
  end.

(** One stream returned by [stateValue$]: the closed-over [name], the
    [buffer] option, the state of the [share] closure behind
    [shareReplay({ bufferSize, refCount: true })], and the subscribers
    created on this stream, in creation order. *)
Record Shared : Type := mkShared {
  sh_name : string;
  sh_buffer : Z;
  subject : option ReplaySubject;
  connection : bool;
  refCount : nat;
  hasCompleted : bool;
  subscribers : list Subscriber
}.

Definition Shared_new (name : string) (buffer : Z) : Shared :=
  mkShared name buffer None false 0 false [].

(** The [_bufferSize] of every ReplaySubject this stream's connector
    creates: [Math.max(1, bufferSize)]. *)
Definition Shared_bufferSize (sh : Shared) : Z := Z.max 1 (sh_buffer sh).

(** [connection.next(v)], that is [dest.next(v)] on the ReplaySubject:
    push and trim unless stopped, then hand [v] to every observer. *)
Definition connection_next (v : JsVal) (sh : Shared) : Shared :=
  match subject sh with
  | Some rs =>
      if rs_isStopped rs then sh
      else mkShared (sh_name sh) (sh_buffer sh)
             (Some (mkReplaySubject
                      (trimBuffer (Shared_bufferSize sh) (rs_buffer rs ++ [v]))
                      false (rs_observers rs)))
             (connection sh) (refCount sh) (hasCompleted sh)
             (deliver v (rs_observers rs) (subscribers sh))
  | None => sh
  end.

(** [connection.complete()]: [hasCompleted = true; dest.complete()].  Every
    observer is completed, which unsubscribes it and so runs its
    [refCount--] finalizer; nothing is reset ([resetOnComplete: false]). *)
Definition connection_complete (sh : Shared) : Shared :=
  match subject sh with
  | Some rs =>
      if rs_isStopped rs
      then mkShared (sh_name sh) (sh_buffer sh) (subject sh) (connection sh)
             (refCount sh) true (subscribers sh)
      else mkShared (sh_name sh) (sh_buffer sh)
             (Some (mkReplaySubject (rs_buffer rs) true []))
             (connection sh) (refCount sh - length (rs_observers rs)) true
             (deliver_complete (rs_observers rs) (subscribers sh))
  | None => mkShared (sh_name sh) (sh_buffer sh) None (connection sh)
              (refCount sh) true (subscribers sh)
  end.

(** ** The service *)

(** The rxjs [Subject<string>]; its observers are the connections of the
    derived streams, named by stream index. *)
Record Subject : Type := mkSubject {
  isStopped : bool;
  observers : list nat
}.

Record Service : Type := mkService {
  hash_stateValue : gmap string JsVal;      (* #stateValue *)
  hash_stateValueUpdated : Subject;         (* #stateValueUpdated$ *)
  derived : list Shared                     (* streams handed out so far *)
}.

(** [new Map()], [new Subject()] *)
Definition Service_new : Service := mkService ∅ (mkSubject false []) [].

(** [Map.prototype.has] and [Map.prototype.get] *)
Definition Map_has (m : gmap string JsVal) (name : string) : bool :=
  bool_decide (is_Some (m !! name)).

Definition Map_get (m : gmap string JsVal) (name : string) : JsVal :=
  default JUndefined (m !! name).

(** The part of the pipeline after [startWith(name)]:
    [filter(() => this.hasStateValue(name))], then
    [map(() => this.stateValue(name))], then the shared connection. *)
Definition pipeline_trigger (m : gmap string JsVal) (sh : Shared) : Shared :=
  if Map_has m (sh_name sh) then connection_next (Map_get m (sh_name sh)) sh
  else sh.

(** A name arriving from the subject first passes
    [filter(stateUpdated => stateUpdated === name)]. *)
Definition pipeline_next (m : gmap string JsVal) (stateUpdated : string)
    (sh : Shared) : Shared :=
  if String.eqb stateUpdated (sh_name sh) then pipeline_trigger m sh else sh.

(** [this.#stateValueUpdated$.next(name)] *)
Definition Subject_next (name : string) (s : Service) : Service :=
  if isStopped (hash_stateValueUpdated s) then s
  else mkService (hash_stateValue s) (hash_stateValueUpdated s)
         (foldl (λ acc i, alter (pipeline_next (hash_stateValue s) name) i acc)
            (derived s) (observers (hash_stateValueUpdated s))).

(** [this.#stateValueUpdated$.complete()] *)
Definition Subject_complete (s : Service) : Service :=
  if isStopped (hash_stateValueUpdated s) then s
  else mkService (hash_stateValue s) (mkSubject true [])
         (foldl (λ acc i, alter connection_complete i acc)
            (derived s) (observers (hash_stateValueUpdated s))).

(** [protected stateValue<T>(name, value?)] *)
Definition stateValue (name : string) (value : JsVal) (s : Service)
  : JsVal * Service :=
  if is_undefined value then (Map_get (hash_stateValue s) name, s)
  else (JUndefined,
        Subject_next name
          (mkService (<[name := value]> (hash_stateValue s))
             (hash_stateValueUpdated s) (derived s))).

(** [protected hasStateValue(name)] *)
Definition hasStateValue (name : string) (s : Service) : bool :=
  Map_has (hash_stateValue s) name.

(** [protected removeStateValue(name)] *)
Definition removeStateValue (name : string) (s : Service) : Service :=
  mkService (delete name (hash_stateValue s)) (hash_stateValueUpdated s)
    (derived s).

(** [protected clearStateValues()] *)
Definition clearStateValues (s : Service) : Service :=
  mkService ∅ (hash_stateValueUpdated s) (derived s).

(** The [onDestroy] callback registered by the constructor. *)
Definition onDestroy (s : Service) : Service :=
  clearStateValues (Subject_complete s).

(** [protected stateValueOnce$(name)]: [of(this.stateValue(name))]; the
    value is read when the method is called, and every subscriber of the
    result is sent that value and then completion. *)
Definition stateValueOnce_dollar (name : string) (s : Service)
  : list Notification :=
  [Next (fst (stateValue name JUndefined s)); Complete].

(** ** Stream construction *)

(** [IStateOpts<T>]; [None] is a property that is not given.  An
    [initialValue] given as [undefined] reads like one not given; a
    [buffer] is an integer when given. *)
Record IStateOpts : Type := mkOpts {
  buffer : option Z;
  initialValue : option JsVal
}.

(** [IStateOptsWithDistinct<T>] *)
Record IStateOptsWithDistinct : Type := mkOptsDistinct {
  base_opts : IStateOpts;
  distinctFn : option Comparator
}.

(** What the two stream methods return: the shared stream with index
    [source], piped through [distinctUntilChanged(cmp)] when
    [distinct = Some cmp]. *)
Record Observable : Type := mkObservable {
  source : nat;
  distinct : option Comparator
}.

(** Raised by [pipe] when one of its arguments is not a function: rxjs
    folds the operator list with [fns.reduce((prev, fn) => fn(prev), input)]. *)
Inductive Thrown : Type :=
  | TypeError_not_a_function.

(** [opts = { ...{ buffer: 1 }, ...opts }] *)
Definition merged_buffer (opts : option IStateOpts) : Z :=
  match opts with
  | Some o => default 1%Z (buffer o)
  | None => 1%Z
  end.

(** [opts?.initialValue] *)
Definition opts_initialValue (opts : option IStateOpts) : JsVal :=
  match opts with
  | Some o => default JUndefined (initialValue o)
  | None => JUndefined
  end.

(** Truthiness of a number: [opts?.buffer ? ... : undefined] *)
Definition truthy (n : Z) : bool := negb (Z.eqb n 0).

(** [protected stateValue$<T>(name, opts?)].  The seeding call happens
    before the pipeline is built; the last argument of [pipe] is
    [shareReplay(...)] when [buffer] is truthy and [undefined] otherwise. *)
Definition stateValue_dollar (name : string) (opts : option IStateOpts)
    (s : Service) : (Thrown + Observable) * Service :=
  let s1 :=
    if negb (is_undefined (opts_initialValue opts))
       && negb (Map_has (hash_stateValue s) name)
    then snd (stateValue name (opts_initialValue opts) s)
    else s in
  if truthy (merged_buffer opts)
  then (inr (mkObservable (length (derived s1)) None),
        mkService (hash_stateValue s1) (hash_stateValueUpdated s1)
          (derived s1 ++ [Shared_new name (merged_buffer opts)]))
  else (inl TypeError_not_a_function, s1).

(** [private defaultDistinctFn<T>()] *)
Definition defaultDistinctFn : Comparator := λ a b, Object_is a b.

(** [protected stateValueDistinct$<T>(name, opts?)]:
    [opts?.distinctFn ?? this.defaultDistinctFn()] *)
Definition stateValueDistinct_dollar (name : string)
    (opts : option IStateOptsWithDistinct) (s : Service)
  : (Thrown + Observable) * Service :=
  match stateValue_dollar name (base_opts <$> opts) s with
  | (inr o, s') =>
      (inr (mkObservable (source o)
              (Some (default defaultDistinctFn (opts ≫= distinctFn)))), s')
  | (inl e, s') => (inl e, s')
  end.

(** ** Subscribing and unsubscribing *)

(** A subscription names the stream and the subscriber created on it. *)
Definition Subscription : Type := (nat * nat)%type.

(** [share]'s subscribe function for stream [i], in source order:
    [refCount++]; [dest = subject ?? connector()]; [dest.subscribe(subscriber)]
    (replay of the buffer, then completion if [dest] is stopped, else the
    subscriber joins [observers]); and, if there is no connection yet, the
    connection to the source: [startWith(name)] triggers once at once, then
    the subject is subscribed to, which completes at once when it is
    stopped. *)
Definition Shared_subscribe (m : gmap string JsVal) (cmp : option Comparator)
    (i : nat) (notifier : Subject) (sh : Shared) : Subject * Shared :=
  let k := length (subscribers sh) in
  let dest := default ReplaySubject_new (subject sh) in
  let replayed :=
    foldl (λ sub v, Subscriber_next v sub) (Subscriber_new cmp) (rs_buffer dest) in
  let sh1 :=
    if rs_isStopped dest
    then mkShared (sh_name sh) (sh_buffer sh) (Some dest) (connection sh)
           (refCount sh) (hasCompleted sh)
           (subscribers sh ++ [Subscriber_complete replayed])
    else mkShared (sh_name sh) (sh_buffer sh)
           (Some (mkReplaySubject (rs_buffer dest) false
                    (rs_observers dest ++ [k])))
           (connection sh) (S (refCount sh)) (hasCompleted sh)
           (subscribers sh ++ [replayed]) in
  if negb (connection sh1) && (0 <? refCount sh1)
  then
    let sh2 :=
      pipeline_trigger m
        (mkShared (sh_name sh1) (sh_buffer sh1) (subject sh1) true
           (refCount sh1) (hasCompleted sh1) (subscribers sh1)) in
    if isStopped notifier then (notifier, connection_complete sh2)
    else (mkSubject false (observers notifier ++ [i]), sh2)
  else (notifier, sh1).

Definition subscribe (o : Observable) (s : Service)
  : option Subscription * Service :=
  match derived s !! source o with
  | Some sh =>
      let '(notifier, sh') :=
        Shared_subscribe (hash_stateValue s) (distinct o) (source o)
          (hash_stateValueUpdated s) sh in
      (Some (source o, length (subscribers sh)),
       mkService (hash_stateValue s) notifier (<[source o := sh']> (derived s)))
  | None => (None, s)
  end.

(** [subscription.unsubscribe()] on an open subscriber: the [share]
    finalizer ([refCount--], and [resetAndUnsubscribe] when it reaches zero
    before completion), then removal from [dest.observers]. *)
Definition Shared_unsubscribe (i k : nat) (notifier : Subject) (sh : Shared)
  : Subject * Shared :=
  match subscribers sh !! k with
  | Some sub =>
      if closed sub then (notifier, sh)
      else
        let subs' := <[k := Subscriber_close sub]> (subscribers sh) in
        let rc := pred (refCount sh) in
        if (rc =? 0) && negb (hasCompleted sh)
        then ((if connection sh
               then mkSubject (isStopped notifier) (arrRemove i (observers notifier))
               else notifier),
              mkShared (sh_name sh) (sh_buffer sh) None false rc false subs')
        else (notifier,
              mkShared (sh_name sh) (sh_buffer sh)
                ((λ rs, mkReplaySubject (rs_buffer rs) (rs_isStopped rs)
                          (arrRemove k (rs_observers rs)))
                   <$> subject sh)
                (connection sh) rc (hasCompleted sh) subs')
  | None => (notifier, sh)
  end.

Definition unsubscribe (sub : Subscription) (s : Service) : Service :=
  match derived s !! sub.1 with
  | Some sh =>
      let '(notifier, sh') :=
        Shared_unsubscribe sub.1 sub.2 (hash_stateValueUpdated s) sh in
      mkService (hash_stateValue s) notifier (<[sub.1 := sh']> (derived s))
  | None => s
  end.

(** What the observer behind a subscription has been sent so far. *)
Definition received_by (sub : Subscription) (s : Service) : list Notification :=
  match derived s !! sub.1 with
  | Some sh => from_option received [] (subscribers sh !! sub.2)
  | None => []
  end.

(** The values among the notifications. *)
Definition emissions (l : list Notification) : list JsVal :=
  omap (λ n, match n with Next v => Some v | Complete => None end) l.

(** ** Histories *)

(** The calls a subclass and its consumers can make on the service. *)
Inductive Call : Type :=
  | call_stateValue (name : string) (value : JsVal)
  | call_stateValueOnce (name : string)
  | call_stateValue_dollar (name : string) (opts : option IStateOpts)
  | call_stateValueDistinct_dollar (name : string)
      (opts : option IStateOptsWithDistinct)
  | call_hasStateValue (name : string)
  | call_removeStateValue (name : string)
  | call_clearStateValues
  | call_subscribe (o : Observable)
  | call_unsubscribe (sub : Subscription)
  | call_onDestroy.

Definition exec (s : Service) (c : Call) : Service :=
  match c with
  | call_stateValue name value => snd (stateValue name value s)
  | call_stateValueOnce _ => s
  | call_stateValue_dollar name opts => snd (stateValue_dollar name opts s)
  | call_stateValueDistinct_dollar name opts =>
      snd (stateValueDistinct_dollar name opts s)
  | call_hasStateValue _ => s
  | call_removeStateValue name => removeStateValue name s
  | call_clearStateValues => clearStateValues s
  | call_subscribe o => snd (subscribe o s)
  | call_unsubscribe sub => unsubscribe sub s
  | call_onDestroy => onDestroy s
  end.

Definition run (cs : list Call) (s : Service) : Service := foldl exec s cs.

(** ** The shape of a stream and the well-formedness of a service *)

(** What the bookkeeping of [share] and of the subjects depends on: it
    ignores names, buffers and what subscribers were sent. *)
Record Skeleton : Type := mkSkel {
  k_connection : bool;
  k_subject : option (bool * list nat);
  k_refCount : nat;
  k_hasCompleted : bool;
  k_closed : list bool
}.

Definition skel (sh : Shared) : Skeleton :=
  mkSkel (connection sh)
    ((λ rs, (rs_isStopped rs, rs_observers rs)) <$> subject sh)
    (refCount sh) (hasCompleted sh) (closed <$> subscribers sh).

(** A stream is live when its connection sits in the notifier's observers. *)
Definition live (sk : Skeleton) : bool :=
  k_connection sk && negb (k_hasCompleted sk).

Definition Skel_wf (sk : Skeleton) : Prop :=
  match k_subject sk with
  | Some (stopped, obs) =>
      k_connection sk = true ∧ stopped = k_hasCompleted sk ∧ NoDup obs
      ∧ k_refCount sk = length obs
      ∧ (stopped = true → obs = [])
      ∧ (∀ k, k ∈ obs ↔ k_closed sk !! k = Some false)
  | None =>
      k_connection sk = false ∧ k_hasCompleted sk = false
      ∧ k_refCount sk = 0
      ∧ (∀ k, k_closed sk !! k ≠ Some false)
  end.

Definition Wf (n : Subject) (K : list Skeleton) : Prop :=
  Forall Skel_wf K
  ∧ NoDup (observers n)
  ∧ (∀ i, i ∈ observers n ↔ ∃ sk, K !! i = Some sk ∧ live sk = true)
  ∧ (isStopped n = false → Forall (λ sk, k_hasCompleted sk = false) K)
  ∧ (isStopped n = true → observers n = []).

Definition Service_wf (s : Service) : Prop :=
  Wf (hash_stateValueUpdated s) (skel <$> derived s).

(** The shape after [connection.complete()]. *)
Definition skel_complete (sk : Skeleton) : Skeleton :=
  match k_subject sk with
  | Some (true, _) =>
      mkSkel (k_connection sk) (k_subject sk) (k_refCount sk) true (k_closed sk)
  | Some (false, obs) =>
      mkSkel (k_connection sk) (Some (true, [])) (k_refCount sk - length obs)
        true (foldl (λ acc k, alter (λ _, true) k acc) (k_closed sk) obs)
  | None => mkSkel (k_connection sk) None (k_refCount sk) true (k_closed sk)
  end.

(** ** Kinds of calls *)

(** A call that may store a value under [name]: a write of a defined value,
    or a stream request carrying a defined [initialValue]. *)
Definition writes (name : string) (c : Call) : bool :=
  match c with
  | call_stateValue n v => String.eqb n name && negb (is_undefined v)
  | call_stateValue_dollar n opts =>
      String.eqb n name && negb (is_undefined (opts_initialValue opts))
  | call_stateValueDistinct_dollar n opts =>
      String.eqb n name
      && negb (is_undefined (opts_initialValue (base_opts <$> opts)))
  | _ => false
  end.

Definition is_teardown (c : Call) : bool :=
  match c with call_onDestroy => true | _ => false end.

Definition detaches (sub : Subscription) (c : Call) : bool :=
  match c with
  | call_unsubscribe sub' => bool_decide (sub' = sub)
  | _ => false
  end.

(** Calls during which the subscriber [sub] of a stream for [name] stays
    attached and nothing is stored under [name]. *)
Definition silent_for (name : string) (sub : Subscription) (c : Call) : bool :=
  negb (writes name c) && negb (is_teardown c) && negb (detaches sub c).

(** Calls that neither store nor remove a value under [name] and do not
    tear the service down. *)
Definition keeps (name : string) (c : Call) : bool :=
  match c with
  | call_removeStateValue n => negb (String.eqb n name)
  | call_clearStateValues => false
  | call_onDestroy => false
  | call_stateValue n v => negb (String.eqb n name && negb (is_undefined v))
  | _ => true
  end.

(** ** Predicates on states *)

(** The subscriber behind [sub] is the record [x], on a stream for [name]. *)
Definition holds_subscriber (name : string) (sub : Subscription)
    (x : Subscriber) (s : Service) : Prop :=
  ∃ sh, derived s !! sub.1 = Some sh ∧ sh_name sh = name
        ∧ subscribers sh !! sub.2 = Some x.

(** The service is alive, the slot [name] is absent, and [sub] is [x]. *)
Definition Silent (name : string) (sub : Subscription) (x : Subscriber)
    (s : Service) : Prop :=
  isStopped (hash_stateValueUpdated s) = false
  ∧ hash_stateValue s !! name = None
  ∧ holds_subscriber name sub x s.

(** The service is alive, the slot [name] holds [v], and the subject of
    every stream for [name] with a buffer of one holds exactly [v]. *)
Definition Holds (name : string) (v : JsVal) (s : Service) : Prop :=
  isStopped (hash_stateValueUpdated s) = false
  ∧ hash_stateValue s !! name = Some v
  ∧ ∀ i sh rs, derived s !! i = Some sh → sh_name sh = name →
      Shared_bufferSize sh = 1%Z → subject sh = Some rs → rs_buffer rs = [v].

(** The memory of [distinctUntilChanged] is the value last delivered. *)
Definition Memory_ok (x : Subscriber) : Prop :=
  previousKey x = last (emissions (received x)).

Definition Shared_memory (sh : Shared) : Prop :=
  Forall Memory_ok (subscribers sh).

Definition Service_memory (s : Service) : Prop :=
  Forall Shared_memory (derived s).

(** The replay buffer of a stream holds no more than its [_bufferSize]. *)
Definition Shared_buffer_ok (sh : Shared) : Prop :=
  ∀ rs, subject sh = Some rs →
        length (rs_buffer rs) ≤ Z.to_nat (Shared_bufferSize sh).

(** No two neighbours of the list are equal for the comparator. *)
Fixpoint no_repeat (cmp : Comparator) (l : list JsVal) : Prop :=
  match l with
  | a :: t => match t with
              | b :: _ => cmp a b = false ∧ no_repeat cmp t
              | [] => True
              end
  | [] => True
  end.

(** What [distinctUntilChanged] maintains for one subscriber. *)
Definition Distinct_ok (x : Subscriber) : Prop :=
  Memory_ok x
  ∧ ∀ cmp, comparator x = Some cmp → no_repeat cmp (emissions (received x)).

(** The subscriber has not been sent completion. *)
Definition Not_completed (x : Subscriber) : Prop := Complete ∉ received x.

(** * Proofs *)

(** ** A scenario *)

Example scenario_count :
  let s := snd (stateValue "count" (JNum 0) Service_new) in
  let s := snd (stateValue_dollar "count" None s) in
  let s := snd (subscribe (mkObservable 0 None) s) in
  let a0 := received_by (0, 0) s in
  let s := snd (stateValue "count" (JNum 1) s) in
  let s := snd (stateValue_dollar "count" None s) in
  let s := snd (subscribe (mkObservable 1 None) s) in
  let b0 := received_by (1, 0) s in
  let s := removeStateValue "count" s in
  let h := hasStateValue "count" s in
  let s := snd (stateValue "count" (JNum 2) s) in
  (a0, b0, h, received_by (0, 0) s, received_by (1, 0) s)
  = ([Next (JNum 0)], [Next (JNum 1)], false,
     [Next (JNum 0); Next (JNum 1); Next (JNum 2)],
     [Next (JNum 1); Next (JNum 2)]).
Proof. vm_compute. reflexivity. Qed.


(** ** Folding [alter] over a list of indices *)

Section foldl_alter.
Context {A : Type} (f : A → A).

Lemma foldl_alter_length (l : list nat) (D : list A) :
  length (foldl (λ acc j, alter f j acc) D l) = length D.
Proof.
  revert D. induction l as [|j l IH]; intros D; simpl; [done|].
  by rewrite IH, length_alter.
Qed.

Lemma foldl_alter_lookup_notin (l : list nat) (D : list A) (i : nat) :
  i ∉ l → foldl (λ acc j, alter f j acc) D l !! i = D !! i.
Proof.
  revert D. induction l as [|j l IH]; intros D Hi; simpl; [done|].
  apply not_elem_of_cons in Hi as [Hij Hi].
  rewrite IH by done. by apply list_lookup_alter_ne.
Qed.

Lemma foldl_alter_lookup_in (l : list nat) (D : list A) (i : nat) :
  NoDup l → i ∈ l → foldl (λ acc j, alter f j acc) D l !! i = f <$> D !! i.
Proof.
  revert D. induction l as [|j l IH]; intros D Hnd Hi; simpl.
  - by apply elem_of_nil in Hi.
  - apply NoDup_cons in Hnd as [Hj Hnd].
    apply elem_of_cons in Hi as [->|Hi].
    + rewrite foldl_alter_lookup_notin by done. apply list_lookup_alter_eq.
    + rewrite IH by done. rewrite list_lookup_alter_ne; [done|].
      intros ->. done.
Qed.

Lemma foldl_alter_fmap {B : Type} (g : A → B) (l : list nat) (D : list A) :
  (∀ x, g (f x) = g x) → g <$> foldl (λ acc j, alter f j acc) D l = g <$> D.
Proof.
  intros Hg. revert D. induction l as [|j l IH]; intros D; simpl; [done|].
  rewrite IH. apply list_eq; intros i. rewrite !list_lookup_fmap.
  rewrite list_lookup_alter. case_decide; [subst|done].
  destruct (D !! i); simpl; by rewrite ?Hg.
Qed.
End foldl_alter.

(** ** [arrRemove] *)

Lemma arrRemove_notin (x : nat) (l : list nat) : x ∉ l → arrRemove x l = l.
Proof.
  induction l as [|y l IH]; intros Hx; simpl; [done|].
  apply not_elem_of_cons in Hx as [Hxy Hx].
  rewrite decide_False by done. by rewrite IH.
Qed.

Lemma elem_of_arrRemove (x j : nat) (l : list nat) :
  NoDup l → j ∈ arrRemove x l ↔ j ∈ l ∧ j ≠ x.
Proof.
  induction l as [|y l IH]; intros Hnd; simpl.
  - split; [by intros ?%elem_of_nil | by intros [?%elem_of_nil _]].
  - apply NoDup_cons in Hnd as [Hy Hnd]. case_decide as Hxy.
    + subst y. rewrite elem_of_cons. split.
      * intros Hj. split; [by right|]. by intros ->.
      * intros [[->|Hj] Hne]; done.
    + rewrite !elem_of_cons, IH by done. split.
      * intros [->|[Hj Hne]]; [split; [by left | congruence] | split; [by right | done]].
      * intros [[->|Hj] Hne]; [by left | by right].
Qed.

Lemma NoDup_arrRemove (x : nat) (l : list nat) : NoDup l → NoDup (arrRemove x l).
Proof.
  induction l as [|y l IH]; intros Hnd; simpl; [done|].
  pose proof Hnd as Hnd'. apply NoDup_cons in Hnd as [Hy Hnd]. case_decide; [done|].
  apply NoDup_cons. split; [|by apply IH].
  rewrite elem_of_arrRemove by done. by intros [? _].
Qed.

Lemma length_arrRemove (x : nat) (l : list nat) :
  x ∈ l → length (arrRemove x l) = pred (length l).
Proof.
  induction l as [|y l IH]; intros Hx; simpl.
  - by apply elem_of_nil in Hx.
  - case_decide as Hxy; [done|].
    apply elem_of_cons in Hx as [->|Hx]; [done|].
    simpl. rewrite IH by done. destruct l; [by apply elem_of_nil in Hx | done].
Qed.


Lemma Wf_update_same (n : Subject) (K : list Skeleton) (i : nat)
    (sk sk' : Skeleton) :
  Wf n K → K !! i = Some sk → Skel_wf sk' → live sk' = live sk →
  (isStopped n = false → k_hasCompleted sk' = false) →
  Wf n (<[i:=sk']> K).
Proof.
  intros (HK & Hnd & Hobs & Hopen & Hstop) Hi Hsk' Hlive Hc.
  assert (i < length K) by (by eapply lookup_lt_Some).
  refine (conj _ (conj Hnd (conj _ (conj _ Hstop)))).
  - by apply Forall_insert.
  - intros j. rewrite Hobs. split; intros (x & Hx & Hl).
    + destruct (decide (i = j)) as [->|Hne].
      * exists sk'. rewrite list_lookup_insert_eq by done. split; [done|]. congruence.
      * exists x. by rewrite list_lookup_insert_ne.
    + destruct (decide (i = j)) as [->|Hne].
      * rewrite list_lookup_insert_eq in Hx by done. exists sk. split; [done|]. congruence.
      * rewrite list_lookup_insert_ne in Hx by done. by exists x.
  - intros Hn. apply Forall_insert; auto.
Qed.

Lemma Wf_update_connect (n : Subject) (K : list Skeleton) (i : nat)
    (sk sk' : Skeleton) :
  Wf n K → K !! i = Some sk → isStopped n = false → Skel_wf sk' →
  live sk = false → live sk' = true →
  Wf (mkSubject false (observers n ++ [i])) (<[i:=sk']> K).
Proof.
  intros (HK & Hnd & Hobs & Hopen & Hstop) Hi Hn Hsk' Hl Hl'.
  assert (i < length K) by (by eapply lookup_lt_Some).
  assert (i ∉ observers n) as Hni.
  { rewrite Hobs. intros (x & Hx & Hlx). congruence. }
  refine (conj _ (conj _ (conj _ (conj _ _)))); simpl; [| | | |done].
  - by apply Forall_insert.
  - apply NoDup_app. split_and!; [done| |apply NoDup_singleton].
    intros x Hx ->%list_elem_of_singleton. done.
  - intros j. rewrite elem_of_app, list_elem_of_singleton. split.
    + intros [Hj| ->].
      * assert (i ≠ j) by (by intros ->).
        apply Hobs in Hj as (x & Hx & Hlx). exists x.
        by rewrite list_lookup_insert_ne.
      * exists sk'. by rewrite list_lookup_insert_eq.
    + intros (x & Hx & Hlx).
      destruct (decide (i = j)) as [->|Hne]; [by right|left].
      rewrite list_lookup_insert_ne in Hx by done. apply Hobs. by exists x.
  - intros _. apply Forall_insert; [by apply Hopen|].
    unfold live in Hl'. apply andb_true_iff in Hl' as [_ Hl'].
    by apply negb_true_iff in Hl'.
Qed.

Lemma Wf_update_disconnect (n : Subject) (K : list Skeleton) (i : nat)
    (sk sk' : Skeleton) :
  Wf n K → K !! i = Some sk → Skel_wf sk' →
  live sk' = false → k_hasCompleted sk' = false →
  Wf (mkSubject (isStopped n) (arrRemove i (observers n))) (<[i:=sk']> K).
Proof.
  intros (HK & Hnd & Hobs & Hopen & Hstop) Hi Hsk' Hl' Hc.
  assert (i < length K) by (by eapply lookup_lt_Some).
  refine (conj _ (conj _ (conj _ (conj _ _)))); simpl.
  - by apply Forall_insert.
  - by apply NoDup_arrRemove.
  - intros j. rewrite elem_of_arrRemove by done. split.
    + intros [Hj Hne].
      apply Hobs in Hj as (x & Hx & Hlx). exists x.
      by rewrite list_lookup_insert_ne.
    + intros (x & Hx & Hlx).
      destruct (decide (i = j)) as [->|Hne].
      * rewrite list_lookup_insert_eq in Hx by done. congruence.
      * rewrite list_lookup_insert_ne in Hx by done. split; [|done].
        apply Hobs. by exists x.
  - intros Hn. apply Forall_insert; auto.
  - intros Hn. by rewrite (Hstop Hn).
Qed.

Lemma Wf_snoc (n : Subject) (K : list Skeleton) (sk : Skeleton) :
  Wf n K → Skel_wf sk → live sk = false → k_hasCompleted sk = false →
  Wf n (K ++ [sk]).
Proof.
  intros (HK & Hnd & Hobs & Hopen & Hstop) Hsk Hl Hc.
  refine (conj _ (conj Hnd (conj _ (conj _ Hstop)))).
  - apply Forall_app. split; [done|]. by apply Forall_singleton.
  - intros j. split.
    + intros Hj. apply Hobs in Hj as (x & Hx & Hlx). exists x. split; [|done].
      rewrite lookup_app_l; [done|]. by eapply lookup_lt_Some.
    + intros (x & Hx & Hlx). apply Hobs.
      destruct (decide (j < length K)) as [Hlt|Hge].
      * rewrite lookup_app_l in Hx by done. by exists x.
      * rewrite lookup_app_r in Hx by lia.
        destruct (j - length K) as [|m]; simpl in Hx; [|done].
        congruence.
  - intros Hn. apply Forall_app. split; [auto|]. by apply Forall_singleton.
Qed.

Lemma Service_new_wf : Service_wf Service_new.
Proof.
  refine (conj _ (conj _ (conj _ (conj _ _)))); simpl; try done.
  - apply NoDup_nil_2.
  - intros j. split; [by intros ?%elem_of_nil | by intros (x & Hx & _)].
Qed.

(** ** Notifications leave the shape alone *)

Lemma closed_Subscriber_next (v : JsVal) (sub : Subscriber) :
  closed (Subscriber_next v sub) = closed sub.
Proof.
  unfold Subscriber_next. destruct (closed sub) eqn:Hc; [done|].
  destruct (comparator sub), (previousKey sub); simpl; try done.
  by destruct (c j v).
Qed.

Lemma closed_replay (l : list JsVal) (sub : Subscriber) :
  closed (foldl (λ sub v, Subscriber_next v sub) sub l) = closed sub.
Proof.
  revert sub. induction l as [|v l IH]; intros sub; simpl; [done|].
  by rewrite IH, closed_Subscriber_next.
Qed.

Lemma closed_Subscriber_complete (sub : Subscriber) :
  closed (Subscriber_complete sub) = true.
Proof. unfold Subscriber_complete. by destruct (closed sub) eqn:Hc. Qed.

Lemma closed_deliver (v : JsVal) (obs : list nat) (subs : list Subscriber) :
  closed <$> deliver v obs subs = closed <$> subs.
Proof. apply foldl_alter_fmap. apply closed_Subscriber_next. Qed.

Lemma skel_connection_next (v : JsVal) (sh : Shared) :
  skel (connection_next v sh) = skel sh.
Proof.
  unfold connection_next, skel. destruct (subject sh) as [rs|] eqn:Hs; simpl.
  - destruct (rs_isStopped rs) eqn:Hst; simpl; rewrite ?Hs; simpl;
      by rewrite ?Hst, ?closed_deliver.
  - by rewrite Hs.
Qed.

Lemma skel_pipeline_trigger (m : gmap string JsVal) (sh : Shared) :
  skel (pipeline_trigger m sh) = skel sh.
Proof.
  unfold pipeline_trigger. destruct (Map_has m (sh_name sh)); [|done].
  apply skel_connection_next.
Qed.

Lemma skel_pipeline_next (m : gmap string JsVal) (n : string) (sh : Shared) :
  skel (pipeline_next m n sh) = skel sh.
Proof.
  unfold pipeline_next. destruct (String.eqb n (sh_name sh)); [|done].
  apply skel_pipeline_trigger.
Qed.

Lemma Subject_next_notifier (name : string) (s : Service) :
  hash_stateValueUpdated (Subject_next name s) = hash_stateValueUpdated s.
Proof. unfold Subject_next. by destruct (isStopped _). Qed.

Lemma Subject_next_store (name : string) (s : Service) :
  hash_stateValue (Subject_next name s) = hash_stateValue s.
Proof. unfold Subject_next. by destruct (isStopped _). Qed.

Lemma Subject_next_skel (name : string) (s : Service) :
  skel <$> derived (Subject_next name s) = skel <$> derived s.
Proof.
  unfold Subject_next. destruct (isStopped _); [done|]. simpl.
  apply foldl_alter_fmap. apply skel_pipeline_next.
Qed.

Lemma Subject_next_length (name : string) (s : Service) :
  length (derived (Subject_next name s)) = length (derived s).
Proof.
  rewrite <- (length_fmap skel (derived (Subject_next name s))).
  by rewrite Subject_next_skel, length_fmap.
Qed.

(** ** Every call preserves well-formedness *)

Lemma stateValue_wf (name : string) (value : JsVal) (s : Service) :
  Service_wf s → Service_wf (snd (stateValue name value s)).
Proof.
  unfold stateValue, Service_wf. destruct (is_undefined value); [done|]. simpl.
  by rewrite Subject_next_notifier, Subject_next_skel.
Qed.

Lemma stateValue_dollar_wf (name : string) (opts : option IStateOpts)
    (s : Service) :
  Service_wf s → Service_wf (snd (stateValue_dollar name opts s)).
Proof.
  intros Hwf. unfold stateValue_dollar. cbv zeta.
  destruct (negb _ && negb _);
    (destruct (truthy _); simpl; [|by auto using stateValue_wf]);
    unfold Service_wf; simpl; rewrite fmap_app;
    apply Wf_snoc; try done.
  by apply stateValue_wf.
Qed.

Lemma stateValueDistinct_dollar_state (name : string)
    (opts : option IStateOptsWithDistinct) (s : Service) :
  snd (stateValueDistinct_dollar name opts s)
  = snd (stateValue_dollar name (base_opts <$> opts) s).
Proof.
  unfold stateValueDistinct_dollar.
  by destruct (stateValue_dollar _ _ _) as [[e|o] s'].
Qed.

Lemma removeStateValue_wf (name : string) (s : Service) :
  Service_wf s → Service_wf (removeStateValue name s).
Proof. done. Qed.

Lemma clearStateValues_wf (s : Service) :
  Service_wf s → Service_wf (clearStateValues s).
Proof. done. Qed.
Lemma closed_deliver_complete (obs : list nat) (subs : list Subscriber) :
  closed <$> deliver_complete obs subs
  = foldl (λ acc k, alter (λ _, true) k acc) (closed <$> subs) obs.
Proof.
  unfold deliver_complete. revert subs.
  induction obs as [|k obs IH]; intros subs; simpl; [done|].
  rewrite IH. f_equal. apply list_fmap_alter.
  apply Forall_forall. intros x _. apply closed_Subscriber_complete.
Qed.


Lemma skel_connection_complete (sh : Shared) :
  skel (connection_complete sh) = skel_complete (skel sh).
Proof.
  unfold connection_complete, skel_complete, skel.
  destruct (subject sh) as [rs|] eqn:Hs; simpl; [|by rewrite ?Hs].
  destruct (rs_isStopped rs) eqn:Hst; simpl; rewrite ?Hs; simpl;
    by rewrite ?Hst, ?closed_deliver_complete.
Qed.

Lemma live_skel_complete (sk : Skeleton) : live (skel_complete sk) = false.
Proof.
  unfold skel_complete, live.
  destruct (k_subject sk) as [[[] obs]|]; simpl; apply andb_false_r.
Qed.

Lemma skel_complete_wf (sk : Skeleton) :
  Skel_wf sk → is_Some (k_subject sk) → Skel_wf (skel_complete sk).
Proof.
  unfold Skel_wf, skel_complete. intros Hwf [[st obs] Hs]. rewrite Hs in *.
  destruct Hwf as (Hc & Hst & Hnd & Hrc & Hempty & Hobs).
  destruct st; simpl; rewrite ?Hs; simpl.
  - split_and!; try done.
  - split_and!; try done.
    + apply NoDup_nil_2.
    + rewrite Hrc. simpl. lia.
    + intros k. split; [by intros ?%elem_of_nil|]. intros Hk. exfalso.
      destruct (decide (k ∈ obs)) as [Hin|Hin].
      * rewrite foldl_alter_lookup_in in Hk by done.
        destruct (k_closed sk !! k); simplify_eq/=.
      * rewrite foldl_alter_lookup_notin in Hk by done. by apply Hin, Hobs.
Qed.
Lemma lookup_snoc_false (l : list bool) (b : bool) (k : nat) :
  (l ++ [b]) !! k = Some false ↔ l !! k = Some false ∨ (k = length l ∧ b = false).
Proof.
  destruct (decide (k < length l)) as [Hlt|Hge].
  - rewrite lookup_app_l by done. split; [by left|]. intros [?|[? _]]; [done|lia].
  - rewrite lookup_app_r by lia. rewrite (lookup_ge_None_2 l k) by lia.
    destruct (k - length l) as [|m] eqn:Hm; simpl.
    + split; [intros [= ->]; right; split; [lia|done]|].
      intros [?|[_ ->]]; done.
    + split; [done|]. intros [?|[? _]]; [done|lia].
Qed.

Lemma Wf_open_not_completed (n : Subject) (K : list Skeleton) (i : nat)
    (sk : Skeleton) :
  Wf n K → K !! i = Some sk → isStopped n = false → k_hasCompleted sk = false.
Proof.
  intros (_ & _ & _ & Hopen & _) Hi Hn. specialize (Hopen Hn).
  rewrite Forall_forall in Hopen. apply Hopen, list_elem_of_lookup. eauto.
Qed.

Lemma Wf_lookup (n : Subject) (K : list Skeleton) (i : nat) (sk : Skeleton) :
  Wf n K → K !! i = Some sk → Skel_wf sk.
Proof.
  intros (HK & _) Hi. rewrite Forall_forall in HK.
  apply HK, list_elem_of_lookup. eauto.
Qed.

Lemma subscribe_wf (o : Observable) (s : Service) :
  Service_wf s → Service_wf (snd (subscribe o s)).
Proof.
  intros Hwf. unfold subscribe.
  destruct (derived s !! source o) as [sh|] eqn:Hi; [|done].
  destruct (Shared_subscribe _ _ _ _ _) as [n' sh'] eqn:Hsub. simpl.
  unfold Service_wf in *. simpl. rewrite list_fmap_insert.
  assert ((skel <$> derived s) !! source o = Some (skel sh)) as Hk
    by (by rewrite list_lookup_fmap, Hi).
  pose proof (Wf_lookup _ _ _ _ Hwf Hk) as Hsk.
  pose proof (Wf_open_not_completed _ _ _ _ Hwf Hk) as Hopen.
  unfold Shared_subscribe in Hsub. cbv zeta in Hsub.
  unfold Skel_wf in Hsk. simpl in Hsk, Hopen.
  destruct (subject sh) as [rs|] eqn:Hs; simpl in Hsk, Hsub.
  - destruct Hsk as (Hc & Hst & Hnd & Hrc & Hempty & Hobs).
    destruct (rs_isStopped rs) eqn:Hstop; simpl in Hsub; rewrite Hc in Hsub;
      simpl in Hsub; simplify_eq.
    + eapply Wf_update_same;
        [done..| |by unfold live; simpl; rewrite Hc|done].
      unfold Skel_wf, skel; simpl.
      split_and!; try done; [congruence|auto|]. intros k.
      rewrite Hobs, fmap_snoc, lookup_snoc_false.
      rewrite closed_Subscriber_complete. intuition congruence.
    + eapply Wf_update_same; [done..| |by unfold live; simpl; rewrite Hc|done].
      unfold Skel_wf, skel; simpl.
      assert (length (subscribers sh) ∉ rs_observers rs) as Hfresh.
      { intros Hin%Hobs. apply lookup_lt_Some in Hin.
        rewrite length_fmap in Hin. lia. }
      split_and!; try done.
      * apply NoDup_app. split_and!; [done| |apply NoDup_singleton].
        by intros x Hx ->%list_elem_of_singleton.
      * rewrite length_app. simpl. lia.
      * intros k. rewrite elem_of_app, list_elem_of_singleton, Hobs.
        rewrite fmap_snoc, lookup_snoc_false.
        rewrite closed_replay, length_fmap. simpl. intuition congruence.
  - destruct Hsk as (Hc & Hhc & Hrc & Hclosed).
    rewrite Hc, Hrc in Hsub. simpl in Hsub.
    assert (Skel_wf (mkSkel true (Some (false, [length (subscribers sh)])) 1
                       false ((closed <$> subscribers sh) ++ [false]))) as Hmid.
    { unfold Skel_wf; simpl. split_and!; try done.
      - apply NoDup_singleton.
      - intros k. rewrite list_elem_of_singleton, lookup_snoc_false.
        rewrite length_fmap. specialize (Hclosed k). intuition congruence. }
    destruct (isStopped (hash_stateValueUpdated s)) eqn:Hn; simplify_eq.
    + rewrite skel_connection_complete, skel_pipeline_trigger.
      eapply Wf_update_same; [done..| | |congruence].
      * apply skel_complete_wf; unfold skel; simpl; [|by eauto].
        by rewrite Hhc, fmap_snoc.
      * rewrite live_skel_complete. unfold live; simpl. by rewrite Hc.
    + rewrite skel_pipeline_trigger.
      destruct (hash_stateValueUpdated s) as [st obsn] eqn:Hnot.
      simpl in *. subst st.
      change obsn with (observers (mkSubject false obsn)) at 1.
      eapply Wf_update_connect; try done.
      * unfold skel; simpl. by rewrite Hhc, fmap_snoc.
      * unfold live; simpl. by rewrite Hc.
      * unfold live, skel; simpl. by rewrite Hhc.
Qed.
Lemma unsubscribe_wf (sub : Subscription) (s : Service) :
  Service_wf s → Service_wf (unsubscribe sub s).
Proof.
  intros Hwf. unfold unsubscribe. destruct sub as [i k]. simpl.
  destruct (derived s !! i) as [sh|] eqn:Hi; [|done].
  destruct (Shared_unsubscribe _ _ _ _) as [n' sh'] eqn:Hun.
  unfold Service_wf in *. simpl. rewrite list_fmap_insert.
  assert ((skel <$> derived s) !! i = Some (skel sh)) as Hk
    by (by rewrite list_lookup_fmap, Hi).
  pose proof (Wf_lookup _ _ _ _ Hwf Hk) as Hsk.
  unfold Shared_unsubscribe in Hun.
  destruct (subscribers sh !! k) as [x|] eqn:Hx;
    [|simplify_eq; rewrite list_insert_id; done].
  destruct (closed x) eqn:Hcx; [simplify_eq; rewrite list_insert_id; done|].
  assert ((closed <$> subscribers sh) !! k = Some false) as Hck
    by (by rewrite list_lookup_fmap, Hx; simpl; rewrite Hcx).
  unfold Skel_wf in Hsk. simpl in Hsk.
  destruct (subject sh) as [rs|] eqn:Hs; simpl in Hsk;
    [|by destruct Hsk as (_ & _ & _ & Hcl); destruct (Hcl k)].
  destruct Hsk as (Hc & Hst & Hnd & Hrc & Hempty & Hobs).
  pose proof (proj2 (Hobs k) Hck) as Hin.
  destruct (rs_isStopped rs) eqn:Hstop.
  { rewrite Hempty in Hin by done. by apply elem_of_nil in Hin. }
  rewrite <- Hst, Hc, Hrc in Hun. simpl in Hun. rewrite andb_true_r in Hun.
  assert (closed <$> <[k:=Subscriber_close x]> (subscribers sh)
          = <[k:=true]> (closed <$> subscribers sh)) as Hcl'
    by (by rewrite list_fmap_insert).
  destruct (pred (length (rs_observers rs)) =? 0) eqn:Hz; simplify_eq.
  - apply Nat.eqb_eq in Hz.
    assert (rs_observers rs = [k]) as Hone.
    { destruct (rs_observers rs) as [|y [|z l]]; simpl in Hz; try lia.
      - by apply elem_of_nil in Hin.
      - by apply list_elem_of_singleton in Hin as ->. }
    eapply Wf_update_disconnect; try done.
    unfold Skel_wf, skel; simpl. split_and!; try done.
    intros j. rewrite Hcl'. intros Hj.
    apply list_lookup_insert_Some in Hj as [(_ & ? & _)|[Hne Hj]]; [done|].
    apply Hobs in Hj. rewrite Hone in Hj.
    by apply list_elem_of_singleton in Hj.
  - apply Nat.eqb_neq in Hz.
    eapply Wf_update_same; try done.
    + unfold Skel_wf, skel; simpl. rewrite Hstop. split_and!; try done.
      * by apply NoDup_arrRemove.
      * by rewrite length_arrRemove.
      * intros j. rewrite Hcl', elem_of_arrRemove by done.
        rewrite list_lookup_insert_Some, Hobs. intuition congruence.
    + unfold live, skel; simpl. by rewrite Hc, <- Hst.
Qed.
Lemma foldl_alter_commute {A B : Type} (f : A → A) (h : B → B) (g : A → B)
    (l : list nat) (D : list A) :
  (∀ x, g (f x) = h (g x)) →
  g <$> foldl (λ acc j, alter f j acc) D l
  = foldl (λ acc j, alter h j acc) (g <$> D) l.
Proof.
  intros Hg. revert D. induction l as [|j l IH]; intros D; simpl; [done|].
  rewrite IH. f_equal. apply list_fmap_alter, Forall_forall. auto.
Qed.

Lemma live_subject (sk : Skeleton) :
  Skel_wf sk → live sk = true → is_Some (k_subject sk).
Proof.
  unfold Skel_wf, live. destruct (k_subject sk) as [[st obs]|]; [by eauto|].
  intros (Hc & _) Hl. rewrite Hc in Hl. done.
Qed.

Lemma Subject_complete_wf (s : Service) :
  Service_wf s → Service_wf (Subject_complete s).
Proof.
  intros Hwf. unfold Subject_complete.
  destruct (isStopped (hash_stateValueUpdated s)) eqn:Hn; [done|].
  unfold Service_wf in *. simpl.
  rewrite (foldl_alter_commute _ skel_complete) by apply skel_connection_complete.
  pose proof Hwf as (HK & Hnd & Hobs & Hopen & Hstop).
  set (K := skel <$> derived s) in *.
  set (obs := observers (hash_stateValueUpdated s)) in *.
  refine (conj _ (conj _ (conj _ (conj _ _)))); simpl; try done.
  - apply Forall_lookup. intros i sk' Hi.
    destruct (decide (i ∈ obs)) as [Hin|Hin].
    + rewrite foldl_alter_lookup_in in Hi by done.
      apply Hobs in Hin as (sk & Hsk & Hl). rewrite Hsk in Hi. simplify_eq/=.
      apply skel_complete_wf; [by eapply Wf_lookup|].
      apply live_subject; [by eapply Wf_lookup|done].
    + rewrite foldl_alter_lookup_notin in Hi by done. by eapply Wf_lookup.
  - apply NoDup_nil_2.
  - intros i. split; [by intros ?%elem_of_nil|]. intros (sk' & Hi & Hl). exfalso.
    destruct (decide (i ∈ obs)) as [Hin|Hin].
    + rewrite foldl_alter_lookup_in in Hi by done.
      destruct (K !! i) as [sk|]; simplify_eq/=.
      by rewrite live_skel_complete in Hl.
    + rewrite foldl_alter_lookup_notin in Hi by done. apply Hin, Hobs. eauto.
Qed.

Lemma onDestroy_wf (s : Service) : Service_wf s → Service_wf (onDestroy s).
Proof. intros Hwf. by apply clearStateValues_wf, Subject_complete_wf. Qed.

Lemma exec_wf (s : Service) (c : Call) : Service_wf s → Service_wf (exec s c).
Proof.
  intros Hwf. destruct c; simpl; try done.
  - by apply stateValue_wf.
  - by apply stateValue_dollar_wf.
  - rewrite stateValueDistinct_dollar_state. by apply stateValue_dollar_wf.
  - by apply subscribe_wf.
  - by apply unsubscribe_wf.
  - by apply onDestroy_wf.
Qed.

Lemma run_wf (cs : list Call) (s : Service) :
  Service_wf s → Service_wf (run cs s).
Proof.
  revert s. induction cs as [|c cs IH]; intros s Hwf; simpl; [done|].
  by apply IH, exec_wf.
Qed.

Lemma run_app (cs1 cs2 : list Call) (s : Service) :
  run (cs1 ++ cs2) s = run cs2 (run cs1 s).
Proof. apply foldl_app. Qed.
(** ** What a notification does to one stream *)

Lemma Subscriber_next_closed (v : JsVal) (sub : Subscriber) :
  closed sub = true → Subscriber_next v sub = sub.
Proof. unfold Subscriber_next. by intros ->. Qed.

Lemma Subscriber_complete_closed (sub : Subscriber) :
  closed sub = true → Subscriber_complete sub = sub.
Proof. unfold Subscriber_complete. by intros ->. Qed.

(** When the observers are exactly the open subscribers, handing something
    to every observer is a map over the whole table. *)
Lemma foldl_alter_open (f : Subscriber → Subscriber) (obs : list nat)
    (subs : list Subscriber) :
  (∀ x, closed x = true → f x = x) →
  NoDup obs →
  (∀ k, k ∈ obs ↔ (closed <$> subs) !! k = Some false) →
  foldl (λ acc k, alter f k acc) subs obs = f <$> subs.
Proof.
  intros Hf Hnd Hobs. apply list_eq; intros k. rewrite list_lookup_fmap.
  destruct (decide (k ∈ obs)) as [Hin|Hin].
  - by rewrite foldl_alter_lookup_in.
  - rewrite foldl_alter_lookup_notin by done.
    destruct (subs !! k) as [x|] eqn:Hx; [|done]. simpl. f_equal. symmetry.
    apply Hf. destruct (closed x) eqn:Hc; [done|]. exfalso. apply Hin, Hobs.
    by rewrite list_lookup_fmap, Hx; simpl; rewrite Hc.
Qed.

Lemma connection_next_wf (v : JsVal) (sh : Shared) (rs : ReplaySubject) :
  Skel_wf (skel sh) → subject sh = Some rs → rs_isStopped rs = false →
  connection_next v sh
  = mkShared (sh_name sh) (sh_buffer sh)
      (Some (mkReplaySubject
               (trimBuffer (Shared_bufferSize sh) (rs_buffer rs ++ [v]))
               false (rs_observers rs)))
      (connection sh) (refCount sh) (hasCompleted sh)
      (Subscriber_next v <$> subscribers sh).
Proof.
  intros Hwf Hs Hst. unfold connection_next. rewrite Hs, Hst. f_equal.
  unfold Skel_wf, skel in Hwf; simpl in Hwf. rewrite Hs in Hwf; simpl in Hwf.
  destruct Hwf as (_ & _ & Hnd & _ & _ & Hobs).
  apply foldl_alter_open; auto using Subscriber_next_closed.
Qed.

Lemma connection_complete_wf (sh : Shared) (rs : ReplaySubject) :
  Skel_wf (skel sh) → subject sh = Some rs → rs_isStopped rs = false →
  connection_complete sh
  = mkShared (sh_name sh) (sh_buffer sh)
      (Some (mkReplaySubject (rs_buffer rs) true []))
      (connection sh) (refCount sh - length (rs_observers rs)) true
      (Subscriber_complete <$> subscribers sh).
Proof.
  intros Hwf Hs Hst. unfold connection_complete. rewrite Hs, Hst. f_equal.
  unfold Skel_wf, skel in Hwf; simpl in Hwf. rewrite Hs in Hwf; simpl in Hwf.
  destruct Hwf as (_ & _ & Hnd & _ & _ & Hobs).
  apply foldl_alter_open; auto using Subscriber_complete_closed.
Qed.

(** A live stream of a well-formed service has an open subject. *)
Lemma live_open_subject (sh : Shared) :
  Skel_wf (skel sh) → live (skel sh) = true →
  ∃ rs, subject sh = Some rs ∧ rs_isStopped rs = false.
Proof.
  unfold Skel_wf, live, skel; simpl.
  destruct (subject sh) as [rs|]; simpl.
  - intros (_ & Hst & _) Hl. exists rs. split; [done|].
    apply andb_true_iff in Hl as [_ Hl]. apply negb_true_iff in Hl. congruence.
  - intros (Hc & _) Hl. rewrite Hc in Hl. done.
Qed.

Lemma Service_wf_lookup (s : Service) (i : nat) (sh : Shared) :
  Service_wf s → derived s !! i = Some sh → Skel_wf (skel sh).
Proof.
  intros Hwf Hi. eapply Wf_lookup; [done|]. by rewrite list_lookup_fmap, Hi.
Qed.

Lemma Service_wf_observers (s : Service) (i : nat) (sh : Shared) :
  Service_wf s → derived s !! i = Some sh →
  i ∈ observers (hash_stateValueUpdated s) ↔ live (skel sh) = true.
Proof.
  intros (_ & _ & Hobs & _) Hi. rewrite Hobs, list_lookup_fmap, Hi. simpl.
  split; [by intros (? & [= <-] & ?) | by eauto].
Qed.

(** The streams a call to [next(name)] reaches are the live ones. *)
Lemma Subject_next_lookup (name : string) (s : Service) (i : nat) (sh : Shared) :
  Service_wf s → derived s !! i = Some sh →
  derived (Subject_next name s) !! i
  = Some (if negb (isStopped (hash_stateValueUpdated s)) && live (skel sh)
          then pipeline_next (hash_stateValue s) name sh else sh).
Proof.
  intros Hwf Hi. unfold Subject_next.
  destruct (isStopped _) eqn:Hn; simpl; [done|].
  pose proof (Service_wf_observers s i sh Hwf Hi) as Hobs.
  destruct (live (skel sh)) eqn:Hl.
  - rewrite foldl_alter_lookup_in, Hi; [done|apply Hwf|by apply Hobs].
  - rewrite foldl_alter_lookup_notin; [done|].
    intros Hin%Hobs. done.
Qed.

Lemma Subject_complete_lookup (s : Service) (i : nat) (sh : Shared) :
  Service_wf s → derived s !! i = Some sh →
  derived (Subject_complete s) !! i
  = Some (if negb (isStopped (hash_stateValueUpdated s)) && live (skel sh)
          then connection_complete sh else sh).
Proof.
  intros Hwf Hi. unfold Subject_complete.
  destruct (isStopped _) eqn:Hn; simpl; [done|].
  pose proof (Service_wf_observers s i sh Hwf Hi) as Hobs.
  destruct (live (skel sh)) eqn:Hl.
  - rewrite foldl_alter_lookup_in, Hi; [done|apply Hwf|by apply Hobs].
  - rewrite foldl_alter_lookup_notin; [done|].
    intros Hin%Hobs. done.
Qed.
(** ** What a write does to one stream and to one subscriber *)

Lemma stateValue_write_lookup (name : string) (v : JsVal) (s : Service)
    (i : nat) (sh : Shared) :
  Service_wf s → is_undefined v = false → derived s !! i = Some sh →
  derived (snd (stateValue name v s)) !! i
  = Some (if negb (isStopped (hash_stateValueUpdated s)) && live (skel sh)
             && String.eqb name (sh_name sh)
          then connection_next v sh else sh).
Proof.
  intros Hwf Hv Hi. unfold stateValue. rewrite Hv. simpl.
  rewrite (Subject_next_lookup _ _ i sh); [|done|done]. simpl. f_equal.
  destruct (negb _ && live _); simpl; [|done].
  unfold pipeline_next. destruct (String.eqb name (sh_name sh)) eqn:Hn; [|done].
  apply String.eqb_eq in Hn.
  unfold pipeline_trigger, Map_has, Map_get. rewrite <- Hn, lookup_insert_eq.
  by rewrite bool_decide_eq_true_2 by eauto.
Qed.

Lemma stateValue_write_notifier (name : string) (v : JsVal) (s : Service) :
  hash_stateValueUpdated (snd (stateValue name v s)) = hash_stateValueUpdated s.
Proof.
  unfold stateValue. destruct (is_undefined v); [done|]. simpl.
  by rewrite Subject_next_notifier.
Qed.

Lemma stateValue_write_store (name : string) (v : JsVal) (s : Service) :
  hash_stateValue (snd (stateValue name v s))
  = if is_undefined v then hash_stateValue s
    else <[name := v]> (hash_stateValue s).
Proof.
  unfold stateValue. destruct (is_undefined v); [done|]. simpl.
  by rewrite Subject_next_store.
Qed.

Lemma stateValue_write_length (name : string) (v : JsVal) (s : Service) :
  length (derived (snd (stateValue name v s))) = length (derived s).
Proof.
  unfold stateValue. destruct (is_undefined v); [done|]. simpl.
  by rewrite Subject_next_length.
Qed.

(** An open subscriber sits on a live stream with an open subject. *)
Lemma open_subscriber_live (sh : Shared) (k : nat) (sub : Subscriber) :
  Skel_wf (skel sh) → subscribers sh !! k = Some sub → closed sub = false →
  live (skel sh) = true
  ∧ ∃ rs, subject sh = Some rs ∧ rs_isStopped rs = false ∧ k ∈ rs_observers rs.
Proof.
  intros Hwf Hk Hc.
  assert ((closed <$> subscribers sh) !! k = Some false) as Hck
    by (by rewrite list_lookup_fmap, Hk; simpl; rewrite Hc).
  unfold Skel_wf, live, skel in *; simpl in *.
  destruct (subject sh) as [rs|]; simpl in *.
  - destruct Hwf as (Hcn & Hst & Hnd & Hrc & Hempty & Hobs).
    apply Hobs in Hck. destruct (rs_isStopped rs) eqn:Hstop.
    + rewrite Hempty in Hck by done. by apply elem_of_nil in Hck.
    + rewrite Hcn, <- Hst. split; [done|]. by exists rs.
  - destruct Hwf as (_ & _ & _ & Hcl). by destruct (Hcl k).
Qed.

(** A write of a defined value reaches every open subscriber of every
    stream for that name, once. *)
Lemma stateValue_write_subscriber (name : string) (v : JsVal) (s : Service)
    (i k : nat) (sh : Shared) (sub : Subscriber) :
  Service_wf s → is_undefined v = false →
  isStopped (hash_stateValueUpdated s) = false →
  derived s !! i = Some sh → sh_name sh = name →
  subscribers sh !! k = Some sub → closed sub = false →
  ∃ sh', derived (snd (stateValue name v s)) !! i = Some sh'
         ∧ subscribers sh' !! k = Some (Subscriber_next v sub).
Proof.
  intros Hwf Hv Hn Hi Hname Hk Hc.
  pose proof (Service_wf_lookup s i sh Hwf Hi) as Hsk.
  destruct (open_subscriber_live sh k sub Hsk Hk Hc) as (Hl & rs & Hs & Hst & _).
  rewrite (stateValue_write_lookup name v s i sh) by done.
  rewrite Hn, Hl, <- Hname, String.eqb_refl. simpl.
  eexists. split; [done|].
  rewrite (connection_next_wf v sh rs) by done. simpl.
  by rewrite list_lookup_fmap, Hk.
Qed.

(** A write under another name leaves a stream alone. *)
Lemma stateValue_write_other (name : string) (v : JsVal) (s : Service)
    (i : nat) (sh : Shared) :
  Service_wf s → derived s !! i = Some sh →
  String.eqb name (sh_name sh) && negb (is_undefined v) = false →
  derived (snd (stateValue name v s)) !! i = Some sh.
Proof.
  intros Hwf Hi Hne. destruct (is_undefined v) eqn:Hv.
  - unfold stateValue. by rewrite Hv.
  - rewrite (stateValue_write_lookup name v s i sh) by done.
    rewrite andb_true_r in Hne. rewrite Hne. by rewrite andb_false_r.
Qed.
(** ** Calls that leave a subscriber alone *)

Lemma Shared_subscribe_stopped (m : gmap string JsVal) (cmp : option Comparator)
    (i : nat) (n : Subject) (sh : Shared) :
  isStopped (Shared_subscribe m cmp i n sh).1 = isStopped n.
Proof.
  unfold Shared_subscribe. cbv zeta.
  destruct (negb _ && _); [|done]. by destruct (isStopped n) eqn:Hn.
Qed.

Lemma Shared_unsubscribe_stopped (i k : nat) (n : Subject) (sh : Shared) :
  isStopped (Shared_unsubscribe i k n sh).1 = isStopped n.
Proof.
  unfold Shared_unsubscribe. destruct (subscribers sh !! k) as [x|]; [|done].
  destruct (closed x); [done|]. destruct (_ && _); [|done].
  by destruct (connection sh).
Qed.

Lemma pipeline_trigger_absent (m : gmap string JsVal) (sh : Shared) :
  m !! sh_name sh = None → pipeline_trigger m sh = sh.
Proof.
  intros Hm. unfold pipeline_trigger, Map_has. rewrite Hm.
  by rewrite bool_decide_eq_false_2 by (by intros [? ?]).
Qed.

(** While the slot is absent and the service is alive, subscribing to a
    stream only adds the new subscriber, with nothing sent to it. *)
Lemma Shared_subscribe_absent (m : gmap string JsVal) (cmp : option Comparator)
    (i : nat) (n : Subject) (sh : Shared) :
  m !! sh_name sh = None → isStopped n = false →
  sh_name (Shared_subscribe m cmp i n sh).2 = sh_name sh
  ∧ ∃ x, subscribers (Shared_subscribe m cmp i n sh).2 = subscribers sh ++ [x].
Proof.
  intros Hm Hn. unfold Shared_subscribe. cbv zeta. rewrite Hn.
  destruct (rs_isStopped _); simpl;
    (destruct (negb _ && _); simpl;
      [rewrite pipeline_trigger_absent by done|]; simpl; eauto).
Qed.
Lemma Silent_stateValue (name : string) (sub : Subscription) (x : Subscriber)
    (n : string) (v : JsVal) (s : Service) :
  Service_wf s → Silent name sub x s →
  String.eqb n name && negb (is_undefined v) = false →
  Silent name sub x (snd (stateValue n v s)).
Proof.
  intros Hwf (Hn & Hm & sh & Hi & Hname & Hk) Hq.
  unfold Silent; split_and!.
  - by rewrite stateValue_write_notifier.
  - rewrite stateValue_write_store. destruct (is_undefined v); [done|].
    rewrite andb_true_r in Hq. apply String.eqb_neq in Hq.
    by rewrite lookup_insert_ne.
  - exists sh. split_and!; try done.
    apply stateValue_write_other; try done. by rewrite Hname.
Qed.

Lemma Silent_stateValue_dollar (name : string) (sub : Subscription)
    (x : Subscriber) (n : string) (opts : option IStateOpts) (s : Service) :
  Service_wf s → Silent name sub x s →
  String.eqb n name && negb (is_undefined (opts_initialValue opts)) = false →
  Silent name sub x (snd (stateValue_dollar n opts s)).
Proof.
  intros Hwf HS Hq. unfold stateValue_dollar. cbv zeta.
  assert (∀ s1, Silent name sub x s1 →
            Silent name sub x
              (mkService (hash_stateValue s1) (hash_stateValueUpdated s1)
                 (derived s1 ++ [Shared_new n (merged_buffer opts)]))) as Hadd.
  { intros s1 (Hn & Hm & sh & Hi & Hname & Hk). unfold Silent; split_and!; try done.
    exists sh. split_and!; try done. simpl.
    rewrite lookup_app_l; [done|]. by eapply lookup_lt_Some. }
  destruct (negb _ && negb _); destruct (truthy _); simpl;
    auto using Silent_stateValue.
Qed.

Lemma Silent_step (name : string) (sub : Subscription) (x : Subscriber)
    (s : Service) (c : Call) :
  Service_wf s → Silent name sub x s → silent_for name sub c = true →
  Silent name sub x (exec s c).
Proof.
  intros Hwf HS Hq. unfold silent_for in Hq.
  apply andb_true_iff in Hq as [Hq Hd]. apply andb_true_iff in Hq as [Hw Ht].
  apply negb_true_iff in Hw, Ht, Hd.
  destruct c; simpl in *; try done.
  - by apply Silent_stateValue.
  - by apply Silent_stateValue_dollar.
  - rewrite stateValueDistinct_dollar_state. by apply Silent_stateValue_dollar.
  - destruct HS as (Hn & Hm & HS). unfold Silent; split_and!; try done. simpl.
    destruct (decide (name0 = name)) as [->|Hne];
      [apply lookup_delete_eq | by rewrite lookup_delete_ne].
  - destruct HS as (Hn & Hm & HS). unfold Silent; split_and!; try done.
  - destruct HS as (Hn & Hm & sh & Hi & Hname & Hk). unfold subscribe.
    destruct (derived s !! source o) as [sh0|] eqn:Ho;
      [|by unfold Silent; split_and!; [..|exists sh]].
    pose proof (Shared_subscribe_stopped (hash_stateValue s) (distinct o)
                  (source o) (hash_stateValueUpdated s) sh0) as Hst.
    destruct (Shared_subscribe _ _ _ _ _) as [n' sh'] eqn:Hsub. simpl in *.
    unfold Silent; simpl; split_and!; [congruence|done|].
    destruct (decide (source o = sub.1)) as [Heq|Hne].
    + rewrite Heq in *. rewrite Hi in Ho. injection Ho as <-.
      destruct (Shared_subscribe_absent (hash_stateValue s) (distinct o)
                  sub.1 (hash_stateValueUpdated s) sh) as (Hnm & y & Hy);
        [by rewrite Hname|done|].
      rewrite Hsub in Hnm, Hy. simpl in *.
      exists sh'. split_and!; [|congruence|].
      * simpl. apply list_lookup_insert_eq. by eapply lookup_lt_Some.
      * rewrite Hy, lookup_app_l; [done|]. by eapply lookup_lt_Some.
    + exists sh. split_and!; try done. simpl. by rewrite list_lookup_insert_ne.
  - destruct HS as (Hn & Hm & sh & Hi & Hname & Hk). unfold unsubscribe.
    apply bool_decide_eq_false in Hd.
    destruct (derived s !! sub0.1) as [sh0|] eqn:Ho;
      [|by unfold Silent; split_and!; [..|exists sh]].
    pose proof (Shared_unsubscribe_stopped sub0.1 sub0.2
                  (hash_stateValueUpdated s) sh0) as Hst.
    destruct (Shared_unsubscribe _ _ _ _) as [n' sh'] eqn:Hun. simpl in *.
    unfold Silent; simpl; split_and!; [congruence|done|].
    destruct (decide (sub0.1 = sub.1)) as [Heq|Hne].
    + assert (sub0.2 ≠ sub.2) as Hk2.
      { intros Hk2. apply Hd. destruct sub0, sub; simpl in *; congruence. }
      rewrite Heq in *. rewrite Hi in Ho. injection Ho as <-.
      assert (sh_name sh' = sh_name sh
              ∧ subscribers sh' !! sub.2 = subscribers sh !! sub.2) as [Hnm Hsubs].
      { unfold Shared_unsubscribe in Hun.
        destruct (subscribers sh !! sub0.2) as [y|]; [|by simplify_eq].
        destruct (closed y); [by simplify_eq|].
        destruct (_ && _); simplify_eq; simpl;
          by rewrite list_lookup_insert_ne. }
      exists sh'. split_and!; [|congruence|congruence].
      simpl. apply list_lookup_insert_eq. by eapply lookup_lt_Some.
    + exists sh. split_and!; try done. simpl. by rewrite list_lookup_insert_ne.
Qed.

Lemma Silent_run (name : string) (sub : Subscription) (x : Subscriber)
    (cs : list Call) (s : Service) :
  Service_wf s → Silent name sub x s →
  forallb (silent_for name sub) cs = true →
  Silent name sub x (run cs s).
Proof.
  revert s. induction cs as [|c cs IH]; intros s Hwf HS Hq; simpl in *; [done|].
  apply andb_true_iff in Hq as [Hc Hq].
  apply IH; [by apply exec_wf|by apply Silent_step|done].
Qed.
(** ** A stream requested while the slot is absent *)

Lemma received_by_holds (name : string) (sub : Subscription) (x : Subscriber)
    (s : Service) :
  holds_subscriber name sub x s → received_by sub s = received x.
Proof.
  intros (sh & Hi & _ & Hk). unfold received_by. by rewrite Hi, Hk.
Qed.

Lemma Map_has_false (m : gmap string JsVal) (name : string) :
  Map_has m name = false ↔ m !! name = None.
Proof.
  unfold Map_has. rewrite bool_decide_eq_false, <- eq_None_not_Some. done.
Qed.

Lemma Subscriber_next_new (v : JsVal) (cmp : option Comparator) :
  Subscriber_next v (Subscriber_new cmp)
  = mkSubscriber false cmp (Some v) [Next v].
Proof. unfold Subscriber_next, Subscriber_new. simpl. by destruct cmp. Qed.

Lemma stateValue_dollar_plain (name : string) (opts : option IStateOpts)
    (s : Service) :
  is_undefined (opts_initialValue opts) = true →
  truthy (merged_buffer opts) = true →
  stateValue_dollar name opts s
  = (inr (mkObservable (length (derived s)) None),
     mkService (hash_stateValue s) (hash_stateValueUpdated s)
       (derived s ++ [Shared_new name (merged_buffer opts)])).
Proof. intros Hi Hb. unfold stateValue_dollar. by rewrite Hi, Hb. Qed.

(** A stream requested while the slot is absent, and its first subscriber. *)
Lemma fresh_stream_Silent (s0 : Service) (name : string)
    (opts : option IStateOpts) (cmp : option Comparator) :
  Service_wf s0 →
  isStopped (hash_stateValueUpdated s0) = false →
  hasStateValue name s0 = false →
  is_undefined (opts_initialValue opts) = true →
  truthy (merged_buffer opts) = true →
  let i := length (derived s0) in
  let s1 := snd (stateValue_dollar name opts s0) in
  let s2 := snd (subscribe (mkObservable i cmp) s1) in
  fst (stateValue_dollar name opts s0) = inr (mkObservable i None)
  ∧ fst (subscribe (mkObservable i cmp) s1) = Some (i, 0)
  ∧ Service_wf s2
  ∧ Silent name (i, 0) (Subscriber_new cmp) s2.
Proof.
  intros Hwf Hn Habs Hi Hb i s1 s2.
  apply Map_has_false in Habs.
  assert (Service_wf s1) as Hwf1 by (by apply stateValue_dollar_wf).
  assert (Service_wf s2) as Hwf2 by (by apply subscribe_wf).
  subst s2 s1. rewrite stateValue_dollar_plain in * by done. simpl in *.
  unfold subscribe in *. simpl in *.
  rewrite list_lookup_middle in * by done.
  unfold Shared_subscribe in *. simpl in *.
  rewrite pipeline_trigger_absent in * by done. rewrite Hn in *. simpl in *.
  split_and!; [done..|].
  unfold Silent; split_and!; [done..|]. eexists. split_and!.
  - simpl. apply list_lookup_insert_eq. rewrite length_app. simpl. lia.
  - done.
  - done.
Qed.

Lemma fresh_stream_silent_until_set (s0 : Service) (name : string)
    (opts : option IStateOpts) (cmp : option Comparator) (quiet : list Call)
    (v : JsVal) :
  Service_wf s0 →
  isStopped (hash_stateValueUpdated s0) = false →
  hasStateValue name s0 = false →
  is_undefined (opts_initialValue opts) = true →
  truthy (merged_buffer opts) = true →
  forallb (silent_for name (length (derived s0), 0)) quiet = true →
  is_undefined v = false →
  let i := length (derived s0) in
  let s1 := snd (stateValue_dollar name opts s0) in
  let s2 := snd (subscribe (mkObservable i cmp) s1) in
  fst (stateValue_dollar name opts s0) = inr (mkObservable i None)
  ∧ fst (subscribe (mkObservable i cmp) s1) = Some (i, 0)
  ∧ received_by (i, 0) s2 = []
  ∧ received_by (i, 0) (run quiet s2) = []
  ∧ received_by (i, 0) (snd (stateValue name v (run quiet s2))) = [Next v].
Proof.
  intros Hwf Hn Habs Hi Hb Hq Hv i s1 s2.
  destruct (fresh_stream_Silent s0 name opts cmp) as (H1 & H2 & Hwf2 & HS);
    try done.
  fold i s1 s2 in H1, H2, Hwf2, HS.
  pose proof (Silent_run _ _ _ quiet s2 Hwf2 HS Hq) as (Hn3 & Hm3 & HS3).
  split_and!; try done.
  - by rewrite (received_by_holds _ _ _ _ (proj2 (proj2 HS))).
  - by rewrite (received_by_holds _ _ _ _ HS3).
  - destruct HS3 as (sh & Hsh & Hname & Hk).
    destruct (stateValue_write_subscriber name v (run quiet s2) i 0 sh
                (Subscriber_new cmp)) as (sh' & Hsh' & Hk');
      [by apply run_wf|done..|].
    unfold received_by. cbn [fst snd]. rewrite Hsh', Hk'. simpl.
    by rewrite Subscriber_next_new.
Qed.
(** ** The store and the notifier across calls *)

Lemma subscribe_store (o : Observable) (s : Service) :
  hash_stateValue (snd (subscribe o s)) = hash_stateValue s.
Proof.
  unfold subscribe. destruct (derived s !! source o); [|done].
  by destruct (Shared_subscribe _ _ _ _ _).
Qed.

Lemma unsubscribe_store (sub : Subscription) (s : Service) :
  hash_stateValue (unsubscribe sub s) = hash_stateValue s.
Proof.
  unfold unsubscribe. destruct (derived s !! sub.1); [|done].
  by destruct (Shared_unsubscribe _ _ _ _).
Qed.

Lemma stateValue_dollar_store (name : string) (opts : option IStateOpts)
    (s : Service) :
  hash_stateValue (snd (stateValue_dollar name opts s))
  = if negb (is_undefined (opts_initialValue opts))
       && negb (Map_has (hash_stateValue s) name)
    then <[name := opts_initialValue opts]> (hash_stateValue s)
    else hash_stateValue s.
Proof.
  unfold stateValue_dollar. cbv zeta.
  destruct (is_undefined (opts_initialValue opts)) eqn:Hu; simpl.
  - by destruct (truthy _).
  - destruct (negb (Map_has _ _)); destruct (truthy _); simpl;
      by rewrite ?stateValue_write_store, ?Hu.
Qed.

Lemma exec_store_defined (s : Service) (c : Call) :
  map_Forall (λ _ v, is_undefined v = false) (hash_stateValue s) →
  map_Forall (λ _ v, is_undefined v = false) (hash_stateValue (exec s c)).
Proof.
  intros Hs.
  assert (∀ n v o, negb (is_undefined v) && o = true →
            map_Forall (λ _ v, is_undefined v = false)
              (<[n := v]> (hash_stateValue s))) as Hins.
  { intros n v o [Hv _]%andb_true_iff. apply negb_true_iff in Hv.
    by apply map_Forall_insert_2. }
  destruct c; simpl; try done.
  - rewrite stateValue_write_store. destruct (is_undefined value) eqn:Hv; [done|].
    by apply map_Forall_insert_2.
  - rewrite stateValue_dollar_store. destruct (_ && _) eqn:Hc; eauto.
  - rewrite stateValueDistinct_dollar_state, stateValue_dollar_store.
    destruct (_ && _) eqn:Hc; eauto.
  - by apply map_Forall_delete.
  - by rewrite subscribe_store.
  - by rewrite unsubscribe_store.
Qed.

Lemma subscribe_stopped (o : Observable) (s : Service) :
  isStopped (hash_stateValueUpdated (snd (subscribe o s)))
  = isStopped (hash_stateValueUpdated s).
Proof.
  unfold subscribe. destruct (derived s !! source o) as [sh|]; [|done].
  pose proof (Shared_subscribe_stopped (hash_stateValue s) (distinct o)
                (source o) (hash_stateValueUpdated s) sh) as Hst.
  by destruct (Shared_subscribe _ _ _ _ _).
Qed.

Lemma unsubscribe_stopped (sub : Subscription) (s : Service) :
  isStopped (hash_stateValueUpdated (unsubscribe sub s))
  = isStopped (hash_stateValueUpdated s).
Proof.
  unfold unsubscribe. destruct (derived s !! sub.1) as [sh|]; [|done].
  pose proof (Shared_unsubscribe_stopped sub.1 sub.2
                (hash_stateValueUpdated s) sh) as Hst.
  by destruct (Shared_unsubscribe _ _ _ _).
Qed.

Lemma stateValue_dollar_notifier (name : string) (opts : option IStateOpts)
    (s : Service) :
  hash_stateValueUpdated (snd (stateValue_dollar name opts s))
  = hash_stateValueUpdated s.
Proof.
  unfold stateValue_dollar. cbv zeta.
  destruct (_ && _); destruct (truthy _); simpl;
    by rewrite ?stateValue_write_notifier.
Qed.

Lemma Subject_complete_stopped (s : Service) :
  isStopped (hash_stateValueUpdated (Subject_complete s)) = true.
Proof.
  unfold Subject_complete.
  destruct (isStopped (hash_stateValueUpdated s)) eqn:Hn; simpl; done.
Qed.

(** Only the teardown stops the notifier, and nothing reopens it. *)
Lemma exec_stopped (s : Service) (c : Call) :
  isStopped (hash_stateValueUpdated (exec s c))
  = isStopped (hash_stateValueUpdated s) || is_teardown c.
Proof.
  destruct c; simpl; rewrite ?orb_false_r; try done.
  - by rewrite stateValue_write_notifier.
  - by rewrite stateValue_dollar_notifier.
  - by rewrite stateValueDistinct_dollar_state, stateValue_dollar_notifier.
  - apply subscribe_stopped.
  - apply unsubscribe_stopped.
  - by rewrite Subject_complete_stopped, orb_true_r.
Qed.

Lemma Subject_next_stopped (name : string) (s : Service) :
  isStopped (hash_stateValueUpdated s) = true → Subject_next name s = s.
Proof. unfold Subject_next. by intros ->. Qed.
(** ** A closed subscriber is never touched again *)

Lemma foldl_alter_lookup_preserved {A : Type} (f : A → A) (P : A → Prop)
    (l : list nat) (D : list A) (i : nat) (x : A) :
  (∀ y, P y → P (f y)) → D !! i = Some x → P x →
  ∃ y, foldl (λ acc j, alter f j acc) D l !! i = Some y ∧ P y.
Proof.
  intros Hf. revert D x. induction l as [|j l IH]; intros D x Hi Hx; simpl.
  - eauto.
  - destruct (decide (j = i)) as [->|Hne].
    + apply (IH _ (f x)); [|by apply Hf].
      by rewrite list_lookup_alter_eq, Hi.
    + apply (IH _ x); [|done]. by rewrite list_lookup_alter_ne.
Qed.

Section closed_forever.
Context (k : nat) (x : Subscriber) (Hx : closed x = true).

Local Abbreviation keeps_x sh := (subscribers sh !! k = Some x).

Lemma deliver_keeps_closed (v : JsVal) (obs : list nat)
    (subs : list Subscriber) :
  subs !! k = Some x → deliver v obs subs !! k = Some x.
Proof.
  intros Hk.
  destruct (foldl_alter_lookup_preserved (Subscriber_next v) (λ y, y = x)
              obs subs k x) as (y & Hy & ->); try done.
  intros y ->. by apply Subscriber_next_closed.
Qed.

Lemma deliver_complete_keeps_closed (obs : list nat) (subs : list Subscriber) :
  subs !! k = Some x → deliver_complete obs subs !! k = Some x.
Proof.
  intros Hk.
  destruct (foldl_alter_lookup_preserved Subscriber_complete (λ y, y = x)
              obs subs k x) as (y & Hy & ->); try done.
  intros y ->. by apply Subscriber_complete_closed.
Qed.

Lemma connection_next_keeps_closed (v : JsVal) (sh : Shared) :
  keeps_x sh → keeps_x (connection_next v sh).
Proof.
  intros Hk. unfold connection_next. destruct (subject sh) as [rs|]; [|done].
  destruct (rs_isStopped rs); [done|]. simpl. by apply deliver_keeps_closed.
Qed.

Lemma connection_complete_keeps_closed (sh : Shared) :
  keeps_x sh → keeps_x (connection_complete sh).
Proof.
  intros Hk. unfold connection_complete. destruct (subject sh) as [rs|]; [|done].
  destruct (rs_isStopped rs); [done|]. simpl.
  by apply deliver_complete_keeps_closed.
Qed.

Lemma pipeline_trigger_keeps_closed (m : gmap string JsVal) (sh : Shared) :
  keeps_x sh → keeps_x (pipeline_trigger m sh).
Proof.
  intros Hk. unfold pipeline_trigger. destruct (Map_has _ _); [|done].
  by apply connection_next_keeps_closed.
Qed.

Lemma pipeline_next_keeps_closed (m : gmap string JsVal) (n : string)
    (sh : Shared) :
  keeps_x sh → keeps_x (pipeline_next m n sh).
Proof.
  intros Hk. unfold pipeline_next. destruct (String.eqb _ _); [|done].
  by apply pipeline_trigger_keeps_closed.
Qed.

Lemma Shared_subscribe_keeps_closed (m : gmap string JsVal)
    (cmp : option Comparator) (i : nat) (n : Subject) (sh : Shared) :
  keeps_x sh → keeps_x (Shared_subscribe m cmp i n sh).2.
Proof.
  intros Hk. unfold Shared_subscribe. cbv zeta.
  assert (∀ y, (subscribers sh ++ [y]) !! k = Some x) as Happ.
  { intros y. rewrite lookup_app_l; [done|]. by eapply lookup_lt_Some. }
  destruct (rs_isStopped _); simpl;
    (destruct (negb _ && _); simpl; [|done]);
    (destruct (isStopped n); simpl;
      [apply connection_complete_keeps_closed|];
      apply pipeline_trigger_keeps_closed; simpl; done).
Qed.

Lemma Shared_unsubscribe_keeps_closed (i k' : nat) (n : Subject) (sh : Shared) :
  keeps_x sh → keeps_x (Shared_unsubscribe i k' n sh).2.
Proof.
  intros Hk. unfold Shared_unsubscribe.
  destruct (subscribers sh !! k') as [y|] eqn:Hy; [|done].
  destruct (closed y) eqn:Hcy; [done|].
  assert (k' ≠ k) as Hne by (intros ->; congruence).
  destruct (_ && _); simpl; by rewrite list_lookup_insert_ne.
Qed.

Lemma closed_forever_step (i : nat) (s : Service) (c : Call) :
  (∃ sh, derived s !! i = Some sh ∧ keeps_x sh) →
  ∃ sh, derived (exec s c) !! i = Some sh ∧ keeps_x sh.
Proof.
  intros (sh & Hi & Hk).
  assert (∀ n v, ∃ sh', derived (snd (stateValue n v s)) !! i = Some sh'
                        ∧ keeps_x sh') as Hset.
  { intros n v. unfold stateValue. destruct (is_undefined v); [by eauto|].
    simpl. unfold Subject_next. simpl.
    destruct (isStopped _); simpl; [by eauto|].
    eapply foldl_alter_lookup_preserved; [|done..].
    intros y. apply pipeline_next_keeps_closed. }
  assert (∀ n opts, ∃ sh', derived (snd (stateValue_dollar n opts s)) !! i
                           = Some sh' ∧ keeps_x sh') as Hstream.
  { intros n opts. unfold stateValue_dollar. cbv zeta.
    destruct (_ && _).
    - destruct (Hset n (opts_initialValue opts)) as (sh' & Hi' & Hk').
      destruct (truthy _); simpl; [|by eauto].
      exists sh'. split; [|done].
      rewrite lookup_app_l; [done|]. by eapply lookup_lt_Some.
    - destruct (truthy _); simpl; [|by eauto].
      exists sh. split; [|done].
      rewrite lookup_app_l; [done|]. by eapply lookup_lt_Some. }
  destruct c; simpl; eauto.
  - rewrite stateValueDistinct_dollar_state. eauto.
  - unfold subscribe. destruct (derived s !! source o) as [sh0|] eqn:Ho;
      [|by eauto].
    pose proof (Shared_subscribe_keeps_closed (hash_stateValue s) (distinct o)
                  (source o) (hash_stateValueUpdated s) sh0) as Hkeep.
    destruct (Shared_subscribe _ _ _ _ _) as [n' sh'] eqn:Hsub. simpl in *.
    destruct (decide (source o = i)) as [Heq|Hne].
    + rewrite Heq in *. rewrite Hi in Ho. injection Ho as <-.
      exists sh'. split; [|by auto].
      apply list_lookup_insert_eq. by eapply lookup_lt_Some.
    + exists sh. by rewrite list_lookup_insert_ne.
  - unfold unsubscribe. destruct (derived s !! sub.1) as [sh0|] eqn:Ho;
      [|by eauto].
    pose proof (Shared_unsubscribe_keeps_closed sub.1 sub.2
                  (hash_stateValueUpdated s) sh0) as Hkeep.
    destruct (Shared_unsubscribe _ _ _ _) as [n' sh'] eqn:Hun. simpl in *.
    destruct (decide (sub.1 = i)) as [Heq|Hne].
    + rewrite Heq in *. rewrite Hi in Ho. injection Ho as <-.
      exists sh'. split; [|by auto].
      apply list_lookup_insert_eq. by eapply lookup_lt_Some.
    + exists sh. by rewrite list_lookup_insert_ne.
  - unfold Subject_complete. destruct (isStopped _); simpl; [by eauto|].
    eapply foldl_alter_lookup_preserved; [|done..].
    intros y. apply connection_complete_keeps_closed.
Qed.

Lemma closed_forever_run (i : nat) (cs : list Call) (s : Service) :
  (∃ sh, derived s !! i = Some sh ∧ keeps_x sh) →
  ∃ sh, derived (run cs s) !! i = Some sh ∧ keeps_x sh.
Proof.
  revert s. induction cs as [|c cs IH]; intros s Hs; simpl; [done|].
  by apply IH, closed_forever_step.
Qed.

End closed_forever.
(** ** After the teardown *)

(** Once the notifier is stopped, every subscriber of every stream is closed. *)
Lemma stopped_all_closed (s : Service) (i k : nat) (sh : Shared)
    (x : Subscriber) :
  Service_wf s → isStopped (hash_stateValueUpdated s) = true →
  derived s !! i = Some sh → subscribers sh !! k = Some x → closed x = true.
Proof.
  intros Hwf Hn Hi Hk. destruct (closed x) eqn:Hc; [done|]. exfalso.
  pose proof (Service_wf_lookup s i sh Hwf Hi) as Hsk.
  destruct (open_subscriber_live sh k x Hsk Hk Hc) as (Hl & _).
  apply (Service_wf_observers s i sh Hwf Hi) in Hl.
  destruct Hwf as (_ & _ & _ & _ & Hstop). rewrite (Hstop Hn) in Hl.
  by apply elem_of_nil in Hl.
Qed.

Lemma emissions_snoc_Complete (l : list Notification) :
  emissions (l ++ [Complete]) = emissions l.
Proof. unfold emissions. rewrite omap_app. simpl. by rewrite app_nil_r. Qed.

Lemma emissions_snoc_Next (l : list Notification) (v : JsVal) :
  emissions (l ++ [Next v]) = emissions l ++ [v].
Proof. unfold emissions. by rewrite omap_app. Qed.

Lemma received_Subscriber_complete (x : Subscriber) :
  received (Subscriber_complete x)
  = if closed x then received x else received x ++ [Complete].
Proof. unfold Subscriber_complete. by destruct (closed x). Qed.

(** What the teardown does to a subscriber: an open one is sent
    completion, a closed one nothing. *)
Lemma onDestroy_subscriber (s : Service) (i k : nat) (sh : Shared)
    (x : Subscriber) :
  Service_wf s → derived s !! i = Some sh → subscribers sh !! k = Some x →
  ∃ sh', derived (onDestroy s) !! i = Some sh'
         ∧ subscribers sh' !! k = Some (Subscriber_complete x).
Proof.
  intros Hwf Hi Hk. unfold onDestroy, clearStateValues. simpl.
  rewrite (Subject_complete_lookup s i sh) by done.
  pose proof (Service_wf_lookup s i sh Hwf Hi) as Hsk.
  eexists. split; [done|].
  destruct (negb _ && live _) eqn:Hcond.
  - apply andb_true_iff in Hcond as [_ Hl].
    destruct (live_open_subject sh Hsk Hl) as (rs & Hs & Hst).
    rewrite (connection_complete_wf sh rs) by done. simpl.
    by rewrite list_lookup_fmap, Hk.
  - rewrite Hk. f_equal. symmetry. apply Subscriber_complete_closed.
    destruct (closed x) eqn:Hc; [done|]. exfalso.
    destruct (open_subscriber_live sh k x Hsk Hk Hc) as (Hl & _).
    rewrite Hl, andb_true_r in Hcond. apply negb_false_iff in Hcond.
    by rewrite (stopped_all_closed s i k sh x) in Hc.
Qed.

Lemma onDestroy_idempotent (s : Service) : onDestroy (onDestroy s) = onDestroy s.
Proof.
  assert (isStopped (hash_stateValueUpdated (onDestroy s)) = true) as Hst
    by apply Subject_complete_stopped.
  unfold onDestroy at 1. unfold Subject_complete at 1. by rewrite Hst.
Qed.

Lemma onDestroy_observers (s : Service) :
  Service_wf s → observers (hash_stateValueUpdated (onDestroy s)) = [].
Proof.
  intros Hwf. apply onDestroy_wf in Hwf as (_ & _ & _ & _ & Hstop).
  apply Hstop. apply Subject_complete_stopped.
Qed.
(** ** Replay to a late subscriber *)

Lemma replay_plain (l : list JsVal) (p : option JsVal) (r : list Notification) :
  foldl (λ sub v, Subscriber_next v sub) (mkSubscriber false None p r) l
  = mkSubscriber false None (if l is [] then p else last l) (r ++ (Next <$> l)).
Proof.
  revert p r. induction l as [|v l IH]; intros p r; simpl.
  - by rewrite app_nil_r.
  - unfold Subscriber_next at 2. simpl. unfold Subscriber_emit. simpl.
    rewrite IH, <- app_assoc. simpl. by destruct l.
Qed.

(** Subscribing to a stream whose subject exists: the buffer is replayed,
    followed by completion when the subject is stopped. *)
Lemma subscribe_connected (o : Observable) (s : Service) (sh : Shared)
    (rs : ReplaySubject) :
  Service_wf s → derived s !! source o = Some sh → subject sh = Some rs →
  let x := foldl (λ sub v, Subscriber_next v sub) (Subscriber_new (distinct o))
             (rs_buffer rs) in
  fst (subscribe o s) = Some (source o, length (subscribers sh))
  ∧ received_by (source o, length (subscribers sh)) (snd (subscribe o s))
    = if rs_isStopped rs then received x ++ [Complete] else received x.
Proof.
  intros Hwf Hi Hs x.
  pose proof (Service_wf_lookup s _ sh Hwf Hi) as Hsk.
  assert (connection sh = true) as Hc.
  { unfold Skel_wf, skel in Hsk; simpl in Hsk. rewrite Hs in Hsk. apply Hsk. }
  unfold subscribe. rewrite Hi. unfold Shared_subscribe. cbv zeta.
  rewrite Hs. simpl. fold x.
  assert (source o < length (derived s)) by (by eapply lookup_lt_Some).
  destruct (rs_isStopped rs) eqn:Hst; simpl; rewrite Hc; simpl;
    (split; [done|]); unfold received_by; simpl;
    rewrite list_lookup_insert_eq by done; simpl;
    rewrite list_lookup_middle by done; simpl; [|done].
  rewrite received_Subscriber_complete. subst x. by rewrite closed_replay.
Qed.

(** The teardown keeps the buffer of every subject and stops it. *)
Lemma onDestroy_subject (s : Service) (i : nat) (sh : Shared)
    (rs : ReplaySubject) :
  Service_wf s → derived s !! i = Some sh → subject sh = Some rs →
  ∃ sh' rs', derived (onDestroy s) !! i = Some sh'
             ∧ length (subscribers sh') = length (subscribers sh)
             ∧ subject sh' = Some rs'
             ∧ rs_buffer rs' = rs_buffer rs ∧ rs_isStopped rs' = true.
Proof.
  intros Hwf Hi Hs. unfold onDestroy, clearStateValues. simpl.
  rewrite (Subject_complete_lookup s i sh) by done.
  pose proof (Service_wf_lookup s i sh Hwf Hi) as Hsk.
  destruct (negb _ && live _) eqn:Hcond.
  - apply andb_true_iff in Hcond as [_ Hl].
    destruct (live_open_subject sh Hsk Hl) as (rs0 & Hs0 & Hst).
    rewrite Hs in Hs0. injection Hs0 as <-.
    rewrite (connection_complete_wf sh rs) by done.
    eexists _, _. split; [done|]. simpl. rewrite length_fmap. done.
  - exists sh, rs. split_and!; try done.
    destruct (rs_isStopped rs) eqn:Hst; [done|]. exfalso.
    assert (live (skel sh) = true) as Hl.
    { unfold Skel_wf, live, skel in *; simpl in *. rewrite Hs in Hsk.
      simpl in Hsk. destruct Hsk as (Hc & Hh & _). by rewrite Hc, <- Hh, Hst. }
    rewrite Hl, andb_true_r in Hcond. apply negb_false_iff in Hcond.
    apply (Service_wf_observers s i sh Hwf Hi) in Hl.
    destruct Hwf as (_ & _ & _ & _ & Hstop). rewrite (Hstop Hcond) in Hl.
    by apply elem_of_nil in Hl.
Qed.
(** ** The latest value is what a late subscriber gets *)

Lemma trimBuffer_one (l : list JsVal) (v : JsVal) :
  trimBuffer 1 (l ++ [v]) = [v].
Proof.
  unfold trimBuffer. rewrite length_app. simpl.
  replace (length l + 1 - Z.to_nat 1) with (length l) by lia.
  by rewrite drop_app_length.
Qed.

Lemma connection_next_name (v : JsVal) (sh : Shared) :
  sh_name (connection_next v sh) = sh_name sh
  ∧ sh_buffer (connection_next v sh) = sh_buffer sh.
Proof.
  unfold connection_next. destruct (subject sh) as [rs|]; [|done].
  by destruct (rs_isStopped rs).
Qed.

Lemma connection_complete_name (sh : Shared) :
  sh_name (connection_complete sh) = sh_name sh
  ∧ sh_buffer (connection_complete sh) = sh_buffer sh.
Proof.
  unfold connection_complete. destruct (subject sh) as [rs|]; [|done].
  by destruct (rs_isStopped rs).
Qed.

Lemma pipeline_trigger_name (m : gmap string JsVal) (sh : Shared) :
  sh_name (pipeline_trigger m sh) = sh_name sh
  ∧ sh_buffer (pipeline_trigger m sh) = sh_buffer sh.
Proof.
  unfold pipeline_trigger. destruct (Map_has _ _); [|done].
  apply connection_next_name.
Qed.

Lemma Shared_subscribe_name (m : gmap string JsVal) (cmp : option Comparator)
    (i : nat) (n : Subject) (sh : Shared) :
  sh_name (Shared_subscribe m cmp i n sh).2 = sh_name sh
  ∧ sh_buffer (Shared_subscribe m cmp i n sh).2 = sh_buffer sh.
Proof.
  unfold Shared_subscribe. cbv zeta.
  destruct (rs_isStopped _); simpl;
    (destruct (negb _ && _); simpl; [|done]);
    destruct (isStopped n); simpl;
    rewrite ?(proj1 (connection_complete_name _)),
      ?(proj2 (connection_complete_name _)),
      ?(proj1 (pipeline_trigger_name _ _)),
      ?(proj2 (pipeline_trigger_name _ _)); done.
Qed.

Lemma Shared_unsubscribe_name (i k : nat) (n : Subject) (sh : Shared) :
  sh_name (Shared_unsubscribe i k n sh).2 = sh_name sh
  ∧ sh_buffer (Shared_unsubscribe i k n sh).2 = sh_buffer sh.
Proof.
  unfold Shared_unsubscribe. destruct (subscribers sh !! k) as [x|]; [|done].
  destruct (closed x); [done|]. by destruct (_ && _).
Qed.

Lemma open_subject_not_stopped (s : Service) (i : nat) (sh : Shared)
    (rs : ReplaySubject) :
  Service_wf s → isStopped (hash_stateValueUpdated s) = false →
  derived s !! i = Some sh → subject sh = Some rs →
  rs_isStopped rs = false ∧ connection sh = true.
Proof.
  intros Hwf Hn Hi Hs.
  pose proof (Service_wf_lookup s i sh Hwf Hi) as Hsk.
  pose proof (Wf_open_not_completed _ _ i (skel sh) Hwf) as Hopen.
  rewrite list_lookup_fmap, Hi in Hopen. specialize (Hopen eq_refl Hn).
  unfold Skel_wf, skel in *; simpl in *. rewrite Hs in Hsk. simpl in Hsk.
  destruct Hsk as (Hc & -> & _). done.
Qed.

Lemma stateValue_write_lookup_inv (name : string) (v : JsVal) (s : Service)
    (i : nat) (sh' : Shared) :
  Service_wf s → is_undefined v = false →
  derived (snd (stateValue name v s)) !! i = Some sh' →
  ∃ sh, derived s !! i = Some sh
        ∧ sh' = if negb (isStopped (hash_stateValueUpdated s))
                   && live (skel sh) && String.eqb name (sh_name sh)
                then connection_next v sh else sh.
Proof.
  intros Hwf Hv Hi'.
  assert (i < length (derived s)) as Hlt.
  { rewrite <- (stateValue_write_length name v s). by eapply lookup_lt_Some. }
  apply lookup_lt_is_Some in Hlt as [sh Hi]. exists sh. split; [done|].
  rewrite (stateValue_write_lookup name v s i sh) in Hi' by done. congruence.
Qed.

Lemma Holds_after_write (name : string) (v : JsVal) (s : Service) :
  Service_wf s → isStopped (hash_stateValueUpdated s) = false →
  is_undefined v = false → Holds name v (snd (stateValue name v s)).
Proof.
  intros Hwf Hn Hv. unfold Holds. split_and!.
  - by rewrite stateValue_write_notifier.
  - by rewrite stateValue_write_store, Hv, lookup_insert_eq.
  - intros i sh' rs' Hi' Hname Hsize Hs'.
    destruct (stateValue_write_lookup_inv name v s i sh' Hwf Hv Hi')
      as (sh & Hi & ->).
    pose proof (Service_wf_lookup s i sh Hwf Hi) as Hsk.
    rewrite Hn in *. simpl in *.
    destruct (live (skel sh)) eqn:Hl; simpl in *.
    + destruct (String.eqb name (sh_name sh)) eqn:He; [|by apply String.eqb_neq in He].
      destruct (live_open_subject sh Hsk Hl) as (rs & Hs & Hst).
      rewrite (connection_next_wf v sh rs) in Hs', Hsize by done.
      simpl in *. injection Hs' as <-. simpl.
      unfold Shared_bufferSize in *. simpl in Hsize. rewrite Hsize.
      apply trimBuffer_one.
    + exfalso. destruct (open_subject_not_stopped s i sh rs' Hwf Hn Hi Hs')
        as (Hst & Hc).
      unfold Skel_wf, live, skel in *; simpl in *. rewrite Hs' in Hsk.
      simpl in Hsk. destruct Hsk as (_ & Hh & _).
      rewrite Hc, <- Hh, Hst in Hl. done.
Qed.
Lemma Holds_stateValue_other (name : string) (v : JsVal) (n : string)
    (v' : JsVal) (s : Service) :
  Service_wf s → Holds name v s →
  String.eqb n name && negb (is_undefined v') = false →
  Holds name v (snd (stateValue n v' s)).
Proof.
  intros Hwf (Hn & Hm & Hbuf) Hq. unfold Holds. split_and!.
  - by rewrite stateValue_write_notifier.
  - rewrite stateValue_write_store. destruct (is_undefined v'); [done|].
    rewrite andb_true_r in Hq. apply String.eqb_neq in Hq.
    by rewrite lookup_insert_ne.
  - destruct (is_undefined v') eqn:Hv.
    { unfold stateValue. rewrite Hv. simpl. apply Hbuf. }
    rewrite andb_true_r in Hq.
    intros i sh' rs' Hi' Hname Hsize Hs'.
    destruct (stateValue_write_lookup_inv n v' s i sh' Hwf Hv Hi')
      as (sh & Hi & ->).
    destruct (_ && _ && String.eqb n (sh_name sh)) eqn:Hc; [|by eauto].
    exfalso. apply andb_true_iff in Hc as [_ He].
    rewrite (proj1 (connection_next_name v' sh)) in Hname.
    rewrite Hname in He. congruence.
Qed.

Lemma Holds_snoc (name : string) (v : JsVal) (s : Service) (n : string)
    (b : Z) :
  Holds name v s →
  Holds name v
    (mkService (hash_stateValue s) (hash_stateValueUpdated s)
       (derived s ++ [Shared_new n b])).
Proof.
  intros (Hn & Hm & Hbuf). unfold Holds. split_and!; try done. simpl.
  intros i sh rs Hi. destruct (decide (i < length (derived s))) as [Hlt|Hge].
  - rewrite lookup_app_l in Hi by done. by eapply Hbuf.
  - rewrite lookup_app_r in Hi by lia.
    destruct (i - length (derived s)) as [|j]; simpl in Hi; [|done].
    injection Hi as <-. done.
Qed.

Lemma Holds_has (name : string) (v : JsVal) (s : Service) :
  Holds name v s → Map_has (hash_stateValue s) name = true.
Proof.
  intros (_ & Hm & _). unfold Map_has. rewrite Hm.
  by rewrite bool_decide_eq_true_2 by eauto.
Qed.

Lemma Holds_stateValue_dollar (name : string) (v : JsVal) (n : string)
    (opts : option IStateOpts) (s : Service) :
  Service_wf s → Holds name v s →
  Holds name v (snd (stateValue_dollar n opts s)).
Proof.
  intros Hwf HH. unfold stateValue_dollar. cbv zeta.
  destruct (negb (is_undefined _) && negb (Map_has _ n)) eqn:Hc.
  - apply andb_true_iff in Hc as [Hv Hh].
    assert (Holds name v (snd (stateValue n (opts_initialValue opts) s))) as H1.
    { apply Holds_stateValue_other; try done.
      destruct (String.eqb n name) eqn:He; [|done].
      apply String.eqb_eq in He as ->.
      by rewrite (Holds_has _ _ _ HH) in Hh. }
    destruct (truthy _); simpl; [|done]. by apply Holds_snoc.
  - destruct (truthy _); simpl; [|done]. by apply Holds_snoc.
Qed.

Lemma pipeline_trigger_buffer (m : gmap string JsVal) (v : JsVal)
    (sh : Shared) :
  m !! sh_name sh = Some v → Shared_bufferSize sh = 1%Z →
  (∀ rs, subject sh = Some rs → rs_isStopped rs = true → rs_buffer rs = [v]) →
  ∀ rs', subject (pipeline_trigger m sh) = Some rs' → rs_buffer rs' = [v].
Proof.
  intros Hm Hsize Hbuf rs'. unfold pipeline_trigger, Map_has, Map_get.
  rewrite Hm. rewrite bool_decide_eq_true_2 by eauto. simpl.
  unfold connection_next.
  destruct (subject sh) as [rs|] eqn:Hs; [|intros; congruence].
  destruct (rs_isStopped rs) eqn:Hst.
  - rewrite Hs. intros [= <-]. by apply Hbuf.
  - simpl. intros [= <-]. simpl. rewrite Hsize. apply trimBuffer_one.
Qed.

(** Subscribing keeps the buffers of the streams for [name] at [[v]]. *)
Lemma Shared_subscribe_buffer (m : gmap string JsVal) (v : JsVal)
    (cmp : option Comparator) (i : nat) (n : Subject) (sh : Shared) :
  Skel_wf (skel sh) →
  isStopped n = false → m !! sh_name sh = Some v →
  Shared_bufferSize sh = 1%Z →
  (∀ rs, subject sh = Some rs → rs_buffer rs = [v]) →
  ∀ rs', subject (Shared_subscribe m cmp i n sh).2 = Some rs' →
         rs_buffer rs' = [v].
Proof.
  intros Hsk Hn Hm Hsize Hbuf rs'. unfold Shared_subscribe. cbv zeta. rewrite Hn.
  unfold Skel_wf, skel in Hsk; simpl in Hsk.
  destruct (subject sh) as [rs|] eqn:Hs; simpl in *.
  - specialize (Hbuf rs eq_refl).
    destruct (rs_isStopped rs) eqn:Hst; simpl;
      (destruct (negb _ && _); simpl;
        [apply pipeline_trigger_buffer; simpl; [done..|];
         by intros ? [= <-]
        |by intros [= <-]]).
  - destruct Hsk as (-> & _ & -> & _). simpl.
    apply pipeline_trigger_buffer; simpl; [done..|]. by intros ? [= <-].
Qed.

Lemma Shared_unsubscribe_buffer (i k : nat) (n : Subject) (sh : Shared)
    (rs' : ReplaySubject) :
  subject (Shared_unsubscribe i k n sh).2 = Some rs' →
  ∃ rs, subject sh = Some rs ∧ rs_buffer rs' = rs_buffer rs.
Proof.
  unfold Shared_unsubscribe. destruct (subscribers sh !! k) as [x|]; [|by eauto].
  destruct (closed x); [by eauto|]. destruct (_ && _); simpl; [done|].
  destruct (subject sh) as [rs|]; simpl; [|done]. intros [= <-]. by eauto.
Qed.

Lemma Holds_step (name : string) (v : JsVal) (s : Service) (c : Call) :
  Service_wf s → Holds name v s → keeps name c = true →
  Holds name v (exec s c).
Proof.
  intros Hwf HH Hq. destruct c; simpl in *; try done.
  - apply Holds_stateValue_other; try done. by apply negb_true_iff.
  - by apply Holds_stateValue_dollar.
  - rewrite stateValueDistinct_dollar_state. by apply Holds_stateValue_dollar.
  - destruct HH as (Hn & Hm & Hbuf). unfold Holds. split_and!; try done. simpl.
    apply negb_true_iff, String.eqb_neq in Hq. by rewrite lookup_delete_ne.
  - destruct HH as (Hn & Hm & Hbuf). unfold Holds.
    split_and!; [by rewrite subscribe_stopped|by rewrite subscribe_store|].
    unfold subscribe. destruct (derived s !! source o) as [sh0|] eqn:Ho;
      [|by apply Hbuf].
    pose proof (Shared_subscribe_buffer (hash_stateValue s) v (distinct o)
                  (source o) (hash_stateValueUpdated s) sh0
                  (Service_wf_lookup s _ sh0 Hwf Ho) Hn) as Hb.
    pose proof (Shared_subscribe_name (hash_stateValue s) (distinct o)
                  (source o) (hash_stateValueUpdated s) sh0) as [Hnm Hbf].
    destruct (Shared_subscribe _ _ _ _ _) as [n' sh'] eqn:Hsub. simpl in *.
    intros i sh rs Hi Hname Hsize Hs.
    apply list_lookup_insert_Some in Hi as [(<- & <- & _)|[Hne Hi]];
      [|by eapply Hbuf].
    unfold Shared_bufferSize in *. rewrite Hbf in Hsize. rewrite Hnm in Hname.
    apply Hb; try done; [by rewrite Hname|]. intros rs0 Hs0. by eapply Hbuf.
  - destruct HH as (Hn & Hm & Hbuf). unfold Holds.
    split_and!; [by rewrite unsubscribe_stopped|by rewrite unsubscribe_store|].
    unfold unsubscribe. destruct (derived s !! sub.1) as [sh0|] eqn:Ho;
      [|by apply Hbuf].
    pose proof (Shared_unsubscribe_buffer sub.1 sub.2
                  (hash_stateValueUpdated s) sh0) as Hb.
    pose proof (Shared_unsubscribe_name sub.1 sub.2
                  (hash_stateValueUpdated s) sh0) as [Hnm Hbf].
    destruct (Shared_unsubscribe _ _ _ _) as [n' sh'] eqn:Hun. simpl in *.
    intros i sh rs Hi Hname Hsize Hs.
    apply list_lookup_insert_Some in Hi as [(<- & <- & _)|[Hne Hi]];
      [|by eapply Hbuf].
    destruct (Hb rs Hs) as (rs0 & Hs0 & ->).
    unfold Shared_bufferSize in *. rewrite Hbf in Hsize. rewrite Hnm in Hname.
    by eapply Hbuf.
Qed.

Lemma Holds_run (name : string) (v : JsVal) (cs : list Call) (s : Service) :
  Service_wf s → Holds name v s → forallb (keeps name) cs = true →
  Holds name v (run cs s).
Proof.
  revert s. induction cs as [|c cs IH]; intros s Hwf HH Hq; simpl in *; [done|].
  apply andb_true_iff in Hq as [Hc Hq].
  apply IH; [by apply exec_wf|by apply Holds_step|done].
Qed.
(** Subscribing to a stream for [name] with a buffer of one while [name]
    holds [v]: the new subscriber is sent [v], once. *)
Lemma Holds_subscribe (name : string) (v : JsVal) (s : Service)
    (o : Observable) (sh : Shared) :
  Service_wf s → Holds name v s →
  derived s !! source o = Some sh → sh_name sh = name →
  Shared_bufferSize sh = 1%Z →
  fst (subscribe o s) = Some (source o, length (subscribers sh))
  ∧ received_by (source o, length (subscribers sh)) (snd (subscribe o s))
    = [Next v].
Proof.
  intros Hwf (Hn & Hm & Hbuf) Hi Hname Hsize.
  destruct (subject sh) as [rs|] eqn:Hs.
  - destruct (subscribe_connected o s sh rs Hwf Hi Hs) as (H1 & H2).
    split; [done|]. rewrite H2.
    destruct (open_subject_not_stopped s _ sh rs Hwf Hn Hi Hs) as (-> & _).
    rewrite (Hbuf _ sh rs Hi Hname Hsize Hs). simpl.
    by rewrite Subscriber_next_new.
  - pose proof (Service_wf_lookup s _ sh Hwf Hi) as Hsk.
    unfold Skel_wf, skel in Hsk; simpl in Hsk. rewrite Hs in Hsk.
    destruct Hsk as (Hc & _ & Hrc & _).
    assert (source o < length (derived s)) by (by eapply lookup_lt_Some).
    unfold subscribe. rewrite Hi. unfold Shared_subscribe. cbv zeta.
    rewrite Hs, Hc, Hrc, Hn. simpl. split; [done|].
    unfold received_by. simpl. rewrite list_lookup_insert_eq by done.
    unfold pipeline_trigger, Map_has, Map_get. simpl. rewrite Hname, Hm.
    rewrite bool_decide_eq_true_2 by eauto. simpl.
    rewrite list_lookup_alter_eq, list_lookup_middle by done. simpl.
    by rewrite Subscriber_next_new.
Qed.
(** ** The memory of [distinctUntilChanged] *)

Lemma foldl_alter_Forall {A : Type} (f : A → A) (P : A → Prop)
    (l : list nat) (D : list A) :
  (∀ x, P x → P (f x)) → Forall P D →
  Forall P (foldl (λ acc j, alter f j acc) D l).
Proof.
  intros Hf. revert D. induction l as [|j l IH]; intros D HD; simpl; [done|].
  apply IH. apply Forall_alter; auto.
Qed.

Lemma Memory_ok_new (cmp : option Comparator) : Memory_ok (Subscriber_new cmp).
Proof. done. Qed.

Lemma Memory_ok_next (v : JsVal) (x : Subscriber) :
  Memory_ok x → Memory_ok (Subscriber_next v x).
Proof.
  intros Hx.
  assert (Memory_ok (Subscriber_emit v x)) as He.
  { unfold Memory_ok, Subscriber_emit. simpl.
    by rewrite emissions_snoc_Next, last_snoc. }
  unfold Subscriber_next. destruct (closed x); [done|].
  destruct (comparator x) as [c|]; [|done].
  destruct (previousKey x) as [p|]; [|done].
  by destruct (c p v).
Qed.

Lemma Memory_ok_complete (x : Subscriber) :
  Memory_ok x → Memory_ok (Subscriber_complete x).
Proof.
  intros Hx. unfold Subscriber_complete.
  destruct (closed x); [done|]. unfold Memory_ok in *. simpl.
  by rewrite emissions_snoc_Complete.
Qed.

Lemma Memory_ok_replay (l : list JsVal) (x : Subscriber) :
  Memory_ok x → Memory_ok (foldl (λ sub v, Subscriber_next v sub) x l).
Proof.
  revert x. induction l as [|v l IH]; intros x Hx; simpl; [done|].
  by apply IH, Memory_ok_next.
Qed.

Lemma connection_next_memory (v : JsVal) (sh : Shared) :
  Shared_memory sh → Shared_memory (connection_next v sh).
Proof.
  unfold Shared_memory, connection_next. intros Hm.
  destruct (subject sh) as [rs|]; [|done].
  destruct (rs_isStopped rs); [done|]. simpl.
  apply foldl_alter_Forall; auto using Memory_ok_next.
Qed.

Lemma connection_complete_memory (sh : Shared) :
  Shared_memory sh → Shared_memory (connection_complete sh).
Proof.
  unfold Shared_memory, connection_complete. intros Hm.
  destruct (subject sh) as [rs|]; [|done].
  destruct (rs_isStopped rs); [done|]. simpl.
  apply foldl_alter_Forall; auto using Memory_ok_complete.
Qed.

Lemma pipeline_trigger_memory (m : gmap string JsVal) (sh : Shared) :
  Shared_memory sh → Shared_memory (pipeline_trigger m sh).
Proof.
  intros Hm. unfold pipeline_trigger. destruct (Map_has _ _); [|done].
  by apply connection_next_memory.
Qed.

Lemma pipeline_next_memory (m : gmap string JsVal) (n : string) (sh : Shared) :
  Shared_memory sh → Shared_memory (pipeline_next m n sh).
Proof.
  intros Hm. unfold pipeline_next. destruct (String.eqb _ _); [|done].
  by apply pipeline_trigger_memory.
Qed.

Lemma Shared_subscribe_memory (m : gmap string JsVal) (cmp : option Comparator)
    (i : nat) (n : Subject) (sh : Shared) :
  Shared_memory sh → Shared_memory (Shared_subscribe m cmp i n sh).2.
Proof.
  intros Hm. unfold Shared_subscribe. cbv zeta.
  assert (∀ y, Memory_ok y → Forall Memory_ok (subscribers sh ++ [y])) as Happ.
  { intros y Hy. apply Forall_app. split; [done|]. by apply Forall_singleton. }
  pose proof (Memory_ok_replay
                (rs_buffer (default ReplaySubject_new (subject sh)))
                (Subscriber_new cmp) (Memory_ok_new cmp)) as Hr.
  destruct (rs_isStopped _); simpl;
    (destruct (negb _ && _); simpl;
      [destruct (isStopped n); simpl;
        [apply connection_complete_memory|];
        apply pipeline_trigger_memory; unfold Shared_memory; simpl
      |unfold Shared_memory; simpl]);
    auto using Memory_ok_complete.
Qed.

Lemma Shared_unsubscribe_memory (i k : nat) (n : Subject) (sh : Shared) :
  Shared_memory sh → Shared_memory (Shared_unsubscribe i k n sh).2.
Proof.
  intros Hm. unfold Shared_unsubscribe.
  destruct (subscribers sh !! k) as [x|] eqn:Hx; [|done].
  destruct (closed x); [done|].
  assert (Forall Memory_ok (<[k:=Subscriber_close x]> (subscribers sh))).
  { apply Forall_insert; [done|].
    by apply (Forall_lookup_1 _ _ _ _ Hm Hx). }
  by destruct (_ && _).
Qed.

Lemma stateValue_memory (name : string) (v : JsVal) (s : Service) :
  Service_memory s → Service_memory (snd (stateValue name v s)).
Proof.
  intros Hm. unfold stateValue. destruct (is_undefined v); [done|]. simpl.
  unfold Subject_next. simpl. destruct (isStopped _); [done|].
  unfold Service_memory. simpl.
  apply foldl_alter_Forall; auto using pipeline_next_memory.
Qed.

Lemma stateValue_dollar_memory (name : string) (opts : option IStateOpts)
    (s : Service) :
  Service_memory s → Service_memory (snd (stateValue_dollar name opts s)).
Proof.
  intros Hm. unfold stateValue_dollar. cbv zeta.
  assert (∀ s1, Service_memory s1 →
            Forall Shared_memory
              (derived s1 ++ [Shared_new name (merged_buffer opts)])) as Happ.
  { intros s1 H1. apply Forall_app. split; [done|].
    apply Forall_singleton. by apply Forall_nil. }
  destruct (_ && _); destruct (truthy _); simpl;
    try apply Happ; auto using stateValue_memory.
Qed.

Lemma exec_memory (s : Service) (c : Call) :
  Service_memory s → Service_memory (exec s c).
Proof.
  intros Hm. destruct c; simpl; try done.
  - by apply stateValue_memory.
  - by apply stateValue_dollar_memory.
  - rewrite stateValueDistinct_dollar_state. by apply stateValue_dollar_memory.
  - unfold subscribe. destruct (derived s !! source o) as [sh|] eqn:Ho; [|done].
    pose proof (Shared_subscribe_memory (hash_stateValue s) (distinct o)
                  (source o) (hash_stateValueUpdated s) sh) as Hs.
    destruct (Shared_subscribe _ _ _ _ _) as [n' sh']. simpl in *.
    apply Forall_insert; [done|]. apply Hs.
    by apply (Forall_lookup_1 _ _ _ _ Hm Ho).
  - unfold unsubscribe. destruct (derived s !! sub.1) as [sh|] eqn:Ho; [|done].
    pose proof (Shared_unsubscribe_memory sub.1 sub.2
                  (hash_stateValueUpdated s) sh) as Hs.
    destruct (Shared_unsubscribe _ _ _ _) as [n' sh']. simpl in *.
    apply Forall_insert; [done|]. apply Hs.
    by apply (Forall_lookup_1 _ _ _ _ Hm Ho).
  - unfold onDestroy, clearStateValues, Service_memory, Subject_complete.
    destruct (isStopped (hash_stateValueUpdated s)); simpl; [done|].
    apply foldl_alter_Forall; auto using connection_complete_memory.
Qed.

Lemma run_memory (cs : list Call) (s : Service) :
  Service_memory s → Service_memory (run cs s).
Proof.
  revert s. induction cs as [|c cs IH]; intros s Hm; simpl; [done|].
  by apply IH, exec_memory.
Qed.
Lemma Service_new_memory : Service_memory Service_new.
Proof. apply Forall_nil. done. Qed.

(** A write as seen by an attached [distinctUntilChanged] subscriber: the
    value is dropped exactly when the comparator finds it equal to the
    value delivered last. *)
Lemma stateValue_write_distinct (name : string) (v : JsVal) (s : Service)
    (i k : nat) (sh : Shared) (x : Subscriber) (cmp : Comparator) :
  Service_wf s → Service_memory s → is_undefined v = false →
  isStopped (hash_stateValueUpdated s) = false →
  derived s !! i = Some sh → sh_name sh = name →
  subscribers sh !! k = Some x → closed x = false → comparator x = Some cmp →
  received_by (i, k) (snd (stateValue name v s))
  = match last (emissions (received x)) with
    | Some p => if cmp p v then received x else received x ++ [Next v]
    | None => received x ++ [Next v]
    end.
Proof.
  intros Hwf Hmem Hv Hn Hi Hname Hk Hc Hcmp.
  destruct (stateValue_write_subscriber name v s i k sh x)
    as (sh' & Hi' & Hk'); try done.
  unfold received_by. cbn [fst snd]. rewrite Hi', Hk'. simpl.
  assert (Memory_ok x) as Hx.
  { eapply Forall_lookup_1; [|done]. by eapply (Forall_lookup_1 _ _ _ _ Hmem). }
  unfold Memory_ok in Hx. rewrite <- Hx.
  unfold Subscriber_next. rewrite Hc, Hcmp.
  destruct (previousKey x) as [p|]; [|done]. by destruct (cmp p v).
Qed.

(** The first two writes as seen through a fresh stream with a comparator. *)
Lemma fresh_distinct_two_writes (s0 : Service) (name : string)
    (opts : option IStateOpts) (cmp : Comparator) (v w : JsVal) :
  Service_wf s0 →
  isStopped (hash_stateValueUpdated s0) = false →
  hasStateValue name s0 = false →
  is_undefined (opts_initialValue opts) = true →
  truthy (merged_buffer opts) = true →
  is_undefined v = false → is_undefined w = false →
  let i := length (derived s0) in
  let s1 := snd (stateValue_dollar name opts s0) in
  let s2 := snd (subscribe (mkObservable i (Some cmp)) s1) in
  let s3 := snd (stateValue name v s2) in
  received_by (i, 0) s3 = [Next v]
  ∧ received_by (i, 0) (snd (stateValue name w s3))
    = if cmp v w then [Next v] else [Next v; Next w].
Proof.
  intros Hwf Hn Habs Hi Hb Hv Hw i s1 s2 s3.
  destruct (fresh_stream_Silent s0 name opts (Some cmp))
    as (_ & _ & Hwf2 & HS); try done.
  fold i s1 s2 in Hwf2, HS. destruct HS as (Hn2 & _ & sh & Hsh & Hname & Hk).
  simpl in Hsh, Hk.
  pose proof (Service_wf_lookup s2 i sh Hwf2 Hsh) as Hsk.
  destruct (open_subscriber_live sh 0 _ Hsk Hk eq_refl) as (Hl & rs & Hs & Hst & _).
  assert (derived s3 !! i = Some (connection_next v sh)) as Hsh3.
  { subst s3. rewrite (stateValue_write_lookup name v s2 i sh) by done.
    by rewrite Hn2, Hl, Hname, String.eqb_refl. }
  assert (subscribers (connection_next v sh) !! 0
          = Some (mkSubscriber false (Some cmp) (Some v) [Next v])) as Hk3.
  { rewrite (connection_next_wf v sh rs) by done. simpl.
    by rewrite list_lookup_fmap, Hk. }
  split.
  - unfold received_by. cbn [fst snd]. by rewrite Hsh3, Hk3.
  - destruct (stateValue_write_subscriber name w s3 i 0 (connection_next v sh)
                (mkSubscriber false (Some cmp) (Some v) [Next v]))
      as (sh' & Hi' & Hk'); try done.
    + by apply stateValue_wf.
    + subst s3. by rewrite stateValue_write_notifier.
    + by rewrite (proj1 (connection_next_name v sh)).
    + unfold received_by. cbn [fst snd]. rewrite Hi', Hk'.
      unfold Subscriber_next. simpl. by destruct (cmp v w).
Qed.

Lemma Object_is_refl (a : JsVal) : Object_is a a = true.
Proof.
  destruct a; simpl; try done.
  - by destruct b.
  - apply Z.eqb_refl.
  - apply String.eqb_refl.
  - apply Nat.eqb_refl.
Qed.

(** * Properties of the specification *)

(** C1.  A stream obtained from [stateValue$] while the slot has no value
    (no [initialValue] option, service alive) sends its subscriber nothing
    when it attaches, and nothing during any later calls that do not store
    under the name; the first write [stateValue(name, v)] then sends it
    exactly [v]. *)
Theorem stream_emits_nothing_until_first_set (cs quiet : list Call)
    (name : string) (opts : option IStateOpts) (v : JsVal) :
  let s0 := run cs Service_new in
  let i := length (derived s0) in
  let s1 := snd (stateValue_dollar name opts s0) in
  let s2 := snd (subscribe (mkObservable i None) s1) in
  isStopped (hash_stateValueUpdated s0) = false →
  hasStateValue name s0 = false →
  is_undefined (opts_initialValue opts) = true →
  truthy (merged_buffer opts) = true →
  forallb (silent_for name (i, 0)) quiet = true →
  is_undefined v = false →
  fst (stateValue_dollar name opts s0) = inr (mkObservable i None)
  ∧ fst (subscribe (mkObservable i None) s1) = Some (i, 0)
  ∧ received_by (i, 0) s2 = []
  ∧ received_by (i, 0) (run quiet s2) = []
  ∧ received_by (i, 0) (snd (stateValue name v (run quiet s2))) = [Next v].
Proof.
  intros s0 i s1 s2 Hn Habs Hi Hb Hq Hv.
  apply fresh_stream_silent_until_set; try done.
  apply run_wf, Service_new_wf.
Qed.

Lemma stream_emits_nothing_until_first_set_witness :
  let cs := [call_stateValue "other" (JNum 5)] in
  let quiet := [call_stateValue "other" (JNum 6); call_removeStateValue "count";
                call_stateValue_dollar "count" None;
                call_subscribe (mkObservable 1 None)] in
  let s0 := run cs Service_new in
  let s2 := snd (subscribe (mkObservable 0 None)
                   (snd (stateValue_dollar "count" None s0))) in
  received_by (0, 0) (run quiet s2) = []
  ∧ received_by (0, 0) (snd (stateValue "count" (JNum 7) (run quiet s2)))
    = [Next (JNum 7)].
Proof.
  pose proof (stream_emits_nothing_until_first_set
                [call_stateValue "other" (JNum 5)]
                [call_stateValue "other" (JNum 6); call_removeStateValue "count";
                 call_stateValue_dollar "count" None;
                 call_subscribe (mkObservable 1 None)]
                "count" None (JNum 7)
                eq_refl eq_refl eq_refl eq_refl eq_refl eq_refl)
    as (_ & _ & _ & H4 & H5).
  split; [exact H4 | exact H5].
Defined.

(** C2.  After [stateValue(name, v1)] and then [stateValue(name, v2)], and
    any further calls that neither write nor remove the slot, a subscriber
    attaching to any stream for the name with the default buffer of one
    (a stream made before or after the writes, plain or distinct) is sent
    exactly one value at once: [v2]. *)
Theorem late_subscriber_gets_latest_value_only (cs later : list Call)
    (name : string) (v1 v2 : JsVal) (i : nat) (cmp : option Comparator) :
  let s := run cs Service_new in
  let s3 := run later (snd (stateValue name v2 (snd (stateValue name v1 s)))) in
  let o := mkObservable i cmp in
  isStopped (hash_stateValueUpdated s) = false →
  is_undefined v1 = false → is_undefined v2 = false →
  forallb (keeps name) later = true →
  (λ sh, (sh_name sh, sh_buffer sh)) <$> derived s3 !! i = Some (name, 1%Z) →
  ∃ k, fst (subscribe o s3) = Some (i, k)
       ∧ received_by (i, k) (snd (subscribe o s3)) = [Next v2].
Proof.
  intros s s3 o Hn Hv1 Hv2 Hq Hi.
  assert (Service_wf s) as Hwf by apply run_wf, Service_new_wf.
  assert (Service_wf (snd (stateValue name v1 s))) as Hwf1
    by (by apply stateValue_wf).
  assert (Service_wf (snd (stateValue name v2 (snd (stateValue name v1 s)))))
    as Hwf2 by (by apply stateValue_wf).
  assert (Holds name v2 s3) as HH.
  { apply Holds_run; [done| |done]. apply Holds_after_write; try done.
    by rewrite stateValue_write_notifier. }
  destruct (derived s3 !! i) as [sh|] eqn:Hsh; [|done].
  injection Hi as Hname Hb.
  exists (length (subscribers sh)).
  apply (Holds_subscribe name v2 s3 o sh); try done.
  - by apply run_wf.
  - unfold Shared_bufferSize. by rewrite Hb.
Qed.

Lemma late_subscriber_gets_latest_value_only_witness :
  let cs := [call_stateValue_dollar "count" None;
             call_subscribe (mkObservable 0 None)] in
  let later := [call_stateValue "other" (JNum 7);
                call_stateValue_dollar "count" None] in
  let s3 := run later
              (snd (stateValue "count" (JNum 2)
                      (snd (stateValue "count" (JNum 1)
                              (run cs Service_new))))) in
  (∃ k, fst (subscribe (mkObservable 0 None) s3) = Some (0, k)
        ∧ received_by (0, k) (snd (subscribe (mkObservable 0 None) s3))
          = [Next (JNum 2)])
  ∧ (∃ k, fst (subscribe (mkObservable 1 None) s3) = Some (1, k)
          ∧ received_by (1, k) (snd (subscribe (mkObservable 1 None) s3))
            = [Next (JNum 2)]).
Proof.
  split.
  - exact (late_subscriber_gets_latest_value_only
             [call_stateValue_dollar "count" None;
              call_subscribe (mkObservable 0 None)]
             [call_stateValue "other" (JNum 7);
              call_stateValue_dollar "count" None]
             "count" (JNum 1) (JNum 2) 0 None
             eq_refl eq_refl eq_refl eq_refl eq_refl).
  - exact (late_subscriber_gets_latest_value_only
             [call_stateValue_dollar "count" None;
              call_subscribe (mkObservable 0 None)]
             [call_stateValue "other" (JNum 7);
              call_stateValue_dollar "count" None]
             "count" (JNum 1) (JNum 2) 1 None
             eq_refl eq_refl eq_refl eq_refl eq_refl).
Defined.

(** C3, refuted as stated.  After the teardown a derived stream can still
    deliver a value: a subscriber that attaches to a stream that was
    connected at teardown is sent the replayed value, then completion. *)
Lemma late_subscriber_after_teardown_gets_replay :
  let s := run [call_stateValue "count" (JNum 1);
                call_stateValue_dollar "count" None;
                call_subscribe (mkObservable 0 None)] Service_new in
  let t := onDestroy s in
  hasStateValue "count" t = false
  ∧ received_by (0, 0) t = [Next (JNum 1); Complete]
  ∧ fst (subscribe (mkObservable 0 None) t) = Some (0, 1)
  ∧ received_by (0, 1) (snd (subscribe (mkObservable 0 None) t))
    = [Next (JNum 1); Complete].
Proof. split_and!; reflexivity. Qed.

(** C3, amended.  The teardown completes the notifier and then clears the
    map; running it again changes nothing.  Right after it no name is
    present.  A subscriber that was attached is sent completion, and no
    subscriber that existed at teardown is sent anything afterwards,
    whatever is called later.  A subscriber attaching afterwards to a
    stream whose subject existed at teardown is sent the replayed buffer
    and then completion. *)
Theorem teardown_completes_then_clears (cs later : list Call) (name : string)
    (i k : nat) (sh : Shared) (x : Subscriber) :
  let s := run cs Service_new in
  let t := onDestroy s in
  t = clearStateValues (Subject_complete s)
  ∧ onDestroy t = t
  ∧ isStopped (hash_stateValueUpdated t) = true
  ∧ observers (hash_stateValueUpdated t) = []
  ∧ hasStateValue name t = false
  ∧ (derived s !! i = Some sh → subscribers sh !! k = Some x →
     received_by (i, k) t
     = (if closed x then received x else received x ++ [Complete])
     ∧ received_by (i, k) (run later t) = received_by (i, k) t)
  ∧ (∀ rs, derived s !! i = Some sh → subject sh = Some rs →
       received_by (i, length (subscribers sh))
         (snd (subscribe (mkObservable i None) t))
       = (Next <$> rs_buffer rs) ++ [Complete]).
Proof.
  intros s t.
  assert (Service_wf s) as Hwf by apply run_wf, Service_new_wf.
  assert (Service_wf t) as Hwft by (by apply onDestroy_wf).
  assert (isStopped (hash_stateValueUpdated t) = true) as Hst
    by apply Subject_complete_stopped.
  split_and!; try done.
  - apply onDestroy_idempotent.
  - by apply onDestroy_observers.
  - intros Hi Hk.
    destruct (onDestroy_subscriber s i k sh x Hwf Hi Hk) as (sh' & Hi' & Hk').
    assert (received_by (i, k) t = received (Subscriber_complete x)) as Hrec.
    { unfold received_by. subst t. cbn [fst snd]. by rewrite Hi', Hk'. }
    split; [by rewrite Hrec, received_Subscriber_complete|].
    rewrite Hrec.
    destruct (closed_forever_run k (Subscriber_complete x)
                (closed_Subscriber_complete x) i later t) as (sh2 & Hi2 & Hk2);
      [by eauto|].
    unfold received_by. cbn [fst snd]. by rewrite Hi2, Hk2.
  - intros rs Hi Hs.
    destruct (onDestroy_subject s i sh rs Hwf Hi Hs)
      as (sh1 & rs1 & Hi1 & Hlen & Hs1 & Hbuf & Hstop).
    destruct (subscribe_connected (mkObservable i None) t sh1 rs1 Hwft Hi1 Hs1)
      as (_ & Hr).
    simpl in Hr. rewrite Hlen, Hstop, Hbuf in Hr. rewrite Hr.
    unfold Subscriber_new. by rewrite replay_plain.
Qed.

Lemma teardown_completes_then_clears_witness :
  let s := run [call_stateValue "count" (JNum 1);
                call_stateValue_dollar "count" None;
                call_subscribe (mkObservable 0 None)] Service_new in
  let later := [call_stateValue "count" (JNum 2);
                call_subscribe (mkObservable 0 None)] in
  hasStateValue "count" (onDestroy s) = false
  ∧ received_by (0, 0) (onDestroy s) = [Next (JNum 1); Complete]
  ∧ received_by (0, 0) (run later (onDestroy s))
    = received_by (0, 0) (onDestroy s).
Proof.
  pose proof (teardown_completes_then_clears
                [call_stateValue "count" (JNum 1);
                 call_stateValue_dollar "count" None;
                 call_subscribe (mkObservable 0 None)]
                [call_stateValue "count" (JNum 2);
                 call_subscribe (mkObservable 0 None)]
                "count" 0 0
                (mkShared "count" 1
                   (Some (mkReplaySubject [JNum 1] false [0])) true 1 false
                   [mkSubscriber false None (Some (JNum 1)) [Next (JNum 1)]])
                (mkSubscriber false None (Some (JNum 1)) [Next (JNum 1)]))
    as (_ & _ & _ & _ & H5 & H6 & _).
  destruct (H6 eq_refl eq_refl) as (H7 & H8).
  split_and!; [exact H5 | exact H7 | exact H8].
Defined.

(** C4 (what the code does).  With [buffer: 0] the last argument handed to
    [pipe] is [undefined], so [stateValue$] throws instead of returning a
    stream; no stream comes into being (the seeding, if any, has already
    happened). *)
Theorem stateValue_dollar_buffer_zero_throws (name : string)
    (init : option JsVal) (s : Service) :
  fst (stateValue_dollar name (Some (mkOpts (Some 0%Z) init)) s)
  = inl TypeError_not_a_function
  ∧ length (derived (snd (stateValue_dollar name
                            (Some (mkOpts (Some 0%Z) init)) s)))
    = length (derived s).
Proof.
  unfold stateValue_dollar. simpl. split; [done|].
  destruct (_ && _); [|done]. apply stateValue_write_length.
Qed.

(** C5, refuted as stated.  A write after the teardown is stored: the
    slot is reported present and the value can be read back. *)
Lemma set_after_teardown_is_stored :
  let t := onDestroy (snd (stateValue "count" (JNum 1) Service_new)) in
  hasStateValue "count" t = false
  ∧ hasStateValue "count" (snd (stateValue "count" (JNum 2) t)) = true
  ∧ fst (stateValue "count" JUndefined (snd (stateValue "count" (JNum 2) t)))
    = JNum 2
  ∧ ¬ (∀ (name : string) (v : JsVal) (s : Service),
         hasStateValue name (snd (stateValue name v (onDestroy s))) = false).
Proof.
  split_and!; try reflexivity.
  intros H. specialize (H "count" (JNum 2) Service_new). discriminate H.
Qed.

(** C5, amended.  After the teardown the notifier is stopped and the map is
    empty, so reads report absence and a notification reaches no one.  A
    later write of a defined value is still stored (the slot becomes
    present and the value is read back); it changes no stream and no
    subscriber. *)
Theorem after_teardown_reads_absent_writes_stored (s : Service)
    (name : string) (v : JsVal) :
  is_undefined v = false →
  let t := onDestroy s in
  let t' := snd (stateValue name v t) in
  isStopped (hash_stateValueUpdated t) = true
  ∧ hasStateValue name t = false
  ∧ fst (stateValue name JUndefined t) = JUndefined
  ∧ Subject_next name t = t
  ∧ hasStateValue name t' = true
  ∧ fst (stateValue name JUndefined t') = v
  ∧ derived t' = derived t
  ∧ hash_stateValueUpdated t' = hash_stateValueUpdated t.
Proof.
  intros Hv t t'.
  assert (isStopped (hash_stateValueUpdated t) = true) as Hst
    by apply Subject_complete_stopped.
  assert (t' = mkService (<[name := v]> (hash_stateValue t))
                 (hash_stateValueUpdated t) (derived t)) as ->.
  { subst t'. unfold stateValue. rewrite Hv. simpl.
    by rewrite Subject_next_stopped. }
  split_and!; try done.
  - by apply Subject_next_stopped.
  - unfold hasStateValue, Map_has. simpl. rewrite lookup_insert_eq.
    by rewrite bool_decide_eq_true_2 by eauto.
  - unfold stateValue, Map_get. simpl. by rewrite lookup_insert_eq.
Qed.

Lemma after_teardown_reads_absent_writes_stored_witness :
  is_undefined (JNum 2) = false
  ∧ hasStateValue "count"
      (onDestroy (snd (stateValue "count" (JNum 1) Service_new))) = false
  ∧ hasStateValue "count"
      (snd (stateValue "count" (JNum 2)
              (onDestroy (snd (stateValue "count" (JNum 1) Service_new)))))
    = true.
Proof.
  split; [reflexivity|].
  pose proof (after_teardown_reads_absent_writes_stored
                (snd (stateValue "count" (JNum 1) Service_new)) "count" (JNum 2)
                eq_refl) as (_ & H2 & _ & _ & H5 & _).
  split; [exact H2 | exact H5].
Defined.

(** C6, refuted as stated.  A subscriber of an earlier stream for the name
    is sent the seeded value the moment a later [stateValue$] call seeds
    the absent slot. *)
Lemma seeding_reaches_earlier_subscribers :
  let s := snd (subscribe (mkObservable 0 None)
                  (snd (stateValue_dollar "count" None Service_new))) in
  let s' := snd (stateValue_dollar "count"
                   (Some (mkOpts None (Some (JNum 1)))) s) in
  received_by (0, 0) s = [] ∧ received_by (0, 0) s' = [Next (JNum 1)].
Proof. split; reflexivity. Qed.

(** C6, amended.  Seeding an absent slot is the write
    [stateValue(name, initialValue)]: it stores the value and notifies.
    Every subscriber attached to a stream for the name is handed the value
    at once; a plain subscriber records it, a [distinctUntilChanged] one
    decides by its comparator. *)
Theorem seeding_is_a_write (cs : list Call) (name : string)
    (opts : option IStateOpts) (i k : nat) (sh : Shared) (x : Subscriber) :
  let s := run cs Service_new in
  let s' := snd (stateValue_dollar name opts s) in
  isStopped (hash_stateValueUpdated s) = false →
  hasStateValue name s = false →
  is_undefined (opts_initialValue opts) = false →
  derived s !! i = Some sh → sh_name sh = name →
  subscribers sh !! k = Some x → closed x = false →
  hash_stateValue s' = <[name := opts_initialValue opts]> (hash_stateValue s)
  ∧ received_by (i, k) s' = received (Subscriber_next (opts_initialValue opts) x)
  ∧ (comparator x = None →
     received_by (i, k) s' = received_by (i, k) s ++ [Next (opts_initialValue opts)]).
Proof.
  intros s s' Hn Habs Hv Hi Hname Hk Hc.
  assert (Service_wf s) as Hwf by apply run_wf, Service_new_wf.
  destruct (stateValue_write_subscriber name (opts_initialValue opts) s i k sh x)
    as (sh' & Hi' & Hk'); try done.
  assert (received_by (i, k) s'
          = received (Subscriber_next (opts_initialValue opts) x)) as Hrec.
  { subst s'. unfold stateValue_dollar, hasStateValue in *. cbv zeta.
    rewrite Hv, Habs. simpl. unfold received_by.
    destruct (truthy _); simpl.
    - rewrite lookup_app_l by (by eapply lookup_lt_Some). by rewrite Hi', Hk'.
    - by rewrite Hi', Hk'. }
  split_and!.
  - subst s'. rewrite stateValue_dollar_store. unfold hasStateValue in Habs.
    by rewrite Hv, Habs.
  - done.
  - intros Hcmp. rewrite Hrec. unfold received_by. simpl. rewrite Hi, Hk. simpl.
    unfold Subscriber_next. by rewrite Hc, Hcmp.
Qed.

Lemma seeding_is_a_write_witness :
  let s := run [call_stateValue_dollar "count" None;
                call_subscribe (mkObservable 0 None)] Service_new in
  let s' := snd (stateValue_dollar "count"
                   (Some (mkOpts None (Some (JNum 1)))) s) in
  hasStateValue "count" s = false
  ∧ received_by (0, 0) s' = received_by (0, 0) s ++ [Next (JNum 1)].
Proof.
  split; [reflexivity|].
  pose proof (seeding_is_a_write
                [call_stateValue_dollar "count" None;
                 call_subscribe (mkObservable 0 None)]
                "count" (Some (mkOpts None (Some (JNum 1)))) 0 0
                (mkShared "count" 1 (Some (mkReplaySubject [] false [0]))
                   true 1 false [Subscriber_new None])
                (Subscriber_new None)
                eq_refl eq_refl eq_refl eq_refl eq_refl eq_refl eq_refl)
    as (_ & _ & H3).
  exact (H3 eq_refl).
Defined.

(** C7.  In every state the service can reach, no name is mapped to
    [undefined]; an attempt to store [undefined], through [stateValue] or
    through the [initialValue] option, leaves the map as it was. *)
Theorem store_never_holds_undefined (cs : list Call) (name : string)
    (b : option Z) (s : Service) :
  map_Forall (λ _ v, is_undefined v = false)
    (hash_stateValue (run cs Service_new))
  ∧ snd (stateValue name JUndefined s) = s
  ∧ hash_stateValue
      (snd (stateValue_dollar name (Some (mkOpts b (Some JUndefined))) s))
    = hash_stateValue s.
Proof.
  split_and!.
  - assert (∀ s0, map_Forall (λ _ v, is_undefined v = false) (hash_stateValue s0) →
              map_Forall (λ _ v, is_undefined v = false)
                (hash_stateValue (run cs s0))) as Hrun.
    { induction cs as [|c cs IH]; intros s0 H0; simpl; [done|].
      by apply IH, exec_store_defined. }
    apply Hrun. apply map_Forall_empty.
  - done.
  - by rewrite stateValue_dollar_store.
Qed.

(** C8.  [stateValueDistinct$] wraps the stream in [distinctUntilChanged]
    with the caller's [distinctFn] when one is given and with
    [Object.is] otherwise.  [Object.is] holds of a value and itself and
    fails for two objects with different references, whatever their
    contents.  A subscriber of such a stream drops a written value exactly
    when the comparator finds it equal to the value delivered to it last;
    in particular, on a fresh stream, of two writes [v] then [w] the second
    is dropped exactly when the comparator holds of [v] and [w]. *)
Theorem distinct_stream_drops_repeats (cs : list Call) (name : string)
    (opts : option IStateOptsWithDistinct) (v w : JsVal) (i k : nat)
    (sh : Shared) (x : Subscriber) (c : Comparator) :
  let s := run cs Service_new in
  let cmp := default defaultDistinctFn (opts ≫= distinctFn) in
  let j := length (derived s) in
  let s1 := snd (stateValueDistinct_dollar name opts s) in
  let s2 := snd (subscribe (mkObservable j (Some cmp)) s1) in
  let s3 := snd (stateValue name v s2) in
  isStopped (hash_stateValueUpdated s) = false →
  is_undefined v = false → is_undefined w = false →
  (∀ a b, defaultDistinctFn a b = Object_is a b)
  ∧ (∀ a, Object_is a a = true)
  ∧ (∀ r r' f f', r ≠ r' → Object_is (JObj r f) (JObj r' f') = false)
  ∧ (∀ o, fst (stateValueDistinct_dollar name opts s) = inr o →
          distinct o = Some cmp)
  ∧ (derived s !! i = Some sh → sh_name sh = name →
     subscribers sh !! k = Some x → closed x = false →
     comparator x = Some c →
     received_by (i, k) (snd (stateValue name v s))
     = match last (emissions (received x)) with
       | Some p => if c p v then received x else received x ++ [Next v]
       | None => received x ++ [Next v]
       end)
  ∧ (hasStateValue name s = false →
     is_undefined (opts_initialValue (base_opts <$> opts)) = true →
     truthy (merged_buffer (base_opts <$> opts)) = true →
     fst (stateValueDistinct_dollar name opts s) = inr (mkObservable j (Some cmp))
     ∧ received_by (j, 0) s3 = [Next v]
     ∧ received_by (j, 0) (snd (stateValue name w s3))
       = if cmp v w then [Next v] else [Next v; Next w]).
Proof.
  intros s cmp j s1 s2 s3 Hn Hv Hw.
  assert (Service_wf s) as Hwf by apply run_wf, Service_new_wf.
  assert (Service_memory s) as Hmem by apply run_memory, Service_new_memory.
  split_and!.
  - done.
  - apply Object_is_refl.
  - intros r r' f f' Hne. simpl. by apply Nat.eqb_neq.
  - intros o. unfold stateValueDistinct_dollar.
    destruct (stateValue_dollar _ _ _) as [[e|o'] s']; simpl; [done|].
    by intros [= <-].
  - intros Hi Hname Hk Hc Hcmp.
    by apply (stateValue_write_distinct name v s i k sh x c).
  - intros Habs Hi Hb.
    subst s3 s2 s1. rewrite stateValueDistinct_dollar_state.
    split.
    + unfold stateValueDistinct_dollar.
      by rewrite stateValue_dollar_plain by done.
    + by apply fresh_distinct_two_writes.
Qed.

Lemma distinct_stream_drops_repeats_witness :
  let o1 := JObj 1 [("x", JNum 1)] in
  let o2 := JObj 2 [("x", JNum 1)] in
  let fresh (f : option Comparator) (v w : JsVal) :=
    let cmp := default defaultDistinctFn f in
    let s1 := snd (stateValueDistinct_dollar "count"
                     (Some (mkOptsDistinct (mkOpts None None) f)) Service_new) in
    let s2 := snd (subscribe (mkObservable 0 (Some cmp)) s1) in
    received_by (0, 0)
      (snd (stateValue "count" w (snd (stateValue "count" v s2)))) in
  fresh None o1 o1 = [Next o1]
  ∧ fresh None o1 o2 = [Next o1; Next o2]
  ∧ fresh (Some sameContent) o1 o2 = [Next o1]
  ∧ received_by (0, 0)
      (snd (stateValue "count" (JNum 1)
              (run [call_stateValueDistinct_dollar "count" None;
                    call_subscribe (mkObservable 0 (Some defaultDistinctFn));
                    call_stateValue "count" (JNum 1)] Service_new)))
    = [Next (JNum 1)].
Proof.
  pose (o1 := JObj 1 [("x", JNum 1)]).
  pose (o2 := JObj 2 [("x", JNum 1)]).
  pose (x := mkSubscriber false (Some defaultDistinctFn) (Some (JNum 1))
               [Next (JNum 1)]).
  pose (sh := mkShared "count" 1 (Some (mkReplaySubject [JNum 1] false [0]))
                true 1 false [x]).
  pose proof (distinct_stream_drops_repeats []
                "count" (Some (mkOptsDistinct (mkOpts None None) None))
                o1 o1 0 0 sh x defaultDistinctFn eq_refl eq_refl eq_refl)
    as (_ & _ & _ & _ & _ & H1).
  pose proof (distinct_stream_drops_repeats []
                "count" (Some (mkOptsDistinct (mkOpts None None) None))
                o1 o2 0 0 sh x defaultDistinctFn eq_refl eq_refl eq_refl)
    as (_ & _ & _ & _ & _ & H2).
  pose proof (distinct_stream_drops_repeats []
                "count"
                (Some (mkOptsDistinct (mkOpts None None) (Some sameContent)))
                o1 o2 0 0 sh x defaultDistinctFn eq_refl eq_refl eq_refl)
    as (_ & _ & _ & _ & _ & H3).
  pose proof (distinct_stream_drops_repeats
                [call_stateValueDistinct_dollar "count" None;
                 call_subscribe (mkObservable 0 (Some defaultDistinctFn));
                 call_stateValue "count" (JNum 1)]
                "count" None (JNum 1) (JNum 1) 0 0 sh x defaultDistinctFn
                eq_refl eq_refl eq_refl)
    as (_ & _ & _ & _ & H4 & _).
  split_and!.
  - exact (proj2 (proj2 (H1 eq_refl eq_refl eq_refl))).
  - exact (proj2 (proj2 (H2 eq_refl eq_refl eq_refl))).
  - exact (proj2 (proj2 (H3 eq_refl eq_refl eq_refl))).
  - exact (H4 eq_refl eq_refl eq_refl eq_refl eq_refl).
Defined.

(** C9, refuted as stated.  Between a remove and the next write, a stream
    for the name that is still connected from before the remove sends its
    buffered value to a subscriber that attaches now. *)
Lemma connected_stream_replays_after_remove :
  let s := run [call_stateValue "count" (JNum 1);
                call_stateValue_dollar "count" None;
                call_subscribe (mkObservable 0 None)] Service_new in
  let r := removeStateValue "count" s in
  hasStateValue "count" r = false
  ∧ fst (subscribe (mkObservable 0 None) r) = Some (0, 1)
  ∧ received_by (0, 1) (snd (subscribe (mkObservable 0 None) r))
    = [Next (JNum 1)].
Proof. split_and!; reflexivity. Qed.

(** C9, amended.  [removeStateValue] deletes the entry (and changes nothing
    when there is none); it touches neither the notifier nor any stream, so
    no subscriber is sent anything by it, and the name is absent right
    after.  Until the next write under the name, subscribers that stay
    attached to streams for the name are sent nothing, and a stream
    requested after the remove sends nothing; the next write is then
    delivered.  Only a subscriber that newly attaches to a stream still
    connected from before the remove is sent something: that stream's
    replayed buffer. *)
Theorem remove_is_silent (cs quiet : list Call) (name : string) (v : JsVal)
    (i k : nat) (sh : Shared) (x : Subscriber) :
  let s := run cs Service_new in
  let r := removeStateValue name s in
  let j := length (derived s) in
  let r2 := snd (subscribe (mkObservable j None)
                   (snd (stateValue_dollar name None r))) in
  isStopped (hash_stateValueUpdated s) = false →
  hash_stateValue r = delete name (hash_stateValue s)
  ∧ (hasStateValue name s = false → r = s)
  ∧ hash_stateValueUpdated r = hash_stateValueUpdated s
  ∧ derived r = derived s
  ∧ hasStateValue name r = false
  ∧ (derived s !! i = Some sh → sh_name sh = name →
     subscribers sh !! k = Some x →
     forallb (silent_for name (i, k)) quiet = true →
     received_by (i, k) (run quiet r) = received x)
  ∧ (forallb (silent_for name (j, 0)) quiet = true → is_undefined v = false →
     received_by (j, 0) r2 = []
     ∧ received_by (j, 0) (run quiet r2) = []
     ∧ received_by (j, 0) (snd (stateValue name v (run quiet r2))) = [Next v])
  ∧ (∀ rs, derived s !! i = Some sh → subject sh = Some rs →
       received_by (i, length (subscribers sh))
         (snd (subscribe (mkObservable i None) r))
       = Next <$> rs_buffer rs).
Proof.
  intros s r j r2 Hn.
  assert (Service_wf s) as Hwf by apply run_wf, Service_new_wf.
  assert (Service_wf r) as Hwfr by (by apply removeStateValue_wf).
  assert (hash_stateValue r !! name = None) as Habs by apply lookup_delete_eq.
  split_and!; try done.
  - intros Hs%Map_has_false. subst r. unfold removeStateValue.
    rewrite delete_id by done. by destruct s.
  - by apply Map_has_false.
  - intros Hi Hname Hk Hq.
    assert (Silent name (i, k) x r) as HS.
    { unfold Silent; split_and!; [done..|]. by exists sh. }
    pose proof (Silent_run _ _ _ quiet r Hwfr HS Hq) as (_ & _ & HS').
    by rewrite (received_by_holds _ _ _ _ HS').
  - intros Hq Hv.
    destruct (fresh_stream_silent_until_set r name None None quiet v)
      as (_ & _ & H3 & H4 & H5); try done.
    by apply Map_has_false.
  - intros rs Hi Hs.
    destruct (subscribe_connected (mkObservable i None) r sh rs Hwfr Hi Hs)
      as (_ & Hr).
    simpl in Hr. rewrite Hr.
    assert (rs_isStopped rs = false) as ->.
    { pose proof (Service_wf_lookup s i sh Hwf Hi) as Hsk.
      pose proof (Wf_open_not_completed _ _ i (skel sh) Hwf) as Hopen.
      rewrite list_lookup_fmap, Hi in Hopen. specialize (Hopen eq_refl Hn).
      unfold Skel_wf, skel in *; simpl in *. rewrite Hs in Hsk. simpl in Hsk.
      destruct Hsk as (_ & -> & _). done. }
    unfold Subscriber_new. by rewrite replay_plain.
Qed.

Lemma remove_is_silent_witness :
  let s := run [call_stateValue "count" (JNum 1);
                call_stateValue_dollar "count" None;
                call_subscribe (mkObservable 0 None)] Service_new in
  let quiet := [call_stateValue "other" (JNum 9)] in
  let r := removeStateValue "count" s in
  let r2 := snd (subscribe (mkObservable 1 None)
                   (snd (stateValue_dollar "count" None r))) in
  hasStateValue "count" r = false
  ∧ received_by (0, 0) (run quiet r) = [Next (JNum 1)]
  ∧ received_by (1, 0) (run quiet r2) = []
  ∧ received_by (1, 0) (snd (stateValue "count" (JNum 2) (run quiet r2)))
    = [Next (JNum 2)].
Proof.
  pose proof (remove_is_silent
                [call_stateValue "count" (JNum 1);
                 call_stateValue_dollar "count" None;
                 call_subscribe (mkObservable 0 None)]
                [call_stateValue "other" (JNum 9)]
                "count" (JNum 2) 0 0
                (mkShared "count" 1
                   (Some (mkReplaySubject [JNum 1] false [0])) true 1 false
                   [mkSubscriber false None (Some (JNum 1)) [Next (JNum 1)]])
                (mkSubscriber false None (Some (JNum 1)) [Next (JNum 1)])
                eq_refl)
    as (_ & _ & _ & _ & H5 & H6 & H7 & _).
  pose proof (H6 eq_refl eq_refl eq_refl eq_refl) as H6'.
  pose proof (H7 eq_refl eq_refl) as (_ & H8 & H9).
  split_and!; [exact H5 | exact H6' | exact H8 | exact H9].
Defined.

(** C10.  Called with a defined value, [stateValue] stores the value and
    notifies, and returns [undefined], not the value written; the
    one-argument form then returns the stored value.  The notification is
    observable: in every state the service can reach before its teardown,
    each subscriber attached to a stream for the name is handed the value
    by the write; a plain subscriber records it after what it had
    received. *)
Theorem stateValue_write_returns_undefined (name : string) (v : JsVal)
    (s : Service) :
  is_undefined v = false →
  fst (stateValue name v s) = JUndefined
  ∧ snd (stateValue name v s)
    = Subject_next name
        (mkService (<[name := v]> (hash_stateValue s))
           (hash_stateValueUpdated s) (derived s))
  ∧ hash_stateValue (snd (stateValue name v s)) !! name = Some v
  ∧ fst (stateValue name JUndefined (snd (stateValue name v s))) = v
  ∧ (∀ (cs : list Call) (i k : nat) (sh : Shared) (x : Subscriber),
       s = run cs Service_new →
       isStopped (hash_stateValueUpdated s) = false →
       derived s !! i = Some sh → sh_name sh = name →
       subscribers sh !! k = Some x → closed x = false →
       received_by (i, k) (snd (stateValue name v s))
       = received (Subscriber_next v x)
       ∧ (comparator x = None →
          received_by (i, k) (snd (stateValue name v s))
          = received_by (i, k) s ++ [Next v])).
Proof.
  intros Hv. split_and!.
  - unfold stateValue. by rewrite Hv.
  - unfold stateValue. by rewrite Hv.
  - by rewrite stateValue_write_store, Hv, lookup_insert_eq.
  - unfold stateValue at 1. simpl. unfold Map_get.
    by rewrite stateValue_write_store, Hv, lookup_insert_eq.
  - intros cs i k sh x Hs Hn Hi Hname Hk Hc.
    assert (Service_wf s) as Hwf by (subst s; apply run_wf, Service_new_wf).
    destruct (stateValue_write_subscriber name v s i k sh x)
      as (sh' & Hi' & Hk'); try done.
    assert (received_by (i, k) (snd (stateValue name v s))
            = received (Subscriber_next v x)) as Hrec.
    { unfold received_by. simpl. by rewrite Hi', Hk'. }
    split; [done|].
    intros Hcmp. rewrite Hrec. unfold received_by. simpl. rewrite Hi, Hk. simpl.
    unfold Subscriber_next. by rewrite Hc, Hcmp.
Qed.

Lemma stateValue_write_returns_undefined_witness :
  let s := run [call_stateValue_dollar "count" None;
                call_subscribe (mkObservable 0 None);
                call_stateValue "count" (JNum 1)] Service_new in
  let s' := snd (stateValue "count" (JNum 3) s) in
  is_undefined (JNum 3) = false
  ∧ fst (stateValue "count" (JNum 3) s) = JUndefined
  ∧ fst (stateValue "count" JUndefined s') = JNum 3
  ∧ received_by (0, 0) s = [Next (JNum 1)]
  ∧ received_by (0, 0) s' = [Next (JNum 1); Next (JNum 3)].
Proof.
  intros s s'. split; [reflexivity|].
  pose proof (stateValue_write_returns_undefined "count" (JNum 3) s
                eq_refl) as (H1 & _ & _ & H4 & H5).
  pose proof (H5 [call_stateValue_dollar "count" None;
                  call_subscribe (mkObservable 0 None);
                  call_stateValue "count" (JNum 1)] 0 0
                (mkShared "count" 1
                   (Some (mkReplaySubject [JNum 1] false [0]))
                   true 1 false
                   [mkSubscriber false None (Some (JNum 1)) [Next (JNum 1)]])
                (mkSubscriber false None (Some (JNum 1)) [Next (JNum 1)])
                eq_refl eq_refl eq_refl eq_refl eq_refl eq_refl)
    as (_ & H6).
  split_and!; [exact H1 | exact H4 | reflexivity | exact (H6 eq_refl)].
Defined.

(** * Further properties of the service *)
(** ** Reading the map *)

Lemma run_store_defined (cs : list Call) (s : Service) :
  map_Forall (λ _ v, is_undefined v = false) (hash_stateValue s) →
  map_Forall (λ _ v, is_undefined v = false) (hash_stateValue (run cs s)).
Proof.
  revert s. induction cs as [|c cs IH]; intros s Hs; simpl; [done|].
  by apply IH, exec_store_defined.
Qed.

Lemma reachable_lookup_defined (cs : list Call) (name : string) (v : JsVal) :
  hash_stateValue (run cs Service_new) !! name = Some v → is_undefined v = false.
Proof.
  intros Hv.
  by apply (run_store_defined cs Service_new (map_Forall_empty _) name v).
Qed.

Lemma reachable_read_undefined (cs : list Call) (name : string) :
  is_undefined (fst (stateValue name JUndefined (run cs Service_new)))
  = negb (hasStateValue name (run cs Service_new)).
Proof.
  unfold stateValue, hasStateValue, Map_get, Map_has. simpl.
  destruct (hash_stateValue (run cs Service_new) !! name) as [v|] eqn:Hv; simpl.
  - by rewrite (reachable_lookup_defined cs name v Hv).
  - done.
Qed.

(** X1.  In every reachable state the one-argument [stateValue] returns
    [undefined] exactly when [hasStateValue] is false: absence can be told
    from the value read. *)
Theorem read_is_undefined_iff_absent (cs : list Call) (name : string) :
  is_undefined (fst (stateValue name JUndefined (run cs Service_new)))
  = negb (hasStateValue name (run cs Service_new)).
Proof. apply reachable_read_undefined. Qed.

(** X2.  [stateValueOnce$] sends one value and completes.  After a write
    of [v] the value is [v]; in a reachable state it is [undefined]
    exactly when the slot is absent. *)
Theorem once_emits_current_value (cs : list Call) (name : string) (v : JsVal) :
  let s := run cs Service_new in
  is_undefined v = false →
  stateValueOnce_dollar name (snd (stateValue name v s)) = [Next v; Complete]
  ∧ (stateValueOnce_dollar name s = [Next JUndefined; Complete]
     ↔ hasStateValue name s = false).
Proof.
  intros s Hv. split.
  - unfold stateValueOnce_dollar. unfold stateValue at 1. simpl.
    unfold Map_get. by rewrite stateValue_write_store, Hv, lookup_insert_eq.
  - pose proof (reachable_read_undefined cs name) as Hr. fold s in Hr.
    unfold stateValueOnce_dollar.
    destruct (fst (stateValue name JUndefined s)) eqn:Hread;
      simpl in Hr; symmetry in Hr;
      [apply negb_true_iff in Hr|apply negb_false_iff in Hr..];
      rewrite Hr; by split.
Qed.

Lemma once_emits_current_value_witness :
  stateValueOnce_dollar "count"
    (snd (stateValue "count" (JNum 4)
            (run [call_stateValue "other" JNull] Service_new)))
  = [Next (JNum 4); Complete].
Proof.
  exact (proj1 (once_emits_current_value [call_stateValue "other" JNull]
                  "count" (JNum 4) eq_refl)).
Defined.

(** ** What stays in the map *)

Lemma exec_keeps_lookup (name : string) (v : JsVal) (s : Service) (c : Call) :
  hash_stateValue s !! name = Some v → keeps name c = true →
  hash_stateValue (exec s c) !! name = Some v.
Proof.
  intros Hm Hq.
  assert (∀ n opts, hash_stateValue (snd (stateValue_dollar n opts s)) !! name
                    = Some v) as Hstream.
  { intros n opts. rewrite stateValue_dollar_store.
    destruct (negb _ && negb (Map_has _ n)) eqn:Hc; [|done].
    apply andb_true_iff in Hc as [_ Hh]. apply negb_true_iff in Hh.
    apply Map_has_false in Hh.
    rewrite lookup_insert_ne; [done|]. intros ->. congruence. }
  destruct c; simpl in *; try done.
  - rewrite stateValue_write_store. destruct (is_undefined value) eqn:Hv; [done|].
    rewrite andb_true_r in Hq. apply negb_true_iff, String.eqb_neq in Hq.
    by rewrite lookup_insert_ne.
  - by rewrite stateValueDistinct_dollar_state.
  - apply negb_true_iff, String.eqb_neq in Hq. by rewrite lookup_delete_ne.
  - by rewrite subscribe_store.
  - by rewrite unsubscribe_store.
Qed.

(** X3.  A stored value has no lifetime of its own: after
    [stateValue(name, v)] the value is read back and the slot is present
    after any further calls, until the name is written again, removed,
    cleared or the service torn down. *)
Theorem stored_value_persists (cs later : list Call) (name : string)
    (v : JsVal) :
  let s := run later (snd (stateValue name v (run cs Service_new))) in
  is_undefined v = false → forallb (keeps name) later = true →
  fst (stateValue name JUndefined s) = v ∧ hasStateValue name s = true.
Proof.
  intros s Hv Hq.
  assert (hash_stateValue s !! name = Some v) as Hm.
  { subst s. generalize dependent (run cs Service_new). intros s0.
    assert (hash_stateValue (snd (stateValue name v s0)) !! name = Some v) as H0
      by (by rewrite stateValue_write_store, Hv, lookup_insert_eq).
    generalize dependent (snd (stateValue name v s0)). clear s0.
    induction later as [|c later IH]; intros s1 H1; simpl in *; [done|].
    apply andb_true_iff in Hq as [Hc Hq].
    apply IH; [done|]. by apply exec_keeps_lookup. }
  unfold stateValue, hasStateValue, Map_get, Map_has. simpl. rewrite Hm.
  split; [done|]. by rewrite bool_decide_eq_true_2 by eauto.
Qed.

Lemma stored_value_persists_witness :
  fst (stateValue "count" JUndefined
         (run [call_stateValue "other" (JNum 2);
               call_removeStateValue "other";
               call_stateValue_dollar "count" (Some (mkOpts None (Some JNull)))]
            (snd (stateValue "count" (JNum 1) Service_new))))
  = JNum 1.
Proof.
  exact (proj1 (stored_value_persists []
                  [call_stateValue "other" (JNum 2);
                   call_removeStateValue "other";
                   call_stateValue_dollar "count"
                     (Some (mkOpts None (Some JNull)))]
                  "count" (JNum 1) eq_refl eq_refl)).
Defined.

Lemma run_stopped (cs : list Call) (s : Service) :
  isStopped (hash_stateValueUpdated (run cs s))
  = isStopped (hash_stateValueUpdated s) || existsb is_teardown cs.
Proof.
  revert s. induction cs as [|c cs IH]; intros s; simpl.
  - by rewrite orb_false_r.
  - by rewrite IH, exec_stopped, orb_assoc.
Qed.

(** X4.  The notifier is stopped exactly when the teardown has run: no
    other call closes it, and nothing reopens it. *)
Theorem notifier_stopped_iff_torn_down (cs : list Call) :
  isStopped (hash_stateValueUpdated (run cs Service_new))
  = existsb is_teardown cs.
Proof. by rewrite run_stopped. Qed.

(** ** Which writes reach which subscribers *)

(** X5.  A write under one name leaves every stream for another name as
    it was: its buffer, its connection and everything its subscribers have
    been sent. *)
Theorem write_under_other_name_is_filtered (cs : list Call)
    (name : string) (v : JsVal) (i k : nat) (sh : Shared) :
  let s := run cs Service_new in
  derived s !! i = Some sh → sh_name sh ≠ name →
  derived (snd (stateValue name v s)) !! i = Some sh
  ∧ received_by (i, k) (snd (stateValue name v s)) = received_by (i, k) s.
Proof.
  intros s Hi Hne.
  assert (derived (snd (stateValue name v s)) !! i = Some sh) as Hi'.
  { apply stateValue_write_other; [apply run_wf, Service_new_wf|done|].
    apply andb_false_iff. left. apply String.eqb_neq. congruence. }
  split; [done|]. unfold received_by. cbn [fst snd]. by rewrite Hi', Hi.
Qed.

Lemma write_under_other_name_is_filtered_witness :
  let s := run [call_stateValue_dollar "count" None;
                call_subscribe (mkObservable 0 None)] Service_new in
  received_by (0, 0) (snd (stateValue "other" (JNum 1) s)) = received_by (0, 0) s.
Proof.
  refine (proj2 (write_under_other_name_is_filtered
                   [call_stateValue_dollar "count" None;
                    call_subscribe (mkObservable 0 None)]
                   "other" (JNum 1) 0 0
                   (mkShared "count" 1 (Some (mkReplaySubject [] false [0]))
                      true 1 false [Subscriber_new None])
                   eq_refl _)).
  discriminate.
Defined.

Lemma stateValue_write_attached (name : string) (v : JsVal) (s : Service)
    (i k : nat) (sh : Shared) (x : Subscriber) :
  Service_wf s → is_undefined v = false →
  isStopped (hash_stateValueUpdated s) = false →
  derived s !! i = Some sh → sh_name sh = name →
  subscribers sh !! k = Some x → closed x = false →
  derived (snd (stateValue name v s)) !! i = Some (connection_next v sh)
  ∧ sh_name (connection_next v sh) = name
  ∧ subscribers (connection_next v sh) !! k = Some (Subscriber_next v x).
Proof.
  intros Hwf Hv Hn Hi Hname Hk Hc.
  pose proof (Service_wf_lookup s i sh Hwf Hi) as Hsk.
  destruct (open_subscriber_live sh k x Hsk Hk Hc) as (Hl & rs & Hs & Hst & _).
  split_and!.
  - rewrite (stateValue_write_lookup name v s i sh) by done.
    by rewrite Hn, Hl, <- Hname, String.eqb_refl.
  - by rewrite (proj1 (connection_next_name v sh)).
  - rewrite (connection_next_wf v sh rs) by done. simpl.
    by rewrite list_lookup_fmap, Hk.
Qed.

(** X6.  A plain stream does not deduplicate: an attached subscriber of a
    [stateValue$] stream is sent every written value, in order, including
    a value equal to the one written before. *)
Theorem plain_subscriber_gets_every_write (cs : list Call) (name : string)
    (v w : JsVal) (i k : nat) (sh : Shared) (x : Subscriber) :
  let s := run cs Service_new in
  let s1 := snd (stateValue name v s) in
  let s2 := snd (stateValue name w s1) in
  isStopped (hash_stateValueUpdated s) = false →
  is_undefined v = false → is_undefined w = false →
  derived s !! i = Some sh → sh_name sh = name →
  subscribers sh !! k = Some x → closed x = false → comparator x = None →
  received_by (i, k) s1 = received x ++ [Next v]
  ∧ received_by (i, k) s2 = received x ++ [Next v; Next w].
Proof.
  intros s s1 s2 Hn Hv Hw Hi Hname Hk Hc Hcmp.
  assert (Service_wf s) as Hwf by apply run_wf, Service_new_wf.
  destruct (stateValue_write_attached name v s i k sh x)
    as (Hi1 & Hname1 & Hk1); try done.
  assert (Subscriber_next v x
          = mkSubscriber false None (Some v) (received x ++ [Next v])) as Hx1.
  { unfold Subscriber_next, Subscriber_emit. by rewrite Hc, Hcmp. }
  rewrite Hx1 in Hk1.
  destruct (stateValue_write_attached name w s1 i k (connection_next v sh)
              (mkSubscriber false None (Some v) (received x ++ [Next v])))
    as (Hi2 & _ & Hk2); try done.
  { by apply stateValue_wf. }
  { subst s1. by rewrite stateValue_write_notifier. }
  split.
  - unfold received_by. cbn [fst snd]. subst s1. by rewrite Hi1, Hk1.
  - unfold received_by. cbn [fst snd]. subst s2. rewrite Hi2, Hk2.
    unfold Subscriber_next. simpl. by rewrite <- app_assoc.
Qed.

Lemma plain_subscriber_gets_every_write_witness :
  let s := run [call_stateValue_dollar "count" None;
                call_subscribe (mkObservable 0 None)] Service_new in
  received_by (0, 0)
    (snd (stateValue "count" (JNum 1) (snd (stateValue "count" (JNum 1) s))))
  = [Next (JNum 1); Next (JNum 1)].
Proof.
  exact (proj2 (plain_subscriber_gets_every_write
                  [call_stateValue_dollar "count" None;
                   call_subscribe (mkObservable 0 None)]
                  "count" (JNum 1) (JNum 1) 0 0
                  (mkShared "count" 1 (Some (mkReplaySubject [] false [0]))
                     true 1 false [Subscriber_new None])
                  (Subscriber_new None)
                  eq_refl eq_refl eq_refl eq_refl eq_refl eq_refl eq_refl
                  eq_refl)).
Defined.

(** ** Unsubscribing *)

Lemma unsubscribe_subscriber (i k : nat) (s : Service) (sh : Shared)
    (x : Subscriber) :
  derived s !! i = Some sh → subscribers sh !! k = Some x →
  ∃ sh', derived (unsubscribe (i, k) s) !! i = Some sh'
         ∧ subscribers sh' !! k
           = Some (if closed x then x else Subscriber_close x).
Proof.
  intros Hi Hk. unfold unsubscribe. cbn [fst snd]. rewrite Hi.
  assert (i < length (derived s)) by (by eapply lookup_lt_Some).
  assert (k < length (subscribers sh)) by (by eapply lookup_lt_Some).
  unfold Shared_unsubscribe. rewrite Hk.
  destruct (closed x) eqn:Hc; simpl.
  - exists sh. by rewrite list_lookup_insert_eq.
  - destruct (_ && _); simpl; eexists;
      (split; [by apply list_lookup_insert_eq|]); simpl;
      by rewrite list_lookup_insert_eq.
Qed.

(** X7.  After [unsubscribe] the subscriber is sent nothing more, whatever
    is called later: no value, and no completion either. *)
Theorem unsubscribed_is_sent_nothing_more (cs later : list Call) (i k : nat)
    (sh : Shared) (x : Subscriber) :
  let s := run cs Service_new in
  derived s !! i = Some sh → subscribers sh !! k = Some x →
  received_by (i, k) (run later (unsubscribe (i, k) s)) = received x.
Proof.
  intros s Hi Hk.
  destruct (unsubscribe_subscriber i k s sh x Hi Hk) as (sh' & Hi' & Hk').
  set (y := if closed x then x else Subscriber_close x) in *.
  assert (closed y = true ∧ received y = received x) as [Hcy Hry].
  { subst y. by destruct (closed x) eqn:Hc. }
  destruct (closed_forever_run k y Hcy i later (unsubscribe (i, k) s))
    as (sh2 & Hi2 & Hk2); [by eauto|].
  unfold received_by. cbn [fst snd]. by rewrite Hi2, Hk2.
Qed.

Lemma unsubscribed_is_sent_nothing_more_witness :
  let s := run [call_stateValue_dollar "count" None;
                call_subscribe (mkObservable 0 None);
                call_subscribe (mkObservable 0 None);
                call_stateValue "count" (JNum 1)] Service_new in
  received_by (0, 0)
    (run [call_stateValue "count" (JNum 2); call_onDestroy]
       (unsubscribe (0, 0) s))
  = [Next (JNum 1)].
Proof.
  exact (unsubscribed_is_sent_nothing_more
           [call_stateValue_dollar "count" None;
            call_subscribe (mkObservable 0 None);
            call_subscribe (mkObservable 0 None);
            call_stateValue "count" (JNum 1)]
           [call_stateValue "count" (JNum 2); call_onDestroy] 0 0
           (mkShared "count" 1 (Some (mkReplaySubject [JNum 1] false [0; 1]))
              true 2 false
              [mkSubscriber false None (Some (JNum 1)) [Next (JNum 1)];
               mkSubscriber false None (Some (JNum 1)) [Next (JNum 1)]])
           (mkSubscriber false None (Some (JNum 1)) [Next (JNum 1)])
           eq_refl eq_refl).
Defined.

(** X8.  [refCount: true]: when the only attached subscriber of a stream
    unsubscribes, the stream drops its replay subject with its buffer and
    its connection leaves the notifier; the other connections stay. *)
Theorem last_unsubscribe_disconnects (cs : list Call) (i k j : nat)
    (sh : Shared) (rs : ReplaySubject) :
  let s := run cs Service_new in
  let s' := unsubscribe (i, k) s in
  isStopped (hash_stateValueUpdated s) = false →
  derived s !! i = Some sh → subject sh = Some rs → rs_observers rs = [k] →
  (∃ sh', derived s' !! i = Some sh' ∧ subject sh' = None
          ∧ connection sh' = false ∧ refCount sh' = 0)
  ∧ (i ∉ observers (hash_stateValueUpdated s'))
  ∧ (j ≠ i → (j ∈ observers (hash_stateValueUpdated s')
              ↔ j ∈ observers (hash_stateValueUpdated s))).
Proof.
  intros s s' Hn Hi Hs Hobs.
  assert (Service_wf s) as Hwf by apply run_wf, Service_new_wf.
  pose proof (Service_wf_lookup s i sh Hwf Hi) as Hsk.
  destruct (open_subject_not_stopped s i sh rs Hwf Hn Hi Hs) as (Hst & Hc).
  unfold Skel_wf, skel in Hsk; simpl in Hsk. rewrite Hs in Hsk. simpl in Hsk.
  destruct Hsk as (_ & Hh & _ & Hrc & _ & Hopen). rewrite Hobs in *.
  assert ((closed <$> subscribers sh) !! k = Some false) as Hk
    by (apply Hopen, list_elem_of_singleton; done).
  rewrite list_lookup_fmap in Hk.
  destruct (subscribers sh !! k) as [x|] eqn:Hx; [|done].
  simpl in Hk. injection Hk as Hcx.
  assert (i < length (derived s)) by (by eapply lookup_lt_Some).
  assert (NoDup (observers (hash_stateValueUpdated s))) as Hnd by apply Hwf.
  subst s'. unfold unsubscribe. cbn [fst snd]. rewrite Hi.
  unfold Shared_unsubscribe. rewrite Hx, Hcx, Hrc, <- Hh, Hst, Hc. simpl.
  split_and!.
  - eexists. split; [by apply list_lookup_insert_eq|]. done.
  - rewrite elem_of_arrRemove by done. by intros [_ ?].
  - intros Hne. rewrite elem_of_arrRemove by done. by intuition.
Qed.

Lemma last_unsubscribe_disconnects_witness :
  let s := run [call_stateValue_dollar "count" None;
                call_subscribe (mkObservable 0 None);
                call_stateValue "count" (JNum 1)] Service_new in
  0 ∉ observers (hash_stateValueUpdated (unsubscribe (0, 0) s)).
Proof.
  exact (proj1 (proj2 (last_unsubscribe_disconnects
           [call_stateValue_dollar "count" None;
            call_subscribe (mkObservable 0 None);
            call_stateValue "count" (JNum 1)] 0 0 0
           (mkShared "count" 1 (Some (mkReplaySubject [JNum 1] false [0]))
              true 1 false
              [mkSubscriber false None (Some (JNum 1)) [Next (JNum 1)]])
           (mkReplaySubject [JNum 1] false [0])
           eq_refl eq_refl eq_refl eq_refl))).
Defined.

Lemma subscribe_unconnected (s : Service) (o : Observable) (sh : Shared) :
  Service_wf s → derived s !! source o = Some sh → subject sh = None →
  fst (subscribe o s) = Some (source o, length (subscribers sh))
  ∧ received_by (source o, length (subscribers sh)) (snd (subscribe o s))
    = (if hasStateValue (sh_name sh) s
       then [Next (fst (stateValue (sh_name sh) JUndefined s))] else [])
      ++ (if isStopped (hash_stateValueUpdated s) then [Complete] else []).
Proof.
  intros Hwf Hi Hs. set (k := length (subscribers sh)).
  pose proof (Service_wf_lookup s _ sh Hwf Hi) as Hsk.
  unfold Skel_wf, skel in Hsk; simpl in Hsk. rewrite Hs in Hsk.
  destruct Hsk as (Hc & _ & Hrc & _).
  assert (source o < length (derived s)) by (by eapply lookup_lt_Some).
  unfold subscribe. rewrite Hi. unfold Shared_subscribe. cbv zeta.
  rewrite Hs, Hc, Hrc. simpl.
  unfold hasStateValue, stateValue. simpl. unfold pipeline_trigger. simpl.
  destruct (Map_has (hash_stateValue s) (sh_name sh)) eqn:Hh;
    destruct (isStopped (hash_stateValueUpdated s)) eqn:Hn; simpl;
    (split; [done|]); unfold received_by; simpl;
    rewrite list_lookup_insert_eq by done; simpl;
    rewrite ?list_lookup_alter_eq; fold k;
    rewrite ?list_lookup_alter_eq; rewrite list_lookup_middle by done; simpl;
    rewrite ?Subscriber_next_new; done.
Qed.

(** X9.  Subscribing to a stream that has no replay subject (never
    subscribed to, or left by its last subscriber) evaluates the slot now:
    the subscriber is sent the current value when the slot is present and
    nothing when it is absent; when the service has been torn down,
    completion follows at once. *)
Theorem subscribe_to_unconnected_stream_reads_store (cs : list Call)
    (o : Observable) (sh : Shared) :
  let s := run cs Service_new in
  let k := length (subscribers sh) in
  derived s !! source o = Some sh → subject sh = None →
  fst (subscribe o s) = Some (source o, k)
  ∧ received_by (source o, k) (snd (subscribe o s))
    = (if hasStateValue (sh_name sh) s
       then [Next (fst (stateValue (sh_name sh) JUndefined s))] else [])
      ++ (if isStopped (hash_stateValueUpdated s) then [Complete] else []).
Proof.
  intros s k Hi Hs. apply subscribe_unconnected; try done.
  apply run_wf, Service_new_wf.
Qed.

Lemma subscribe_to_unconnected_stream_reads_store_witness :
  let s := run [call_stateValue_dollar "count" None;
                call_subscribe (mkObservable 0 None);
                call_stateValue "count" (JNum 1);
                call_unsubscribe (0, 0);
                call_stateValue "count" (JNum 2)] Service_new in
  received_by (0, 1) (snd (subscribe (mkObservable 0 None) s)) = [Next (JNum 2)].
Proof.
  exact (proj2 (subscribe_to_unconnected_stream_reads_store
           [call_stateValue_dollar "count" None;
            call_subscribe (mkObservable 0 None);
            call_stateValue "count" (JNum 1);
            call_unsubscribe (0, 0);
            call_stateValue "count" (JNum 2)]
           (mkObservable 0 None)
           (mkShared "count" 1 None false 0 false
              [mkSubscriber true None (Some (JNum 1)) [Next (JNum 1)]])
           eq_refl eq_refl)).
Defined.

(** ** The [initialValue] option *)

Lemma stateValue_dollar_derived (name : string) (opts : option IStateOpts)
    (s : Service) :
  truthy (merged_buffer opts) = true →
  ∃ D, derived (snd (stateValue_dollar name opts s))
       = D ++ [Shared_new name (merged_buffer opts)]
       ∧ length D = length (derived s)
       ∧ fst (stateValue_dollar name opts s)
         = inr (mkObservable (length (derived s)) None).
Proof.
  intros Hb. unfold stateValue_dollar. cbv zeta. rewrite Hb.
  destruct (_ && _); simpl; eexists; (split; [done|]);
    by rewrite ?stateValue_write_length.
Qed.

(** The first subscriber of a stream just made. *)
Lemma new_stream_first_subscriber (name : string) (opts : option IStateOpts)
    (cmp : option Comparator) (s : Service) :
  Service_wf s → truthy (merged_buffer opts) = true →
  let s1 := snd (stateValue_dollar name opts s) in
  let j := length (derived s) in
  received_by (j, 0) (snd (subscribe (mkObservable j cmp) s1))
  = (if hasStateValue name s1
     then [Next (fst (stateValue name JUndefined s1))] else [])
    ++ (if isStopped (hash_stateValueUpdated s1) then [Complete] else []).
Proof.
  intros Hwf Hb s1 j.
  destruct (stateValue_dollar_derived name opts s Hb) as (D & HD & Hlen & _).
  fold s1 in HD. fold j in Hlen.
  assert (derived s1 !! j = Some (Shared_new name (merged_buffer opts))) as Hj.
  { rewrite HD, <- Hlen. by apply list_lookup_middle. }
  destruct (subscribe_unconnected s1 (mkObservable j cmp)
              (Shared_new name (merged_buffer opts))) as (_ & Hr); try done.
  by apply stateValue_dollar_wf.
Qed.

(** X10.  Existing data wins over [initialValue]: when the slot already
    holds a value, [stateValue$] with any [initialValue] stores nothing and
    notifies no one, it only adds the new stream; the first subscriber of
    that stream is sent the value the slot holds. *)
Theorem initialValue_is_ignored_when_present (cs : list Call) (name : string)
    (opts : option IStateOpts) (cmp : option Comparator) (v0 : JsVal) :
  let s := run cs Service_new in
  let j := length (derived s) in
  let s1 := snd (stateValue_dollar name opts s) in
  isStopped (hash_stateValueUpdated s) = false →
  hash_stateValue s !! name = Some v0 →
  truthy (merged_buffer opts) = true →
  stateValue_dollar name opts s
  = (inr (mkObservable j None),
     mkService (hash_stateValue s) (hash_stateValueUpdated s)
       (derived s ++ [Shared_new name (merged_buffer opts)]))
  ∧ received_by (j, 0) (snd (subscribe (mkObservable j cmp) s1)) = [Next v0].
Proof.
  intros s j s1 Hn Hm Hb.
  assert (Service_wf s) as Hwf by apply run_wf, Service_new_wf.
  assert (Map_has (hash_stateValue s) name = true) as Hh.
  { unfold Map_has. rewrite Hm. by rewrite bool_decide_eq_true_2 by eauto. }
  assert (stateValue_dollar name opts s
          = (inr (mkObservable j None),
             mkService (hash_stateValue s) (hash_stateValueUpdated s)
               (derived s ++ [Shared_new name (merged_buffer opts)]))) as Heq.
  { unfold stateValue_dollar. cbv zeta. by rewrite Hh, Hb, andb_false_r. }
  split; [done|].
  subst s1 j. rewrite (new_stream_first_subscriber name opts cmp s Hwf Hb).
  rewrite Heq. simpl. unfold hasStateValue, stateValue, Map_get. simpl.
  by rewrite Hh, Hn, Hm.
Qed.

Lemma initialValue_is_ignored_when_present_witness :
  let s := run [call_stateValue "count" (JNum 0)] Service_new in
  let s1 := snd (stateValue_dollar "count"
                   (Some (mkOpts None (Some (JNum 9)))) s) in
  received_by (0, 0) (snd (subscribe (mkObservable 0 None) s1))
  = [Next (JNum 0)].
Proof.
  exact (proj2 (initialValue_is_ignored_when_present
                  [call_stateValue "count" (JNum 0)] "count"
                  (Some (mkOpts None (Some (JNum 9)))) None (JNum 0)
                  eq_refl eq_refl eq_refl)).
Defined.

(** X11.  [initialValue] on an absent slot gives the stream a current
    value from the start: the slot is present afterwards, the value is
    read back, and the first subscriber of the new stream is sent it at
    once. *)
Theorem initialValue_seeds_absent_slot (cs : list Call) (name : string)
    (opts : option IStateOpts) (cmp : option Comparator) :
  let s := run cs Service_new in
  let j := length (derived s) in
  let v := opts_initialValue opts in
  let s1 := snd (stateValue_dollar name opts s) in
  isStopped (hash_stateValueUpdated s) = false →
  hasStateValue name s = false →
  is_undefined v = false →
  truthy (merged_buffer opts) = true →
  hasStateValue name s1 = true
  ∧ fst (stateValue name JUndefined s1) = v
  ∧ received_by (j, 0) (snd (subscribe (mkObservable j cmp) s1)) = [Next v].
Proof.
  intros s j v s1 Hn Habs Hv Hb.
  assert (Service_wf s) as Hwf by apply run_wf, Service_new_wf.
  assert (hash_stateValue s1 !! name = Some v) as Hm.
  { subst s1. rewrite stateValue_dollar_store. fold v.
    unfold hasStateValue in Habs. rewrite Hv, Habs. simpl.
    by rewrite lookup_insert_eq. }
  assert (hasStateValue name s1 = true) as Hh.
  { unfold hasStateValue, Map_has. rewrite Hm.
    by rewrite bool_decide_eq_true_2 by eauto. }
  assert (fst (stateValue name JUndefined s1) = v) as Hr.
  { unfold stateValue, Map_get. simpl. by rewrite Hm. }
  split_and!; try done.
  subst s1 j. rewrite (new_stream_first_subscriber name opts cmp s Hwf Hb).
  rewrite Hh, Hr, stateValue_dollar_notifier, Hn. done.
Qed.

Lemma initialValue_seeds_absent_slot_witness :
  let s1 := snd (stateValue_dollar "count"
                   (Some (mkOpts None (Some (JBool false)))) Service_new) in
  hasStateValue "count" s1 = true
  ∧ received_by (0, 0) (snd (subscribe (mkObservable 0 None) s1))
    = [Next (JBool false)].
Proof.
  pose proof (initialValue_seeds_absent_slot [] "count"
                (Some (mkOpts None (Some (JBool false)))) None
                eq_refl eq_refl eq_refl eq_refl) as (H1 & _ & H3).
  split; [exact H1 | exact H3].
Defined.

(** ** Clearing, and the failing stream request *)

(** X12.  [clearStateValues] empties the map and does nothing else: no
    name is present afterwards, nobody is notified, every stream and every
    subscriber is as before.  Unlike the teardown it leaves the streams
    working: the next write under a name reaches the subscribers attached
    to the streams for that name. *)
Theorem clear_keeps_streams_working (cs : list Call) (name other : string)
    (v : JsVal) (i k : nat) (sh : Shared) (x : Subscriber) :
  let s := run cs Service_new in
  let c := clearStateValues s in
  hasStateValue other c = false
  ∧ fst (stateValue other JUndefined c) = JUndefined
  ∧ hash_stateValueUpdated c = hash_stateValueUpdated s
  ∧ derived c = derived s
  ∧ clearStateValues c = c
  ∧ (isStopped (hash_stateValueUpdated s) = false → is_undefined v = false →
     derived s !! i = Some sh → sh_name sh = name →
     subscribers sh !! k = Some x → closed x = false →
     received_by (i, k) (snd (stateValue name v c))
     = received (Subscriber_next v x)).
Proof.
  intros s c.
  assert (Service_wf c) as Hwf
    by apply clearStateValues_wf, run_wf, Service_new_wf.
  split_and!; try done.
  intros Hn Hv Hi Hname Hk Hc.
  destruct (stateValue_write_subscriber name v c i k sh x)
    as (sh' & Hi' & Hk'); try done.
  unfold received_by. cbn [fst snd]. by rewrite Hi', Hk'.
Qed.

Lemma clear_keeps_streams_working_witness :
  let s := run [call_stateValue "count" (JNum 1);
                call_stateValue_dollar "count" None;
                call_subscribe (mkObservable 0 None)] Service_new in
  hasStateValue "count" (clearStateValues s) = false
  ∧ received_by (0, 0) (snd (stateValue "count" (JNum 2) (clearStateValues s)))
    = [Next (JNum 1); Next (JNum 2)].
Proof.
  pose proof (clear_keeps_streams_working
                [call_stateValue "count" (JNum 1);
                 call_stateValue_dollar "count" None;
                 call_subscribe (mkObservable 0 None)]
                "count" "count" (JNum 2) 0 0
                (mkShared "count" 1
                   (Some (mkReplaySubject [JNum 1] false [0])) true 1 false
                   [mkSubscriber false None (Some (JNum 1)) [Next (JNum 1)]])
                (mkSubscriber false None (Some (JNum 1)) [Next (JNum 1)]))
    as (H1 & _ & _ & _ & _ & H6).
  split; [exact H1 | exact (H6 eq_refl eq_refl eq_refl eq_refl eq_refl eq_refl)].
Defined.

(** X13.  The seeding comes before the pipeline is built: with
    [buffer: 0] and a defined [initialValue] on an absent slot, the request
    throws and returns no stream, both from [stateValue$] and from
    [stateValueDistinct$], yet the value has been stored and the
    subscribers attached to the streams for the name have been sent it. *)
Theorem failing_request_has_already_seeded (cs : list Call) (name : string)
    (v : JsVal) (f : option Comparator) (i k : nat) (sh : Shared)
    (x : Subscriber) :
  let s := run cs Service_new in
  let opts := mkOpts (Some 0%Z) (Some v) in
  let r := stateValue_dollar name (Some opts) s in
  hasStateValue name s = false → is_undefined v = false →
  fst r = inl TypeError_not_a_function
  ∧ stateValueDistinct_dollar name (Some (mkOptsDistinct opts f)) s
    = (inl TypeError_not_a_function, snd r)
  ∧ snd r = snd (stateValue name v s)
  ∧ hasStateValue name (snd r) = true
  ∧ fst (stateValue name JUndefined (snd r)) = v
  ∧ (isStopped (hash_stateValueUpdated s) = false →
     derived s !! i = Some sh → sh_name sh = name →
     subscribers sh !! k = Some x → closed x = false →
     received_by (i, k) (snd r) = received (Subscriber_next v x)).
Proof.
  intros s opts r Habs Hv.
  assert (Service_wf s) as Hwf by apply run_wf, Service_new_wf.
  assert (r = (inl TypeError_not_a_function, snd (stateValue name v s))) as Hr.
  { subst r. unfold stateValue_dollar, hasStateValue in *. cbv zeta. simpl.
    by rewrite Hv, Habs. }
  assert (stateValueDistinct_dollar name (Some (mkOptsDistinct opts f)) s
          = (inl TypeError_not_a_function, snd r)) as Hd.
  { unfold stateValueDistinct_dollar.
    change (base_opts <$> Some (mkOptsDistinct opts f)) with (Some opts).
    fold r. by rewrite Hr. }
  clearbody r. subst r. simpl.
  assert (hash_stateValue (snd (stateValue name v s)) !! name = Some v) as Hm
    by (by rewrite stateValue_write_store, Hv, lookup_insert_eq).
  split_and!; try done.
  - unfold hasStateValue, Map_has. rewrite Hm.
    by rewrite bool_decide_eq_true_2 by eauto.
  - unfold Map_get. by rewrite Hm.
  - intros Hn Hi Hname Hk Hc.
    destruct (stateValue_write_subscriber name v s i k sh x)
      as (sh' & Hi' & Hk'); try done.
    unfold received_by. cbn [fst snd]. by rewrite Hi', Hk'.
Qed.

Lemma failing_request_has_already_seeded_witness :
  let s := run [call_stateValue_dollar "count" None;
                call_subscribe (mkObservable 0 None)] Service_new in
  let r := stateValue_dollar "count"
             (Some (mkOpts (Some 0%Z) (Some (JNum 5)))) s in
  fst r = inl TypeError_not_a_function
  ∧ hasStateValue "count" (snd r) = true
  ∧ received_by (0, 0) (snd r) = [Next (JNum 5)].
Proof.
  pose proof (failing_request_has_already_seeded
                [call_stateValue_dollar "count" None;
                 call_subscribe (mkObservable 0 None)]
                "count" (JNum 5) None 0 0
                (mkShared "count" 1 (Some (mkReplaySubject [] false [0]))
                   true 1 false [Subscriber_new None])
                (Subscriber_new None) eq_refl eq_refl)
    as (H1 & _ & _ & H4 & _ & H6).
  split_and!; [exact H1 | exact H4
              | exact (H6 eq_refl eq_refl eq_refl eq_refl eq_refl)].
Defined.

(** ** The replay buffer *)

Lemma trimBuffer_length (size : Z) (l : list JsVal) :
  (1 ≤ size)%Z → length (trimBuffer size l) ≤ Z.to_nat size.
Proof. intros Hs. unfold trimBuffer. rewrite length_drop. lia. Qed.

Lemma connection_next_buffer_ok (v : JsVal) (sh : Shared) :
  Shared_buffer_ok sh → Shared_buffer_ok (connection_next v sh).
Proof.
  unfold Shared_buffer_ok, connection_next. intros Hb rs'.
  destruct (subject sh) as [rs|] eqn:Hs; [|by rewrite Hs].
  specialize (Hb rs eq_refl).
  destruct (rs_isStopped rs); [rewrite Hs; by intros [= <-]|].
  simpl. intros [= <-]. simpl. unfold Shared_bufferSize. simpl.
  apply trimBuffer_length. lia.
Qed.

Lemma connection_complete_buffer_ok (sh : Shared) :
  Shared_buffer_ok sh → Shared_buffer_ok (connection_complete sh).
Proof.
  unfold Shared_buffer_ok, connection_complete. intros Hb rs'.
  destruct (subject sh) as [rs|] eqn:Hs; [|by simpl].
  specialize (Hb rs eq_refl).
  destruct (rs_isStopped rs); simpl; intros [= <-]; done.
Qed.

Lemma pipeline_trigger_buffer_ok (m : gmap string JsVal) (sh : Shared) :
  Shared_buffer_ok sh → Shared_buffer_ok (pipeline_trigger m sh).
Proof.
  intros Hb. unfold pipeline_trigger. destruct (Map_has _ _); [|done].
  by apply connection_next_buffer_ok.
Qed.

Lemma pipeline_next_buffer_ok (m : gmap string JsVal) (n : string)
    (sh : Shared) :
  Shared_buffer_ok sh → Shared_buffer_ok (pipeline_next m n sh).
Proof.
  intros Hb. unfold pipeline_next. destruct (String.eqb _ _); [|done].
  by apply pipeline_trigger_buffer_ok.
Qed.

Lemma Shared_subscribe_buffer_ok (m : gmap string JsVal)
    (cmp : option Comparator) (i : nat) (n : Subject) (sh : Shared) :
  Shared_buffer_ok sh → Shared_buffer_ok (Shared_subscribe m cmp i n sh).2.
Proof.
  intros Hb. unfold Shared_subscribe. cbv zeta.
  assert (length (rs_buffer (default ReplaySubject_new (subject sh)))
          ≤ Z.to_nat (Shared_bufferSize sh)) as Hd.
  { destruct (subject sh) as [rs|] eqn:Hs; simpl; [by apply Hb|lia]. }
  assert (∀ st obs c r h subs,
            Shared_buffer_ok
              (mkShared (sh_name sh) (sh_buffer sh)
                 (Some (mkReplaySubject
                          (rs_buffer (default ReplaySubject_new (subject sh)))
                          st obs)) c r h subs)) as Hmk.
  { intros st obs c r h subs rs'. simpl. by intros [= <-]. }
  assert (∀ c r h subs,
            Shared_buffer_ok
              (mkShared (sh_name sh) (sh_buffer sh)
                 (Some (default ReplaySubject_new (subject sh))) c r h subs))
    as Hmk'.
  { intros c r h subs rs'. simpl. by intros [= <-]. }
  destruct (rs_isStopped _); simpl;
    (destruct (negb _ && _); simpl; [|by auto]);
    (destruct (isStopped n); simpl;
      [apply connection_complete_buffer_ok|];
      apply pipeline_trigger_buffer_ok; auto).
Qed.

Lemma Shared_unsubscribe_buffer_ok (i k : nat) (n : Subject) (sh : Shared) :
  Shared_buffer_ok sh → Shared_buffer_ok (Shared_unsubscribe i k n sh).2.
Proof.
  intros Hb rs' Hs'.
  destruct (Shared_unsubscribe_buffer i k n sh rs' Hs') as (rs & Hs & ->).
  unfold Shared_bufferSize.
  rewrite (proj2 (Shared_unsubscribe_name i k n sh)). by apply Hb.
Qed.

Lemma exec_buffer_ok (s : Service) (c : Call) :
  Forall Shared_buffer_ok (derived s) →
  Forall Shared_buffer_ok (derived (exec s c)).
Proof.
  intros Hb.
  assert (∀ n v, Forall Shared_buffer_ok (derived (snd (stateValue n v s))))
    as Hset.
  { intros n v. unfold stateValue. destruct (is_undefined v); [done|]. simpl.
    unfold Subject_next. simpl. destruct (isStopped _); [done|]. simpl.
    apply foldl_alter_Forall; auto using pipeline_next_buffer_ok. }
  assert (∀ n opts,
            Forall Shared_buffer_ok (derived (snd (stateValue_dollar n opts s))))
    as Hstream.
  { intros n opts. unfold stateValue_dollar. cbv zeta.
    assert (Shared_buffer_ok (Shared_new n (merged_buffer opts))) as Hnew
      by (by intros rs).
    destruct (_ && _); destruct (truthy _); simpl; auto;
      apply Forall_app; split; auto. }
  destruct c; simpl; try done.
  - rewrite stateValueDistinct_dollar_state. apply Hstream.
  - unfold subscribe. destruct (derived s !! source o) as [sh|] eqn:Ho; [|done].
    pose proof (Shared_subscribe_buffer_ok (hash_stateValue s) (distinct o)
                  (source o) (hash_stateValueUpdated s) sh) as Hs.
    destruct (Shared_subscribe _ _ _ _ _) as [n' sh']. simpl in *.
    apply Forall_insert; [done|]. apply Hs.
    by apply (Forall_lookup_1 _ _ _ _ Hb Ho).
  - unfold unsubscribe. destruct (derived s !! sub.1) as [sh|] eqn:Ho; [|done].
    pose proof (Shared_unsubscribe_buffer_ok sub.1 sub.2
                  (hash_stateValueUpdated s) sh) as Hs.
    destruct (Shared_unsubscribe _ _ _ _) as [n' sh']. simpl in *.
    apply Forall_insert; [done|]. apply Hs.
    by apply (Forall_lookup_1 _ _ _ _ Hb Ho).
  - unfold onDestroy, clearStateValues, Subject_complete.
    destruct (isStopped (hash_stateValueUpdated s)); simpl; [done|].
    apply foldl_alter_Forall; auto using connection_complete_buffer_ok.
Qed.

Lemma run_buffer_ok (cs : list Call) (s : Service) :
  Forall Shared_buffer_ok (derived s) →
  Forall Shared_buffer_ok (derived (run cs s)).
Proof.
  revert s. induction cs as [|c cs IH]; intros s Hb; simpl; [done|].
  by apply IH, exec_buffer_ok.
Qed.

(** X14.  In every reachable state the replay buffer of a stream holds at
    most [max(1, buffer)] values. *)
Theorem replay_buffer_is_bounded (cs : list Call) (i : nat) (sh : Shared)
    (rs : ReplaySubject) :
  derived (run cs Service_new) !! i = Some sh → subject sh = Some rs →
  length (rs_buffer rs) ≤ Z.to_nat (Z.max 1 (sh_buffer sh)).
Proof.
  intros Hi Hs.
  assert (Forall Shared_buffer_ok (derived (run cs Service_new))) as Hb
    by (apply run_buffer_ok; constructor).
  by apply (Forall_lookup_1 _ _ _ _ Hb Hi).
Qed.

Lemma replay_buffer_is_bounded_witness :
  length [JNum 2; JNum 3] ≤ Z.to_nat (Z.max 1 2).
Proof.
  exact (replay_buffer_is_bounded
           [call_stateValue_dollar "count" (Some (mkOpts (Some 2%Z) None));
            call_subscribe (mkObservable 0 None);
            call_stateValue "count" (JNum 1);
            call_stateValue "count" (JNum 2);
            call_stateValue "count" (JNum 3)] 0
           (mkShared "count" 2
              (Some (mkReplaySubject [JNum 2; JNum 3] false [0])) true 1 false
              [mkSubscriber false None (Some (JNum 3))
                 [Next (JNum 1); Next (JNum 2); Next (JNum 3)]])
           (mkReplaySubject [JNum 2; JNum 3] false [0])
           eq_refl eq_refl).
Defined.

(** X15.  The [buffer] option: after a write of [v], a subscriber that
    attaches to a connected stream for the name is replayed the newest
    [max(1, buffer)] of the values the stream has emitted, oldest first and
    ending with [v].  A buffer of one or less (but not zero) replays [v]
    alone; while the buffer is not yet full nothing is dropped. *)
Theorem late_subscriber_is_replayed_the_buffer (cs : list Call)
    (name : string) (v : JsVal) (i : nat) (sh : Shared) (rs : ReplaySubject) :
  let s := run cs Service_new in
  let s1 := snd (stateValue name v s) in
  let size := Z.max 1 (sh_buffer sh) in
  let k := length (subscribers sh) in
  isStopped (hash_stateValueUpdated s) = false → is_undefined v = false →
  derived s !! i = Some sh → sh_name sh = name → subject sh = Some rs →
  fst (subscribe (mkObservable i None) s1) = Some (i, k)
  ∧ received_by (i, k) (snd (subscribe (mkObservable i None) s1))
    = Next <$> trimBuffer size (rs_buffer rs ++ [v])
  ∧ last (trimBuffer size (rs_buffer rs ++ [v])) = Some v
  ∧ ((sh_buffer sh ≤ 1)%Z → trimBuffer size (rs_buffer rs ++ [v]) = [v])
  ∧ (length (rs_buffer rs) < Z.to_nat size →
     trimBuffer size (rs_buffer rs ++ [v]) = rs_buffer rs ++ [v]).
Proof.
  intros s s1 size k Hn Hv Hi Hname Hs.
  assert (Service_wf s) as Hwf by apply run_wf, Service_new_wf.
  assert (Service_wf s1) as Hwf1 by (by apply stateValue_wf).
  pose proof (Service_wf_lookup s i sh Hwf Hi) as Hsk.
  destruct (open_subject_not_stopped s i sh rs Hwf Hn Hi Hs) as (Hst & Hc).
  assert (live (skel sh) = true) as Hl.
  { unfold Skel_wf, live, skel in *; simpl in *. rewrite Hs in Hsk.
    simpl in Hsk. destruct Hsk as (_ & Hh & _). by rewrite Hc, <- Hh, Hst. }
  assert (derived s1 !! i = Some (connection_next v sh)) as Hi1.
  { subst s1. rewrite (stateValue_write_lookup name v s i sh) by done.
    by rewrite Hn, Hl, <- Hname, String.eqb_refl. }
  rewrite (connection_next_wf v sh rs) in Hi1 by done.
  destruct (subscribe_connected (mkObservable i None) s1 _ _ Hwf1 Hi1 eq_refl)
    as (H1 & H2).
  simpl in H1, H2. rewrite length_fmap in H1, H2. fold k in H1, H2.
  unfold Subscriber_new in H2. rewrite replay_plain in H2. simpl in H2.
  fold size in H2.
  assert (length (rs_buffer rs) ≤ Z.to_nat size) as Hlen.
  { assert (Forall Shared_buffer_ok (derived s)) as Hb
      by (apply run_buffer_ok; constructor).
    by apply (Forall_lookup_1 _ _ _ _ Hb Hi). }
  split_and!; try done.
  - unfold trimBuffer. rewrite length_app. simpl.
    assert (length (rs_buffer rs) + 1 - Z.to_nat size ≤ length (rs_buffer rs))
      as Hd by lia.
    rewrite drop_app_le by done. apply last_snoc.
  - intros Hle. replace size with 1%Z by lia. apply trimBuffer_one.
  - intros Hlt. unfold trimBuffer. rewrite length_app. simpl.
    by replace (length (rs_buffer rs) + 1 - Z.to_nat size) with 0 by lia.
Qed.

Lemma late_subscriber_is_replayed_the_buffer_witness :
  let s := run [call_stateValue_dollar "count" (Some (mkOpts (Some 2%Z) None));
                call_subscribe (mkObservable 0 None);
                call_stateValue "count" (JNum 1);
                call_stateValue "count" (JNum 2)] Service_new in
  received_by (0, 1)
    (snd (subscribe (mkObservable 0 None) (snd (stateValue "count" (JNum 3) s))))
  = [Next (JNum 2); Next (JNum 3)].
Proof.
  exact (proj1 (proj2 (late_subscriber_is_replayed_the_buffer
           [call_stateValue_dollar "count" (Some (mkOpts (Some 2%Z) None));
            call_subscribe (mkObservable 0 None);
            call_stateValue "count" (JNum 1);
            call_stateValue "count" (JNum 2)]
           "count" (JNum 3) 0
           (mkShared "count" 2
              (Some (mkReplaySubject [JNum 1; JNum 2] false [0])) true 1 false
              [mkSubscriber false None (Some (JNum 2))
                 [Next (JNum 1); Next (JNum 2)]])
           (mkReplaySubject [JNum 1; JNum 2] false [0])
           eq_refl eq_refl eq_refl eq_refl eq_refl))).
Defined.

(** ** Invariants of single subscribers *)

(** A property of subscribers that holds of a new one and is kept by
    [next], [complete] and [unsubscribe] holds of every subscriber in
    every reachable state. *)
Section subscriber_invariant.
Context (P : Subscriber → Prop).
Context (P_new : ∀ cmp, P (Subscriber_new cmp)).
Context (P_next : ∀ v x, P x → P (Subscriber_next v x)).
Context (P_complete : ∀ x, P x → P (Subscriber_complete x)).
Context (P_close : ∀ x, P x → P (Subscriber_close x)).

Lemma inv_replay (l : list JsVal) (x : Subscriber) :
  P x → P (foldl (λ sub v, Subscriber_next v sub) x l).
Proof.
  revert x. induction l as [|v l IH]; intros x Hx; simpl; [done|].
  by apply IH, P_next.
Qed.

Lemma inv_connection_next (v : JsVal) (sh : Shared) :
  Forall P (subscribers sh) → Forall P (subscribers (connection_next v sh)).
Proof.
  unfold connection_next. intros Hm.
  destruct (subject sh) as [rs|]; [|done].
  destruct (rs_isStopped rs); [done|]. simpl.
  apply foldl_alter_Forall; auto.
Qed.

Lemma inv_connection_complete (sh : Shared) :
  Forall P (subscribers sh) → Forall P (subscribers (connection_complete sh)).
Proof.
  unfold connection_complete. intros Hm.
  destruct (subject sh) as [rs|]; [|done].
  destruct (rs_isStopped rs); [done|]. simpl.
  apply foldl_alter_Forall; auto.
Qed.

Lemma inv_pipeline_trigger (m : gmap string JsVal) (sh : Shared) :
  Forall P (subscribers sh) → Forall P (subscribers (pipeline_trigger m sh)).
Proof.
  intros Hm. unfold pipeline_trigger. destruct (Map_has _ _); [|done].
  by apply inv_connection_next.
Qed.

Lemma inv_pipeline_next (m : gmap string JsVal) (n : string) (sh : Shared) :
  Forall P (subscribers sh) → Forall P (subscribers (pipeline_next m n sh)).
Proof.
  intros Hm. unfold pipeline_next. destruct (String.eqb _ _); [|done].
  by apply inv_pipeline_trigger.
Qed.

Lemma inv_Shared_subscribe (m : gmap string JsVal) (cmp : option Comparator)
    (i : nat) (n : Subject) (sh : Shared) :
  Forall P (subscribers sh) →
  Forall P (subscribers (Shared_subscribe m cmp i n sh).2).
Proof.
  intros Hm. unfold Shared_subscribe. cbv zeta.
  assert (∀ y, P y → Forall P (subscribers sh ++ [y])) as Happ.
  { intros y Hy. apply Forall_app. split; [done|]. by apply Forall_singleton. }
  pose proof (inv_replay (rs_buffer (default ReplaySubject_new (subject sh)))
                (Subscriber_new cmp) (P_new cmp)) as Hr.
  destruct (rs_isStopped _); simpl;
    (destruct (negb _ && _); simpl;
      [destruct (isStopped n); simpl;
        [apply inv_connection_complete|];
        apply inv_pipeline_trigger; simpl
      |]);
    auto.
Qed.

Lemma inv_Shared_unsubscribe (i k : nat) (n : Subject) (sh : Shared) :
  Forall P (subscribers sh) →
  Forall P (subscribers (Shared_unsubscribe i k n sh).2).
Proof.
  intros Hm. unfold Shared_unsubscribe.
  destruct (subscribers sh !! k) as [x|] eqn:Hx; [|done].
  destruct (closed x); [done|].
  assert (Forall P (<[k:=Subscriber_close x]> (subscribers sh))).
  { apply Forall_insert; [done|].
    apply P_close. by apply (Forall_lookup_1 _ _ _ _ Hm Hx). }
  by destruct (_ && _).
Qed.

Lemma inv_exec (s : Service) (c : Call) :
  Forall (λ sh, Forall P (subscribers sh)) (derived s) →
  Forall (λ sh, Forall P (subscribers sh)) (derived (exec s c)).
Proof.
  intros Hb.
  assert (∀ n v, Forall (λ sh, Forall P (subscribers sh))
                   (derived (snd (stateValue n v s)))) as Hset.
  { intros n v. unfold stateValue. destruct (is_undefined v); [done|]. simpl.
    unfold Subject_next. simpl. destruct (isStopped _); [done|]. simpl.
    apply (foldl_alter_Forall _ (λ sh, Forall P (subscribers sh)));
      auto using inv_pipeline_next. }
  assert (∀ n opts, Forall (λ sh, Forall P (subscribers sh))
                      (derived (snd (stateValue_dollar n opts s)))) as Hstream.
  { intros n opts. unfold stateValue_dollar. cbv zeta.
    destruct (_ && _); destruct (truthy _); simpl; auto;
      apply Forall_app; split; auto; apply Forall_singleton; constructor. }
  destruct c; simpl; try done.
  - rewrite stateValueDistinct_dollar_state. apply Hstream.
  - unfold subscribe. destruct (derived s !! source o) as [sh|] eqn:Ho; [|done].
    pose proof (inv_Shared_subscribe (hash_stateValue s) (distinct o)
                  (source o) (hash_stateValueUpdated s) sh) as Hs.
    destruct (Shared_subscribe _ _ _ _ _) as [n' sh']. simpl in *.
    apply Forall_insert; [done|]. apply Hs.
    by apply (Forall_lookup_1 _ _ _ _ Hb Ho).
  - unfold unsubscribe. destruct (derived s !! sub.1) as [sh|] eqn:Ho; [|done].
    pose proof (inv_Shared_unsubscribe sub.1 sub.2
                  (hash_stateValueUpdated s) sh) as Hs.
    destruct (Shared_unsubscribe _ _ _ _) as [n' sh']. simpl in *.
    apply Forall_insert; [done|]. apply Hs.
    by apply (Forall_lookup_1 _ _ _ _ Hb Ho).
  - unfold onDestroy, clearStateValues, Subject_complete.
    destruct (isStopped (hash_stateValueUpdated s)); simpl; [done|].
    apply (foldl_alter_Forall _ (λ sh, Forall P (subscribers sh)));
      auto using inv_connection_complete.
Qed.

Lemma inv_reachable (cs : list Call) (i k : nat) (sh : Shared)
    (x : Subscriber) :
  derived (run cs Service_new) !! i = Some sh →
  subscribers sh !! k = Some x → P x.
Proof.
  assert (∀ s, Forall (λ sh, Forall P (subscribers sh)) (derived s) →
               Forall (λ sh, Forall P (subscribers sh)) (derived (run cs s)))
    as Hrun.
  { induction cs as [|c cs IH]; intros s Hs; simpl; [done|].
    by apply IH, inv_exec. }
  intros Hi Hk. specialize (Hrun Service_new (Forall_nil_2 _)).
  eapply Forall_lookup_1; [|done].
  by apply (Forall_lookup_1 _ _ _ _ Hrun Hi).
Qed.

End subscriber_invariant.

(** ** [distinctUntilChanged] never repeats *)

Lemma no_repeat_snoc (cmp : Comparator) (l : list JsVal) (v : JsVal) :
  no_repeat cmp l → (∀ p, last l = Some p → cmp p v = false) →
  no_repeat cmp (l ++ [v]).
Proof.
  induction l as [|a l IH]; intros Hl Hp; [done|].
  destruct l as [|b l]; simpl in *.
  - split; [by apply Hp|done].
  - destruct Hl as [Hab Hl]. split; [done|]. by apply IH.
Qed.

Lemma Distinct_ok_next (v : JsVal) (x : Subscriber) :
  Distinct_ok x → Distinct_ok (Subscriber_next v x).
Proof.
  intros [Hm Hr]. split; [by apply Memory_ok_next|].
  unfold Subscriber_next. destruct (closed x); [done|].
  unfold Memory_ok in Hm.
  destruct (comparator x) as [c|] eqn:Hc.
  - destruct (previousKey x) as [p|] eqn:Hp.
    + destruct (c p v) eqn:Hcmp; [by rewrite Hc|].
      simpl. rewrite Hc. intros cmp [= <-]. rewrite emissions_snoc_Next.
      apply no_repeat_snoc; [by apply Hr|].
      intros q Hq. rewrite <- Hm in Hq. by injection Hq as <-.
    + simpl. rewrite Hc. intros cmp [= <-]. rewrite emissions_snoc_Next.
      apply no_repeat_snoc; [by apply Hr|].
      intros q Hq. rewrite <- Hm in Hq. done.
  - simpl. by rewrite Hc.
Qed.

Lemma Distinct_ok_complete (x : Subscriber) :
  Distinct_ok x → Distinct_ok (Subscriber_complete x).
Proof.
  intros [Hm Hr]. split; [by apply Memory_ok_complete|].
  unfold Subscriber_complete. destruct (closed x); [done|]. simpl.
  by rewrite emissions_snoc_Complete.
Qed.

(** X16.  A [stateValueDistinct$] subscriber is never sent two values in a
    row that its comparator finds equal, in any reachable state. *)
Theorem distinct_subscriber_never_sees_a_repeat (cs : list Call) (i k : nat)
    (sh : Shared) (x : Subscriber) (cmp : Comparator) :
  derived (run cs Service_new) !! i = Some sh →
  subscribers sh !! k = Some x → comparator x = Some cmp →
  no_repeat cmp (emissions (received x)).
Proof.
  intros Hi Hk Hc.
  assert (Distinct_ok x) as [_ Hr]; [|by apply Hr].
  apply (inv_reachable Distinct_ok) with cs i k sh.
  - intros c. split; [done|]. intros c' _. exact I.
  - apply Distinct_ok_next.
  - apply Distinct_ok_complete.
  - intros y Hy. exact Hy.
  - done.
  - done.
Qed.

Lemma distinct_subscriber_never_sees_a_repeat_witness :
  no_repeat defaultDistinctFn [JNum 1; JNum 2; JNum 1].
Proof.
  exact (distinct_subscriber_never_sees_a_repeat
           [call_stateValueDistinct_dollar "count" None;
            call_subscribe (mkObservable 0 (Some defaultDistinctFn));
            call_stateValue "count" (JNum 1);
            call_stateValue "count" (JNum 1);
            call_stateValue "count" (JNum 2);
            call_stateValue "count" (JNum 2);
            call_stateValue "count" (JNum 1)] 0 0
           (mkShared "count" 1 (Some (mkReplaySubject [JNum 1] false [0]))
              true 1 false
              [mkSubscriber false (Some defaultDistinctFn) (Some (JNum 1))
                 [Next (JNum 1); Next (JNum 2); Next (JNum 1)]])
           (mkSubscriber false (Some defaultDistinctFn) (Some (JNum 1))
              [Next (JNum 1); Next (JNum 2); Next (JNum 1)])
           defaultDistinctFn eq_refl eq_refl eq_refl).
Defined.

(** ** What the teardown releases *)

(** X17.  Once the teardown has run, in every later state nothing is
    attached any more: the notifier holds no connection, no stream has an
    observer or a positive [refCount], and every subscriber is closed. *)
Theorem teardown_releases_everything (cs : list Call) (i k : nat)
    (sh : Shared) (x : Subscriber) :
  let s := run cs Service_new in
  existsb is_teardown cs = true →
  derived s !! i = Some sh →
  observers (hash_stateValueUpdated s) = []
  ∧ refCount sh = 0
  ∧ (∀ rs, subject sh = Some rs →
           rs_isStopped rs = true ∧ rs_observers rs = [])
  ∧ (subscribers sh !! k = Some x → closed x = true).
Proof.
  intros s Ht Hi.
  assert (Service_wf s) as Hwf by apply run_wf, Service_new_wf.
  assert (isStopped (hash_stateValueUpdated s) = true) as Hn.
  { subst s. by rewrite run_stopped, Ht. }
  pose proof Hwf as (_ & _ & Hobs & _ & Hstop). specialize (Hstop Hn).
  pose proof (Service_wf_lookup s i sh Hwf Hi) as Hsk.
  pose proof (Service_wf_observers s i sh Hwf Hi) as Hlive.
  rewrite Hstop in Hlive.
  assert (live (skel sh) = false) as Hl.
  { destruct (live (skel sh)); [|done].
    pose proof (proj2 Hlive eq_refl) as Hin. by apply elem_of_nil in Hin. }
  assert (∀ rs, subject sh = Some rs →
                rs_isStopped rs = true ∧ rs_observers rs = []) as Hrs.
  { intros rs Hs. unfold Skel_wf, live, skel in *; simpl in *.
    rewrite Hs in Hsk. simpl in Hsk.
    destruct Hsk as (Hc & Hst & _ & _ & Hempty & _).
    rewrite Hc, <- Hst in Hl. simpl in Hl. apply negb_false_iff in Hl.
    split; [done|]. by apply Hempty. }
  split_and!; try done.
  - unfold Skel_wf, skel in Hsk; simpl in Hsk.
    destruct (subject sh) as [rs|] eqn:Hs; simpl in Hsk.
    + destruct (Hrs rs eq_refl) as (_ & Hnil).
      destruct Hsk as (_ & _ & _ & -> & _). by rewrite Hnil.
    + by destruct Hsk as (_ & _ & -> & _).
  - intros Hk. by apply (stopped_all_closed s i k sh x).
Qed.

Lemma teardown_releases_everything_witness :
  let s := run [call_stateValue_dollar "count" None;
                call_subscribe (mkObservable 0 None);
                call_onDestroy;
                call_stateValue "count" (JNum 1);
                call_subscribe (mkObservable 0 None)] Service_new in
  observers (hash_stateValueUpdated s) = [].
Proof.
  exact (proj1 (teardown_releases_everything
           [call_stateValue_dollar "count" None;
            call_subscribe (mkObservable 0 None);
            call_onDestroy;
            call_stateValue "count" (JNum 1);
            call_subscribe (mkObservable 0 None)] 0 0
           (mkShared "count" 1 (Some (mkReplaySubject [] true [])) true 0 true
              [mkSubscriber true None None [Complete];
               mkSubscriber true None None [Complete]])
           (mkSubscriber true None None [Complete])
           eq_refl eq_refl)).
Defined.

(** ** Streams do not interfere *)

Lemma unsubscribe_other_stream (sub : Subscription) (s : Service) (j : nat) :
  j ≠ sub.1 → derived (unsubscribe sub s) !! j = derived s !! j.
Proof.
  intros Hne. unfold unsubscribe. destruct (derived s !! sub.1); [|done].
  destruct (Shared_unsubscribe _ _ _ _). simpl.
  by rewrite list_lookup_insert_ne.
Qed.

Lemma subscribe_other_stream (o : Observable) (s : Service) (j : nat) :
  j ≠ source o → derived (snd (subscribe o s)) !! j = derived s !! j.
Proof.
  intros Hne. unfold subscribe. destruct (derived s !! source o); [|done].
  destruct (Shared_subscribe _ _ _ _ _). simpl.
  by rewrite list_lookup_insert_ne.
Qed.

(** X18.  Two streams are independent views, also when they are for the
    same name: subscribing to one or unsubscribing from one changes nothing
    of the other, and the other's attached subscribers are still sent the
    next write. *)
Theorem streams_are_independent (cs : list Call) (name : string) (v : JsVal)
    (o : Observable) (sub : Subscription) (j k : nat) (sh : Shared)
    (x : Subscriber) :
  let s := run cs Service_new in
  isStopped (hash_stateValueUpdated s) = false → is_undefined v = false →
  derived s !! j = Some sh → sh_name sh = name →
  subscribers sh !! k = Some x → closed x = false →
  (j ≠ source o →
   derived (snd (subscribe o s)) !! j = Some sh
   ∧ received_by (j, k) (snd (stateValue name v (snd (subscribe o s))))
     = received (Subscriber_next v x))
  ∧ (j ≠ sub.1 →
     derived (unsubscribe sub s) !! j = Some sh
     ∧ received_by (j, k) (snd (stateValue name v (unsubscribe sub s)))
       = received (Subscriber_next v x)).
Proof.
  intros s Hn Hv Hj Hname Hk Hc.
  assert (Service_wf s) as Hwf by apply run_wf, Service_new_wf.
  split; intros Hne.
  - assert (derived (snd (subscribe o s)) !! j = Some sh) as Hj'
      by (by rewrite subscribe_other_stream).
    split; [done|].
    destruct (stateValue_write_subscriber name v (snd (subscribe o s)) j k sh x)
      as (sh' & Hi' & Hk'); try done.
    + by apply subscribe_wf.
    + by rewrite subscribe_stopped.
    + unfold received_by. cbn [fst snd]. by rewrite Hi', Hk'.
  - assert (derived (unsubscribe sub s) !! j = Some sh) as Hj'
      by (by rewrite unsubscribe_other_stream).
    split; [done|].
    destruct (stateValue_write_subscriber name v (unsubscribe sub s) j k sh x)
      as (sh' & Hi' & Hk'); try done.
    + by apply unsubscribe_wf.
    + by rewrite unsubscribe_stopped.
    + unfold received_by. cbn [fst snd]. by rewrite Hi', Hk'.
Qed.

Lemma streams_are_independent_witness :
  let s := run [call_stateValue_dollar "count" None;
                call_stateValue_dollar "count" None;
                call_subscribe (mkObservable 0 None);
                call_subscribe (mkObservable 1 None)] Service_new in
  received_by (1, 0) (snd (stateValue "count" (JNum 1) (unsubscribe (0, 0) s)))
  = [Next (JNum 1)].
Proof.
  refine (proj2 (proj2 (streams_are_independent
           [call_stateValue_dollar "count" None;
            call_stateValue_dollar "count" None;
            call_subscribe (mkObservable 0 None);
            call_subscribe (mkObservable 1 None)]
           "count" (JNum 1) (mkObservable 0 None) (0, 0) 1 0
           (mkShared "count" 1 (Some (mkReplaySubject [] false [0])) true 1
              false [Subscriber_new None])
           (Subscriber_new None)
           eq_refl eq_refl eq_refl eq_refl eq_refl eq_refl) _)).
  simpl. lia.
Defined.

(** ** Completion comes from the teardown alone *)

Lemma Not_completed_next (v : JsVal) (x : Subscriber) :
  Not_completed x → Not_completed (Subscriber_next v x).
Proof.
  unfold Not_completed. intros Hx.
  assert (Complete ∉ received (Subscriber_emit v x)) as He.
  { unfold Subscriber_emit. simpl. rewrite elem_of_app, list_elem_of_singleton.
    intros [?|?]; done. }
  unfold Subscriber_next. destruct (closed x); [done|].
  destruct (comparator x) as [c|]; [|done].
  destruct (previousKey x) as [p|]; [|done].
  by destruct (c p v).
Qed.

Lemma Not_completed_close (x : Subscriber) :
  Not_completed x → Not_completed (Subscriber_close x).
Proof. done. Qed.

Lemma alive_Shared_subscribe (m : gmap string JsVal) (cmp : option Comparator)
    (i : nat) (n : Subject) (sh : Shared) :
  (∀ rs, subject sh = Some rs → rs_isStopped rs = false) →
  isStopped n = false →
  Forall Not_completed (subscribers sh) →
  Forall Not_completed (subscribers (Shared_subscribe m cmp i n sh).2).
Proof.
  intros Hopen Hn Hm. unfold Shared_subscribe. cbv zeta. rewrite Hn.
  assert (rs_isStopped (default ReplaySubject_new (subject sh)) = false) as ->.
  { destruct (subject sh) as [rs|]; simpl; [by apply Hopen|done]. }
  assert (Forall Not_completed
            (subscribers sh
             ++ [foldl (λ sub v, Subscriber_next v sub) (Subscriber_new cmp)
                   (rs_buffer (default ReplaySubject_new (subject sh)))]))
    as Happ.
  { apply Forall_app. split; [done|]. apply Forall_singleton.
    apply inv_replay; [apply Not_completed_next|].
    unfold Not_completed. simpl. by intros ?%elem_of_nil. }
  destruct (negb _ && _); simpl; [|done].
  apply inv_pipeline_trigger; [apply Not_completed_next|done].
Qed.

Lemma alive_exec (s : Service) (c : Call) :
  Service_wf s → isStopped (hash_stateValueUpdated s) = false →
  is_teardown c = false →
  Forall (λ sh, Forall Not_completed (subscribers sh)) (derived s) →
  Forall (λ sh, Forall Not_completed (subscribers sh)) (derived (exec s c)).
Proof.
  intros Hwf Hn Ht Hb.
  assert (∀ n v, Forall (λ sh, Forall Not_completed (subscribers sh))
                   (derived (snd (stateValue n v s)))) as Hset.
  { intros n v. unfold stateValue. destruct (is_undefined v); [done|]. simpl.
    unfold Subject_next. simpl. rewrite Hn. simpl.
    apply (foldl_alter_Forall _
             (λ sh, Forall Not_completed (subscribers sh))); [|done].
    intros sh. apply inv_pipeline_next, Not_completed_next. }
  assert (∀ n opts, Forall (λ sh, Forall Not_completed (subscribers sh))
                      (derived (snd (stateValue_dollar n opts s)))) as Hstream.
  { intros n opts. unfold stateValue_dollar. cbv zeta.
    destruct (_ && _); destruct (truthy _); simpl; auto;
      apply Forall_app; split; auto; apply Forall_singleton; constructor. }
  destruct c; simpl; try done.
  - rewrite stateValueDistinct_dollar_state. apply Hstream.
  - unfold subscribe. destruct (derived s !! source o) as [sh|] eqn:Ho; [|done].
    pose proof (alive_Shared_subscribe (hash_stateValue s) (distinct o)
                  (source o) (hash_stateValueUpdated s) sh) as Hs.
    destruct (Shared_subscribe _ _ _ _ _) as [n' sh']. simpl in *.
    apply Forall_insert; [done|]. apply Hs; [|done|].
    + intros rs Hrs.
      by apply (open_subject_not_stopped s (source o) sh rs Hwf Hn Ho Hrs).
    + by apply (Forall_lookup_1 _ _ _ _ Hb Ho).
  - unfold unsubscribe. destruct (derived s !! sub.1) as [sh|] eqn:Ho; [|done].
    pose proof (inv_Shared_unsubscribe Not_completed Not_completed_close
                  sub.1 sub.2 (hash_stateValueUpdated s) sh) as Hs.
    destruct (Shared_unsubscribe _ _ _ _) as [n' sh']. simpl in *.
    apply Forall_insert; [done|]. apply Hs.
    by apply (Forall_lookup_1 _ _ _ _ Hb Ho).
Qed.

Lemma alive_run (cs : list Call) (s : Service) :
  Service_wf s → isStopped (hash_stateValueUpdated s) = false →
  existsb is_teardown cs = false →
  Forall (λ sh, Forall Not_completed (subscribers sh)) (derived s) →
  Forall (λ sh, Forall Not_completed (subscribers sh)) (derived (run cs s)).
Proof.
  revert s. induction cs as [|c cs IH]; intros s Hwf Hn Ht Hb; simpl in *;
    [done|].
  apply orb_false_iff in Ht as [Hc Ht].
  apply IH; [by apply exec_wf| |done|by apply alive_exec].
  by rewrite exec_stopped, Hn, Hc.
Qed.

(** X19.  Only the teardown completes a [stateValue$] or
    [stateValueDistinct$] stream: as long as it has not run, no subscriber
    of such a stream has been sent completion. *)
Theorem no_completion_before_teardown (cs : list Call) (i k : nat)
    (sh : Shared) (x : Subscriber) :
  existsb is_teardown cs = false →
  derived (run cs Service_new) !! i = Some sh →
  subscribers sh !! k = Some x →
  Complete ∉ received x.
Proof.
  intros Ht Hi Hk.
  assert (Forall (λ sh, Forall Not_completed (subscribers sh))
            (derived (run cs Service_new))) as Hb.
  { apply alive_run; [apply Service_new_wf|done|done|constructor]. }
  eapply (Forall_lookup_1 Not_completed); [|done].
  by apply (Forall_lookup_1 _ _ _ _ Hb Hi).
Qed.

Lemma no_completion_before_teardown_witness :
  Complete ∉ [Next (JNum 1)].
Proof.
  exact (no_completion_before_teardown
           [call_stateValue_dollar "count" None;
            call_subscribe (mkObservable 0 None);
            call_stateValue "count" (JNum 1);
            call_unsubscribe (0, 0)] 0 0
           (mkShared "count" 1 None false 0 false
              [mkSubscriber true None (Some (JNum 1)) [Next (JNum 1)]])
           (mkSubscriber true None (Some (JNum 1)) [Next (JNum 1)])
           eq_refl eq_refl eq_refl).
Defined.
